(** * block34a_career_simulation: the review service, embedded and verified

    A shallow embedding of the Express/Prisma REST service (users, items,
    reviews, comments) and the properties its specification states about
    the authentication gate, the ownership guard, the repositories and the
    derived average rating.

    Conventions of the embedding:
    - a JavaScript string is a [string] (code units restricted to 0..255);
    - a JavaScript number that holds an integer is a [Z], [NaN] is [None];
      a number read from a JSON body is given by its exact rational value;
    - a key or a rating of a stored row is a [Z]; the database keeps
      32-bit integers there, and the client refuses what does not fit;
    - the relational store is a record of tables (lists of rows in storage
      order) threaded through a state-and-exception monad [Task];
    - the libraries the service calls (jsonwebtoken, bcrypt, the e-mail
      pattern of zod, the case-insensitive match of the database and
      binary64 division) are the fields of the class [Externals]. *)

From Stdlib Require Import ZArith QArith Qround Qabs Lqa Lia.
From Stdlib Require Import List String Ascii Bool Sorted Permutation.
From Stdlib Require Import Floats Uint63.
Import ListNotations.

Local Open Scope string_scope.
Local Open Scope Z_scope.

(* ================================================================== *)
(** ** JavaScript primitives used by the routes *)

Module Js.

(** [StrWhiteSpaceChar] restricted to the code units below 256. *)
Definition isWhiteSpace (c : ascii) : bool :=
  let n := nat_of_ascii c in
  existsb (Nat.eqb n) [9; 10; 11; 12; 13; 32; 160]%nat.

Fixpoint trimStart (s : string) : string :=
  match s with
  | String c s' => if isWhiteSpace c then trimStart s' else s
  | EmptyString => s
  end.

Definition digitValue (c : ascii) : option Z :=
  let n := Z.of_nat (nat_of_ascii c) in
  if (48 <=? n) && (n <=? 57) then Some (n - 48) else None.

(** Value of the longest prefix of decimal digits; [None] when the
    prefix is empty. [seen] records that a digit was read, [acc] the
    value read so far. *)
Fixpoint digitPrefix (s : string) (seen : bool) (acc : Z) : option Z :=
  match s with
  | String c s' =>
      match digitValue c with
      | Some d => digitPrefix s' true (10 * acc + d)
      | None => if seen then Some acc else None
      end
  | EmptyString => if seen then Some acc else None
  end.

(** [parseInt(s, 10)]: leading white space is skipped, one sign is
    read, then the longest run of digits; [None] is [NaN]. *)
Definition parseInt (s : string) : option Z :=
  match trimStart s with
  | String "-" rest => option_map Z.opp (digitPrefix rest false 0)
  | String "+" rest => digitPrefix rest false 0
  | str => digitPrefix str false 0
  end.

(** [isNaN(x)] for the result of [parseInt]. *)
Definition isNaN (x : option Z) : bool :=
  match x with None => true | Some _ => false end.

(** [s.split(sep)] for a one-character separator. *)
Fixpoint split (sep : ascii) (s : string) : list string :=
  match s with
  | EmptyString => [EmptyString]
  | String c s' =>
      if Ascii.eqb c sep then EmptyString :: split sep s'
      else match split sep s' with
           | piece :: rest => String c piece :: rest
           | [] => [String c EmptyString]
           end
  end.

(** Truthiness of a string that may be [undefined]. *)
Definition truthy (s : option string) : bool :=
  match s with
  | Some (String _ _) => true
  | _ => false
  end.

(** The pattern [/^\d+$/]. *)
Fixpoint allDigits (s : string) : bool :=
  match s with
  | EmptyString => true
  | String c s' =>
      match digitValue c with Some _ => allDigits s' | None => false end
  end.

Definition matchesDigits (s : string) : bool :=
  match s with EmptyString => false | _ => allDigits s end.

(** [Number(s)] for a string that matches [/^\d+$/]. *)
Definition Number (s : string) : Z :=
  match digitPrefix s false 0 with Some n => n | None => 0 end.

(** [x.toFixed(2)] for [x] below 10^21 in absolute value: the integer
    [n] for which [n / 100 - x] is as close to zero as possible, the
    larger [n] on a tie, taken on the absolute value and given the sign
    of [x]. The result is [n], the number of hundredths. *)
Definition toFixed2 (x : Q) : Z :=
  if Qle_bool 0 x then Qfloor (x * 100 + (1 # 2))%Q
  else - Qfloor ((- x) * 100 + (1 # 2))%Q.

(** [parseFloat] of the output of [toFixed(2)]: the number printed in
    a JSON response as the decimal [n / 100]. *)
Definition parseFloat2 (n : Z) : Q := Qred (n # 100).

End Js.

(* ================================================================== *)
(** ** JSON values, query strings and the zod schemas' building blocks *)

(** A parsed JSON value; a number is given by its exact value. *)
#[local] Unset Elimination Schemes.
Inductive jval : Type :=
| JNull
| JBool (b : bool)
| JNum (q : Q)
| JStr (s : string)
| JArr (l : list jval)
| JObj (fields : list (string * jval)).
#[local] Set Elimination Schemes.

(** Reading a property: [None] is [undefined]. The keys of a parsed
    object are distinct. *)
Fixpoint property {A : Type} (fields : list (string * A)) (k : string) : option A :=
  match fields with
  | [] => None
  | (k', v) :: rest => if String.eqb k k' then Some v else property rest k
  end.

(** A value of [req.query]: the query parser yields strings, or arrays
    and nested objects for repeated and bracketed keys; never a number. *)
Inductive qval : Type :=
| QStr (s : string)
| QMany (l : list string).

Definition jval_of_qval (v : qval) : jval :=
  match v with
  | QStr s => JStr s
  | QMany l => JArr (map JStr l)
  end.

Record ZodIssue : Type := { code : string; path : string }.

Definition invalid_type (p : string) : ZodIssue := {| code := "invalid_type"; path := p |}.
Definition too_small (p : string) : ZodIssue := {| code := "too_small"; path := p |}.
Definition too_big (p : string) : ZodIssue := {| code := "too_big"; path := p |}.
Definition invalid_string (p : string) : ZodIssue := {| code := "invalid_string"; path := p |}.

(** The outcome of one schema on one value: its issues or the parsed value. *)
Definition parsed (A : Type) : Type := (list ZodIssue + A)%type.

Definition issues_of {A : Type} (r : parsed A) : list ZodIssue :=
  match r with inl e => e | inr _ => [] end.

Module Zod.

(** [z.number()] *)
Definition number (p : string) (v : option jval) : parsed Q :=
  match v with
  | Some (JNum q) => inr q
  | _ => inl [invalid_type p]
  end.

(** [z.number().min(lo).max(hi)]: both checks run on a number. *)
Definition number_min_max (lo hi : Q) (p : string) (v : option jval) : parsed Q :=
  match number p v with
  | inl e => inl e
  | inr q =>
      match ((if Qle_bool lo q then [] else [too_small p])
             ++ (if Qle_bool q hi then [] else [too_big p]))%list with
      | [] => inr q
      | e => inl e
      end
  end.

(** [z.string()] *)
Definition string_ (p : string) (v : option jval) : parsed string :=
  match v with
  | Some (JStr s) => inr s
  | _ => inl [invalid_type p]
  end.

(** [z.string().min(n)] *)
Definition string_min (n : nat) (p : string) (v : option jval) : parsed string :=
  match string_ p v with
  | inl e => inl e
  | inr s => if (n <=? String.length s)%nat then inr s else inl [too_small p]
  end.

(** [schema.optional()]: [undefined] is accepted as it is. *)
Definition optional {A : Type} (schema : string -> option jval -> parsed A)
    (p : string) (v : option jval) : parsed (option A) :=
  match v with
  | None => inr None
  | Some _ =>
      match schema p v with
      | inl e => inl e
      | inr a => inr (Some a)
      end
  end.

(** [schema.default(d)]: [undefined] is replaced by [d] before parsing. *)
Definition default {A : Type} (schema : string -> option jval -> parsed A)
    (d : jval) (p : string) (v : option jval) : parsed A :=
  match v with
  | None => schema p (Some d)
  | Some _ => schema p v
  end.

Definition is_integer (q : Q) : bool := Qeq_bool q (inject_Z (Qfloor q)).

(** [z.number().int().min(lo)], with [.max(hi)] when [hi] is given:
    every check runs on a number. *)
Definition number_int (lo : Z) (hi : option Z) (p : string) (v : option jval) : parsed Z :=
  match number p v with
  | inl e => inl e
  | inr q =>
      match ((if is_integer q then [] else [invalid_type p])
             ++ (if Qle_bool (inject_Z lo) q then [] else [too_small p])
             ++ (match hi with
                 | Some h => if Qle_bool q (inject_Z h) then [] else [too_big p]
                 | None => []
                 end))%list with
      | [] => inr (Qfloor q)
      | e => inl e
      end
  end.

(** [z.string().regex(/^\d+$/)] *)
Definition digits (p : string) (v : option jval) : parsed string :=
  match string_ p v with
  | inl e => inl e
  | inr s => if Js.matchesDigits s then inr s else inl [invalid_string p]
  end.

(** [z.string().regex(/^\d+$/).transform(Number)] *)
Definition digits_number (p : string) (v : option jval) : parsed Z :=
  match digits p v with
  | inl e => inl e
  | inr s => inr (Js.Number s)
  end.

End Zod.

(* ================================================================== *)
(** ** The data model (prisma/schema.prisma) *)

Module User.
Record t : Type :=
  { id : Z; username : string; email : string; password : string;
    createdAt : Z }.
End User.

Module Item.
Record t : Type :=
  { id : Z; name : string; description : option string;
    category : option string; createdAt : Z }.
End Item.

Module Review.
Record t : Type :=
  { id : Z; rating : Z; content : string; userId : Z; itemId : Z;
    createdAt : Z; updatedAt : Z }.
End Review.

Module Comment.
Record t : Type :=
  { id : Z; content : string; userId : Z; reviewId : Z;
    createdAt : Z; updatedAt : Z }.
End Comment.

(** The four tables, rows in storage order, and the sequences behind the
    [autoincrement()] keys the routes allocate. *)
Record Db : Type :=
  { users : list User.t;
    items : list Item.t;
    reviews : list Review.t;
    comments : list Comment.t;
    nextUserId : Z;
    nextReviewId : Z }.

Definition with_users (db : Db) (us : list User.t) (next : Z) : Db :=
  {| users := us; items := items db; reviews := reviews db;
     comments := comments db; nextUserId := next;
     nextReviewId := nextReviewId db |}.

Definition with_reviews (db : Db) (rs : list Review.t) (next : Z) : Db :=
  {| users := users db; items := items db; reviews := rs;
     comments := comments db; nextUserId := nextUserId db;
     nextReviewId := next |}.

Definition with_reviews_comments (db : Db) (rs : list Review.t) (cs : list Comment.t) : Db :=
  {| users := users db; items := items db; reviews := rs;
     comments := cs; nextUserId := nextUserId db;
     nextReviewId := nextReviewId db |}.

Definition with_comments (db : Db) (cs : list Comment.t) : Db :=
  {| users := users db; items := items db; reviews := reviews db;
     comments := cs; nextUserId := nextUserId db;
     nextReviewId := nextReviewId db |}.

(* ================================================================== *)
(** ** Asynchronous code: store passing with exceptions *)

Inductive Exn : Type :=
| ZodError (errors : list ZodIssue)
| ReferenceError (name : string)
| JsonWebTokenError
| PrismaClientError (code : string).

Inductive outcome (A : Type) : Type :=
| Return (a : A)
| Throw (e : Exn).
Arguments Return {A} a.
Arguments Throw {A} e.

Definition Task (A : Type) : Type := Db -> outcome A * Db.

Definition ret {A : Type} (a : A) : Task A := fun db => (Return a, db).

Definition throw {A : Type} (e : Exn) : Task A := fun db => (Throw e, db).

Definition bind {A B : Type} (m : Task A) (k : A -> Task B) : Task B :=
  fun db =>
    match m db with
    | (Return a, db') => k a db'
    | (Throw e, db') => (Throw e, db')
    end.

(** [try { body } catch (error) { handler }] *)
Definition try_catch {A : Type} (body : Task A) (handler : Exn -> Task A) : Task A :=
  fun db =>
    match body db with
    | (Return a, db') => (Return a, db')
    | (Throw e, db') => handler e db'
    end.

Notation "x <- m ;; k" := (bind m (fun x => k))
  (at level 61, m at next level, right associativity).
Notation "' pat <- m ;; k" := (bind m (fun x => match x with pat => k end))
  (at level 61, pat pattern, m at next level, right associativity).

(** [schema.parse(value)]: the value, or a thrown [ZodError]. *)
Definition parse {A : Type} (r : parsed A) : Task A :=
  match r with
  | inr a => ret a
  | inl e => throw (ZodError e)
  end.

(** Reading an identifier in a lexical scope: a [ReferenceError] when no
    binding of that name is in scope. *)
Definition identifier (scope : list string) (x : string) : Task unit :=
  if existsb (String.eqb x) scope then ret tt else throw (ReferenceError x).

(* ================================================================== *)
(** ** The Prisma client over the store

    Every query is answered from the tables (the connection does not
    fail). The columns the schema declares [Int] are 32-bit columns of
    PostgreSQL: a number outside that range cannot be bound to them and
    the query throws. A constraint of the schema that a write would
    break is a thrown [PrismaClientError] too, and the write stores no
    row; a sequence that had handed out its value for the refused row
    does not take it back. *)

(** What [include: { user: { select: { id: true, username: true } } }]
    attaches to a row. *)
Record UserRef : Type := { ref_id : Z; ref_username : string }.

Definition user_ref (db : Db) (userId : Z) : option UserRef :=
  match find (fun u => User.id u =? userId) (users db) with
  | Some u => Some {| ref_id := User.id u; ref_username := User.username u |}
  | None => None
  end.

(** Rows in ascending order of a key. [orderBy] says nothing about
    rows with equal keys and the database may return them in any order;
    here they come in storage order. *)
Fixpoint insert_by {A : Type} (key : A -> Z) (x : A) (l : list A) : list A :=
  match l with
  | [] => [x]
  | y :: l' => if key x <=? key y then x :: l else y :: insert_by key x l'
  end.

Definition sort_by {A : Type} (key : A -> Z) (l : list A) : list A :=
  fold_right (insert_by key) [] l.

(** [skip] and [take] of [findMany]; [take] is never negative in the
    routes. *)
Definition page_of {A : Type} (skip take : Z) (rows : list A) : list A :=
  firstn (Z.to_nat take) (skipn (Z.to_nat skip) rows).

Module Prisma.

(** A number given where the schema has [Int]: the client drops its
    fraction, towards zero. *)
Definition int (q : Q) : Z := Z.quot (Qnum q) (Z.pos (Qden q)).

(** The range of an [Int] column. *)
Definition int32 (n : Z) : bool := (- 2147483648 <=? n) && (n <=? 2147483647).

(** The answer of [findUnique({ where: { id } })], given the row the
    table has under [id]. An [id] outside the range of the column is
    refused. The keys of the stored rows are inside it, so the refusal
    is what a lookup that finds no row comes to for such an [id]. *)
Definition unique {A : Type} (id : Z) (row : option A) : Task (option A) :=
  match row with
  | Some r => ret (Some r)
  | None =>
      if int32 id then ret None else throw (PrismaClientError "validation")
  end.

Module user.

Definition findUnique_id (id : Z) : Task (option User.t) :=
  fun db => unique id (find (fun u => User.id u =? id) (users db)) db.

Definition findUnique_email (email : string) : Task (option User.t) :=
  fun db =>
    (Return (find (fun u => String.eqb (User.email u) email) (users db)), db).

(** [username] and [email] are [@unique]. The row that breaks one of
    them is refused after the sequence behind [id] has handed out its
    value. *)
Definition create (username email password : string) (now : Z) : Task User.t :=
  fun db =>
    if existsb (fun u => String.eqb (User.email u) email
                         || String.eqb (User.username u) username) (users db)
    then (Throw (PrismaClientError "P2002"),
          with_users db (users db) (nextUserId db + 1))
    else
      let u := {| User.id := nextUserId db; User.username := username;
                  User.email := email; User.password := password;
                  User.createdAt := now |} in
      (Return u, with_users db (users db ++ [u]) (nextUserId db + 1)).

End user.

Module review.

Definition findUnique_id (id : Z) : Task (option Review.t) :=
  fun db => unique id (find (fun r => Review.id r =? id) (reviews db)) db.

(** [where: { userId_itemId: { userId, itemId } }]. The one caller,
    POST /reviews, goes on to [create] when no row is found, and there
    an [itemId] no item has, as every [itemId] outside the range of the
    column, is refused with the same response and the same store as a
    refusal here. *)
Definition findUnique_userId_itemId (userId itemId : Z) : Task (option Review.t) :=
  fun db =>
    (Return (find (fun r => (Review.userId r =? userId)
                            && (Review.itemId r =? itemId)) (reviews db)), db).

(** The insert behind [create]: both [connect]s need their row, and
    [@@unique([userId, itemId])] refuses a second row for the pair,
    after the sequence behind [id] has handed out its value. *)
Definition insert (rating : Z) (content : string) (userId itemId now : Z) : Task Review.t :=
  fun db =>
    if negb (existsb (fun u => User.id u =? userId) (users db))
       || negb (existsb (fun i => Item.id i =? itemId) (items db))
    then (Throw (PrismaClientError "P2025"), db)
    else if existsb (fun r => (Review.userId r =? userId)
                              && (Review.itemId r =? itemId)) (reviews db)
    then (Throw (PrismaClientError "P2002"),
          with_reviews db (reviews db) (nextReviewId db + 1))
    else
      let r := {| Review.id := nextReviewId db; Review.rating := rating;
                  Review.content := content; Review.userId := userId;
                  Review.itemId := itemId; Review.createdAt := now;
                  Review.updatedAt := now |} in
      (Return r, with_reviews db (reviews db ++ [r]) (nextReviewId db + 1)).

Definition create (rating : Q) (content : string) (userId itemId now : Z)
  : Task (Review.t * option UserRef) :=
  let rating' := int rating in
  r <- insert rating' content userId itemId now ;;
  fun db => (Return (r, user_ref db userId), db).

(** [updatedAt] is [@updatedAt]: every update stores the time. *)
Definition update (id : Z) (rating : Q) (content : string) (now : Z)
  : Task (Review.t * option UserRef) :=
  let rating' := int rating in
  fun db =>
    match find (fun r => Review.id r =? id) (reviews db) with
    | None => (Throw (PrismaClientError "P2025"), db)
    | Some old =>
        let r := {| Review.id := Review.id old; Review.rating := rating';
                    Review.content := content;
                    Review.userId := Review.userId old;
                    Review.itemId := Review.itemId old;
                    Review.createdAt := Review.createdAt old;
                    Review.updatedAt := now |} in
        (Return (r, user_ref db (Review.userId old)),
         with_reviews db
           (map (fun x => if Review.id x =? id then r else x) (reviews db))
           (nextReviewId db))
    end.

(** The comments of a review go with it ([onDelete: Cascade]). *)
Definition delete (id : Z) : Task unit :=
  fun db =>
    match find (fun r => Review.id r =? id) (reviews db) with
    | None => (Throw (PrismaClientError "P2025"), db)
    | Some _ =>
        (Return tt,
         with_reviews_comments db
           (filter (fun r => negb (Review.id r =? id)) (reviews db))
           (filter (fun c => negb (Comment.reviewId c =? id)) (comments db)))
    end.

End review.

Module comment.

Definition findUnique_id (id : Z) : Task (option Comment.t) :=
  fun db => unique id (find (fun c => Comment.id c =? id) (comments db)) db.

Definition update (id : Z) (content : string) (now : Z)
  : Task (Comment.t * option UserRef) :=
  fun db =>
    match find (fun c => Comment.id c =? id) (comments db) with
    | None => (Throw (PrismaClientError "P2025"), db)
    | Some old =>
        let c := {| Comment.id := Comment.id old; Comment.content := content;
                    Comment.userId := Comment.userId old;
                    Comment.reviewId := Comment.reviewId old;
                    Comment.createdAt := Comment.createdAt old;
                    Comment.updatedAt := now |} in
        (Return (c, user_ref db (Comment.userId old)),
         with_comments db
           (map (fun x => if Comment.id x =? id then c else x) (comments db)))
    end.

Definition delete (id : Z) : Task unit :=
  fun db =>
    match find (fun c => Comment.id c =? id) (comments db) with
    | None => (Throw (PrismaClientError "P2025"), db)
    | Some _ =>
        (Return tt,
         with_comments db
           (filter (fun c => negb (Comment.id c =? id)) (comments db)))
    end.

(** [findMany({ where: { reviewId }, skip, take, include: { user },
    orderBy: { createdAt: 'asc' } })]; a negative [skip] is refused.
    The one caller, GET /comments, passes the key of a review it has
    just found. *)
Definition findMany_reviewId (reviewId skip take : Z)
  : Task (list (Comment.t * option UserRef)) :=
  fun db =>
    if skip <? 0 then (Throw (PrismaClientError "validation"), db)
    else
      (Return
         (map (fun c => (c, user_ref db (Comment.userId c)))
            (page_of skip take
               (sort_by Comment.createdAt
                  (filter (fun c => Comment.reviewId c =? reviewId)
                     (comments db))))),
       db).

End comment.

End Prisma.

(* ================================================================== *)
(** ** The libraries the service calls *)

(** [jwt_sign now id] is [jwt.sign({ id }, JWT_SECRET, { expiresIn: '1h' })]
    at time [now]; [jwt_verify now token] is the [id] of the payload
    [jwt.verify(token, JWT_SECRET)] returns at time [now], [None] when it
    throws. [bcrypt_hash salt password] is [bcrypt.hash(password, 10)]
    with the salt it drew. [is_email] is the pattern of [z.string().email()],
    [contains_insensitive text search] the database's
    [{ contains: search, mode: 'insensitive' }]. [fdiv a b] is the value
    of the binary64 quotient [a / b] of two integers. *)
Class Externals : Type :=
  { jwt_sign : Z -> Z -> string;
    jwt_verify : Z -> string -> option Z;
    bcrypt_hash : string -> string -> string;
    bcrypt_compare : string -> string -> bool;
    is_email : string -> bool;
    contains_insensitive : string -> string -> bool;
    fdiv : Z -> Z -> Q }.

(* ================================================================== *)
(** ** Requests and responses *)

Record Request : Type :=
  { authorization : option string;     (* req.headers['authorization'] *)
    params_id : string;                (* req.params.id *)
    query : list (string * qval);      (* req.query *)
    body : jval }.                     (* req.body *)

(** [req.query.k] as a JavaScript value. *)
Definition query_property (req : Request) (k : string) : option jval :=
  option_map jval_of_qval (property (query req) k).

(** A review of an item's detail: its author and its comments, each with
    its author. *)
Record ReviewDetail : Type :=
  { detail_review : Review.t;
    detail_user : option UserRef;
    detail_comments : list (Comment.t * option UserRef) }.

(** An item of the list: the row and the computed [averageRating]. *)
Record ItemSummary : Type :=
  { summary_item : Item.t; summary_averageRating : option Q }.

Inductive Body : Type :=
| Error (error : string)
| Errors (errors : list ZodIssue)
| Message (message : string)
| Token (token : string)
| Registered (id : Z) (username email : string) (createdAt : Z)
| ReviewBody (review : Review.t) (user : option UserRef)
| CommentBody (comment : Comment.t) (user : option UserRef)
| ItemsPage (page limit : Z) (items : list ItemSummary)
| ItemBody (item : Item.t) (reviews : list ReviewDetail) (averageRating : option Q)
| CommentsPage (page limit : Z) (comments : list (Comment.t * option UserRef)).

Record Response : Type := { status : Z; body_of : Body }.

(** [res.status(s).json(b)] and [res.json(b)] *)
Definition status_json (s : Z) (b : Body) : Response := {| status := s; body_of := b |}.
Definition json (b : Body) : Response := status_json 200 b.

(** What the gate hands on: a response of its own, or the user for [next()]. *)
Inductive Gate : Type :=
| Rejected (res : Response)
| Next (user : User.t).

(** The object a schema is applied to. *)
Definition object_of (v : jval) : parsed (list (string * jval)) :=
  match v with
  | JObj fields => inr fields
  | _ => inl [invalid_type ""]
  end.

(** The [catch] block shared by the routes that validate with zod. *)
Definition catch_zod (error : Exn) : Task Response :=
  match error with
  | ZodError errors => ret (status_json 400 (Errors errors))
  | _ => ret (status_json 500 (Error "Internal server error"))
  end.

(** The [catch] block of the routes that do not. *)
Definition catch_any (error : Exn) : Task Response :=
  ret (status_json 500 (Error "Internal server error")).

(** Names bound in every CommonJS module of Node. *)
Definition node_bindings : list string :=
  ["exports"; "require"; "module"; "__filename"; "__dirname";
   "globalThis"; "global"; "console"; "process"; "Buffer"; "undefined";
   "NaN"; "Infinity"; "parseInt"; "parseFloat"; "isNaN"; "isFinite";
   "Object"; "Array"; "String"; "Number"; "Boolean"; "Symbol"; "Math";
   "JSON"; "Date"; "Promise"; "Error"; "Map"; "Set"; "RegExp";
   "setTimeout"; "setInterval"; "setImmediate"; "clearTimeout";
   "clearInterval"; "clearImmediate"; "queueMicrotask"; "URL";
   "URLSearchParams"; "TextEncoder"; "TextDecoder"].

(** The bindings in scope where the handler of [GET /api/items/:id]
    builds its query (src/api/items/routes.js): the constants of its
    [try] block, its parameters, the constants of the module, and Node's. *)
Definition items_detail_scope : list string :=
  (["itemId"; "item"; "averageRating"]
   ++ ["req"; "res"]
   ++ ["express"; "prisma"; "z"; "router"; "querySchema"]
   ++ node_bindings)%list.

(* ================================================================== *)
(** ** The service *)

Section Service.

Context {ext : Externals}.

(** *** middleware/auth.js *)

(** [authHeader && authHeader.split(' ')[1]] *)
Definition bearer_token (authHeader : option string) : option string :=
  if Js.truthy authHeader then
    match authHeader with
    | Some h => nth_error (Js.split " " h) 1
    | None => None
    end
  else authHeader.

(** [jwt.verify(token, process.env.JWT_SECRET)], then [decoded.id] *)
Definition jwt_verify_id (now : Z) (token : string) : Task Z :=
  match jwt_verify now token with
  | Some id => ret id
  | None => throw JsonWebTokenError
  end.

Definition authenticateToken (now : Z) (req : Request) : Task Gate :=
  let authHeader := authorization req in
  let token := bearer_token authHeader in
  if negb (Js.truthy token) then
    ret (Rejected (status_json 401 (Error "Access token missing")))
  else
    try_catch
      (decoded_id <- jwt_verify_id now (match token with Some t => t | None => "" end) ;;
       user <- Prisma.user.findUnique_id decoded_id ;;
       match user with
       | None => ret (Rejected (status_json 401 (Error "User not found")))
       | Some user => ret (Next user)
       end)
      (fun error =>
         ret (Rejected (status_json 403 (Error "Invalid or expired token")))).

(** [router.verb(path, authenticateToken, handler)] *)
Definition authenticated (now : Z) (req : Request)
    (handler : User.t -> Task Response) : Task Response :=
  gate <- authenticateToken now req ;;
  match gate with
  | Rejected res => ret res
  | Next user => handler user
  end.

(** *** api/users/routes.js *)

(** [z.string().email()] *)
Definition zod_email (p : string) (v : option jval) : parsed string :=
  match Zod.string_ p v with
  | inl e => inl e
  | inr s => if is_email s then inr s else inl [invalid_string p]
  end.

Definition registerSchema (v : jval) : parsed (string * string * string) :=
  match object_of v with
  | inl e => inl e
  | inr o =>
      let username := Zod.string_min 3 "username" (property o "username") in
      let email := zod_email "email" (property o "email") in
      let password := Zod.string_min 6 "password" (property o "password") in
      match username, email, password with
      | inr u, inr e, inr p => inr (u, e, p)
      | _, _, _ => inl (issues_of username ++ issues_of email ++ issues_of password)%list
      end
  end.

Definition register (salt : string) (now : Z) (req : Request) : Task Response :=
  try_catch
    ('(username, email, password) <- parse (registerSchema (body req)) ;;
     existingUser <- Prisma.user.findUnique_email email ;;
     match existingUser with
     | Some _ => ret (status_json 400 (Error "Email already in use"))
     | None =>
         let hashedPassword := bcrypt_hash salt password in
         user <- Prisma.user.create username email hashedPassword now ;;
         ret (status_json 201
                (Registered (User.id user) (User.username user)
                   (User.email user) (User.createdAt user)))
     end)
    catch_zod.

Definition loginSchema (v : jval) : parsed (string * string) :=
  match object_of v with
  | inl e => inl e
  | inr o =>
      let email := zod_email "email" (property o "email") in
      let password := Zod.string_min 6 "password" (property o "password") in
      match email, password with
      | inr e, inr p => inr (e, p)
      | _, _ => inl (issues_of email ++ issues_of password)%list
      end
  end.

Definition login (now : Z) (req : Request) : Task Response :=
  try_catch
    ('(email, password) <- parse (loginSchema (body req)) ;;
     user <- Prisma.user.findUnique_email email ;;
     match user with
     | None => ret (status_json 400 (Error "Invalid credentials"))
     | Some user =>
         let validPassword := bcrypt_compare password (User.password user) in
         if negb validPassword then
           ret (status_json 400 (Error "Invalid credentials"))
         else
           let token := jwt_sign now (User.id user) in
           ret (json (Token token))
     end)
    catch_zod.

(** *** api/reviews/routes.js *)

Definition createReviewSchema (v : jval) : parsed (Q * Q * string) :=
  match object_of v with
  | inl e => inl e
  | inr o =>
      let itemId := Zod.number "itemId" (property o "itemId") in
      let rating := Zod.number_min_max 1 5 "rating" (property o "rating") in
      let content := Zod.string_min 1 "content" (property o "content") in
      match itemId, rating, content with
      | inr i, inr r, inr c => inr (i, r, c)
      | _, _, _ => inl (issues_of itemId ++ issues_of rating ++ issues_of content)%list
      end
  end.

Definition updateReviewSchema (v : jval) : parsed (option Q * option string) :=
  match object_of v with
  | inl e => inl e
  | inr o =>
      let rating :=
        Zod.optional (Zod.number_min_max 1 5) "rating" (property o "rating") in
      let content :=
        Zod.optional (Zod.string_min 1) "content" (property o "content") in
      match rating, content with
      | inr r, inr c => inr (r, c)
      | _, _ => inl (issues_of rating ++ issues_of content)%list
      end
  end.

(** [POST /api/reviews] *)
Definition create_review (now : Z) (req : Request) (user : User.t) : Task Response :=
  try_catch
    ('(itemId, rating, content) <- parse (createReviewSchema (body req)) ;;
     let userId := User.id user in
     let itemId' := Prisma.int itemId in
     existingReview <- Prisma.review.findUnique_userId_itemId userId itemId' ;;
     match existingReview with
     | Some _ =>
         ret (status_json 400 (Error "You have already reviewed this item."))
     | None =>
         '(review, author) <- Prisma.review.create rating content userId itemId' now ;;
         ret (status_json 201 (ReviewBody review author))
     end)
    catch_zod.

(** [PUT /api/reviews/:id] *)
Definition update_review (now : Z) (req : Request) (user : User.t) : Task Response :=
  try_catch
    (let reviewId := Js.parseInt (params_id req) in
     match reviewId with
     | None => ret (status_json 400 (Error "Invalid review ID"))
     | Some reviewId =>
         '(rating, content) <- parse (updateReviewSchema (body req)) ;;
         let userId := User.id user in
         existingReview <- Prisma.review.findUnique_id reviewId ;;
         match existingReview with
         | None => ret (status_json 404 (Error "Review not found"))
         | Some existingReview =>
             if negb (Review.userId existingReview =? userId) then
               ret (status_json 403
                      (Error "You are not authorized to update this review."))
             else
               '(updatedReview, author) <-
                 Prisma.review.update reviewId
                   (match rating with
                    | Some rating => rating
                    | None => inject_Z (Review.rating existingReview)
                    end)
                   (match content with
                    | Some content => content
                    | None => Review.content existingReview
                    end)
                   now ;;
               ret (json (ReviewBody updatedReview author))
         end
     end)
    catch_zod.

(** [DELETE /api/reviews/:id] *)
Definition delete_review (req : Request) (user : User.t) : Task Response :=
  try_catch
    (let reviewId := Js.parseInt (params_id req) in
     match reviewId with
     | None => ret (status_json 400 (Error "Invalid review ID"))
     | Some reviewId =>
         let userId := User.id user in
         existingReview <- Prisma.review.findUnique_id reviewId ;;
         match existingReview with
         | None => ret (status_json 404 (Error "Review not found"))
         | Some existingReview =>
             if negb (Review.userId existingReview =? userId) then
               ret (status_json 403
                      (Error "You are not authorized to delete this review."))
             else
               _ <- Prisma.review.delete reviewId ;;
               ret (json (Message "Review deleted successfully."))
         end
     end)
    catch_any.

(** *** api/comments/routes.js *)

Definition updateCommentSchema (v : jval) : parsed string :=
  match object_of v with
  | inl e => inl e
  | inr o => Zod.string_min 1 "content" (property o "content")
  end.

(** [PUT /api/comments/:id] *)
Definition update_comment (now : Z) (req : Request) (user : User.t) : Task Response :=
  try_catch
    (let commentId := Js.parseInt (params_id req) in
     match commentId with
     | None => ret (status_json 400 (Error "Invalid comment ID."))
     | Some commentId =>
         content <- parse (updateCommentSchema (body req)) ;;
         let userId := User.id user in
         existingComment <- Prisma.comment.findUnique_id commentId ;;
         match existingComment with
         | None => ret (status_json 404 (Error "Comment not found."))
         | Some existingComment =>
             if negb (Comment.userId existingComment =? userId) then
               ret (status_json 403
                      (Error "You are not authorized to update this comment."))
             else
               '(updatedComment, author) <-
                 Prisma.comment.update commentId content now ;;
               ret (json (CommentBody updatedComment author))
         end
     end)
    catch_zod.

(** [DELETE /api/comments/:id] *)
Definition delete_comment (req : Request) (user : User.t) : Task Response :=
  try_catch
    (let commentId := Js.parseInt (params_id req) in
     match commentId with
     | None => ret (status_json 400 (Error "Invalid comment ID."))
     | Some commentId =>
         let userId := User.id user in
         existingComment <- Prisma.comment.findUnique_id commentId ;;
         match existingComment with
         | None => ret (status_json 404 (Error "Comment not found."))
         | Some existingComment =>
             if negb (Comment.userId existingComment =? userId) then
               ret (status_json 403
                      (Error "You are not authorized to delete this comment."))
             else
               _ <- Prisma.comment.delete commentId ;;
               ret (json (Message "Comment deleted successfully."))
         end
     end)
    catch_any.

Definition getCommentsSchema (req : Request) : parsed (string * Z * Z) :=
  let reviewId := Zod.digits "reviewId" (query_property req "reviewId") in
  let page :=
    Zod.default Zod.digits_number (JStr "1") "page" (query_property req "page") in
  let limit :=
    Zod.default Zod.digits_number (JStr "10") "limit" (query_property req "limit") in
  match reviewId, page, limit with
  | inr r, inr p, inr l => inr (r, p, l)
  | _, _, _ => inl (issues_of reviewId ++ issues_of page ++ issues_of limit)%list
  end.

(** [GET /api/comments] *)
Definition get_comments (req : Request) : Task Response :=
  try_catch
    ('(reviewId, page, limit) <- parse (getCommentsSchema req) ;;
     match Js.parseInt reviewId with
     | None => throw (PrismaClientError "validation")
     | Some parsedReviewId =>
         review <- Prisma.review.findUnique_id parsedReviewId ;;
         match review with
         | None => ret (status_json 404 (Error "Review not found."))
         | Some _ =>
             comments <-
               Prisma.comment.findMany_reviewId parsedReviewId
                 ((page - 1) * limit) limit ;;
             ret (json (CommentsPage page limit comments))
         end
     end)
    catch_zod.

(** *** api/items/routes.js *)

(** The [where] of the list: [OR] over name and description when
    [search] is given, equality when [category] is. *)
Definition item_matches (search category : option string) (i : Item.t) : bool :=
  (match search with
   | Some s =>
       contains_insensitive (Item.name i) s
       || match Item.description i with
          | Some d => contains_insensitive d s
          | None => false
          end
   | None => true
   end)
  && (match category with
      | Some c =>
          match Item.category i with
          | Some c' => String.eqb c' c
          | None => false
          end
      | None => true
      end).

Definition reviews_of (db : Db) (itemId : Z) : list Review.t :=
  filter (fun r => Review.itemId r =? itemId) (reviews db).

(** [prisma.item.findMany({ where, skip, take,
    include: { reviews: { select: { rating: true } } } })] *)
Definition item_findMany (search category : option string) (skip take : Z)
  : Task (list (Item.t * list Z)) :=
  fun db =>
    if skip <? 0 then (Throw (PrismaClientError "validation"), db)
    else
      (Return
         (map (fun i => (i, map Review.rating (reviews_of db (Item.id i))))
            (page_of skip take
               (filter (item_matches search category) (items db)))),
       db).

Definition review_detail (db : Db) (r : Review.t) : ReviewDetail :=
  {| detail_review := r;
     detail_user := user_ref db (Review.userId r);
     detail_comments :=
       map (fun c => (c, user_ref db (Comment.userId c)))
         (filter (fun c => Comment.reviewId c =? Review.id r) (comments db)) |}.

(** [prisma.item.findUnique({ where: { id }, include: { reviews: ... } })] *)
Definition item_findUnique (id : Z) : Task (option (Item.t * list ReviewDetail)) :=
  fun db =>
    Prisma.unique id
      (match find (fun i => Item.id i =? id) (items db) with
       | Some i => Some (i, map (review_detail db) (reviews_of db id))
       | None => None
       end)
      db.

(** The average of the ratings, as both routes compute it:
    [reviews.length > 0 ? reviews.reduce(...) / reviews.length : null],
    then [averageRating ? parseFloat(averageRating.toFixed(2)) : null].
    The sum of the integer ratings is exact; the quotient is [fdiv]. *)
Definition averageRating {A : Type} (rating : A -> Z) (reviews : list A) : option Q :=
  let averageRating :=
    if 0 <? Z.of_nat (List.length reviews) then
      Some (fdiv (fold_left (fun acc curr => acc + rating curr) reviews 0)
              (Z.of_nat (List.length reviews)))
    else None in
  match averageRating with
  | Some x =>
      if Qeq_bool x 0 then None
      else Some (Js.parseFloat2 (Js.toFixed2 x))
  | None => None
  end.

Definition querySchema (req : Request)
  : parsed (option string * option string * Z * Z) :=
  let search := Zod.optional Zod.string_ "search" (query_property req "search") in
  let category := Zod.optional Zod.string_ "category" (query_property req "category") in
  let page :=
    Zod.default (Zod.number_int 1 None) (JNum 1) "page" (query_property req "page") in
  let limit :=
    Zod.default (Zod.number_int 1 (Some 100)) (JNum 10) "limit"
      (query_property req "limit") in
  match search, category, page, limit with
  | inr s, inr c, inr p, inr l => inr (s, c, p, l)
  | _, _, _, _ =>
      inl (issues_of search ++ issues_of category
           ++ issues_of page ++ issues_of limit)%list
  end.

(** [if (search)], [if (category)]: an empty string is no filter. *)
Definition given (s : option string) : option string :=
  if Js.truthy s then s else None.

(** [GET /api/items] *)
Definition get_items (req : Request) : Task Response :=
  try_catch
    ('(search, category, page, limit) <- parse (querySchema req) ;;
     items <- item_findMany (given search) (given category)
                ((page - 1) * limit) limit ;;
     let itemsWithAvgRating :=
       map (fun item =>
              {| summary_item := fst item;
                 summary_averageRating := averageRating (fun r => r) (snd item) |})
         items in
     ret (json (ItemsPage page limit itemsWithAvgRating)))
    catch_zod.

(** [GET /api/items/:id]. The [select: { id, username }] of the query
    reads the identifiers [id] and [username]. *)
Definition get_item (req : Request) : Task Response :=
  try_catch
    (let itemId := Js.parseInt (params_id req) in
     match itemId with
     | None => ret (status_json 400 (Error "Invalid item ID"))
     | Some itemId =>
         _ <- identifier items_detail_scope "id" ;;
         _ <- identifier items_detail_scope "username" ;;
         _ <- identifier items_detail_scope "id" ;;
         _ <- identifier items_detail_scope "username" ;;
         item <- item_findUnique itemId ;;
         match item with
         | None => ret (status_json 404 (Error "Item not found"))
         | Some (item, reviews) =>
             ret (json (ItemBody item reviews
                          (averageRating
                             (fun d => Review.rating (detail_review d)) reviews)))
         end
     end)
    catch_any.

End Service.

(* ================================================================== *)
(** ** The routes with bodies of their own

    The remaining routes of api/comments/routes.js and
    api/reviews/routes.js. Their responses carry rows the bodies above
    have no place for. *)

(** What [select: { id: true, content: true }] keeps of a review, and
    [select: { id: true, name: true }] of an item. *)
Record ReviewRef : Type := { review_ref_id : Z; review_ref_content : string }.

Record ItemRef : Type := { item_ref_id : Z; item_ref_name : string }.

Definition review_ref (db : Db) (reviewId : Z) : option ReviewRef :=
  match find (fun r => Review.id r =? reviewId) (reviews db) with
  | Some r => Some {| review_ref_id := Review.id r;
                      review_ref_content := Review.content r |}
  | None => None
  end.

Definition item_ref (db : Db) (itemId : Z) : option ItemRef :=
  match find (fun i => Item.id i =? itemId) (items db) with
  | Some i => Some {| item_ref_id := Item.id i; item_ref_name := Item.name i |}
  | None => None
  end.

(** A review of GET /reviews, of GET /reviews/user/me, of GET /reviews/:id. *)
Record ListedReview : Type :=
  { listed_review : Review.t;
    listed_user : option UserRef;
    listed_item : option ItemRef }.

Record OwnReview : Type :=
  { own_review : Review.t;
    own_item : option ItemRef;
    own_comments : list (Comment.t * option UserRef) }.

(** What [select: { id, name, description, category }] keeps of an item. *)
Record ItemCard : Type :=
  { card_id : Z; card_name : string; card_description : option string;
    card_category : option string }.

Record FullReview : Type :=
  { full_review : Review.t;
    full_user : option UserRef;
    full_item : option ItemCard;
    full_comments : list (Comment.t * option UserRef) }.

Definition item_card (db : Db) (itemId : Z) : option ItemCard :=
  match find (fun i => Item.id i =? itemId) (items db) with
  | Some i => Some {| card_id := Item.id i; card_name := Item.name i;
                      card_description := Item.description i;
                      card_category := Item.category i |}
  | None => None
  end.

Inductive Payload : Type :=
| Plain (b : Body)
| CommentCreated (comment : Comment.t) (user : option UserRef) (review : option ReviewRef)
| ReviewsPage (page limit : Z) (reviews : list ListedReview)
| ReviewFound (review : FullReview)
| OwnReviews (reviews : list OwnReview)
| OwnComments (comments : list (Comment.t * option ReviewRef)).

Record Reply : Type := { reply_status : Z; payload : Payload }.

Definition reply (s : Z) (p : Payload) : Reply := {| reply_status := s; payload := p |}.

(** A response of the routes above, as a reply. *)
Definition plain (res : Response) : Reply := reply (status res) (Plain (body_of res)).

Definition catch_zod_reply (error : Exn) : Task Reply :=
  res <- catch_zod error ;; ret (plain res).

Definition catch_any_reply (error : Exn) : Task Reply :=
  res <- catch_any error ;; ret (plain res).

(** Rows in descending order of a key; rows with equal keys come in
    storage order, as in [sort_by]. *)
Definition sort_by_desc {A : Type} (key : A -> Z) (l : list A) : list A :=
  sort_by (fun x => - key x) l.

(** [prisma.comment.create] with both [connect]s and both [include]s.
    [id] is the value the sequence behind [Comment.id] hands out; the
    primary key refuses an id that is taken. *)
Definition prisma_comment_create (id : Z) (content : string) (userId reviewId now : Z)
  : Task (Comment.t * option UserRef * option ReviewRef) :=
  fun db =>
    if negb (existsb (fun u => User.id u =? userId) (users db))
       || negb (existsb (fun r => Review.id r =? reviewId) (reviews db))
    then (Throw (PrismaClientError "P2025"), db)
    else if existsb (fun c => Comment.id c =? id) (comments db)
    then (Throw (PrismaClientError "P2002"), db)
    else
      let c := {| Comment.id := id; Comment.content := content;
                  Comment.userId := userId; Comment.reviewId := reviewId;
                  Comment.createdAt := now; Comment.updatedAt := now |} in
      (Return (c, user_ref db userId, review_ref db reviewId),
       with_comments db (comments db ++ [c])).

(** A condition of a [where]: absent, [NaN], or a number. *)
Inductive Filter : Type :=
| Any
| NotANumber
| Equals (n : Z).

Definition filter_admits (f : Filter) (n : Z) : bool :=
  match f with
  | Equals m => n =? m
  | _ => true
  end.

(** [NaN], and a number outside the range of the column. *)
Definition filter_refused (f : Filter) : bool :=
  match f with
  | NotANumber => true
  | Equals n => negb (Prisma.int32 n)
  | Any => false
  end.

(** [prisma.review.findMany({ where, skip, take, include: { user, item },
    orderBy: { createdAt: 'desc' } })]; a [where] that is refused and a
    negative [skip] throw. *)
Definition prisma_review_findMany (itemId userId : Filter) (skip take : Z)
  : Task (list ListedReview) :=
  fun db =>
    if filter_refused itemId || filter_refused userId || (skip <? 0)
    then (Throw (PrismaClientError "validation"), db)
    else
      (Return
         (map (fun r => {| listed_review := r;
                           listed_user := user_ref db (Review.userId r);
                           listed_item := item_ref db (Review.itemId r) |})
            (page_of skip take
               (sort_by_desc Review.createdAt
                  (filter (fun r => filter_admits itemId (Review.itemId r)
                                    && filter_admits userId (Review.userId r))
                     (reviews db))))),
       db).

Definition comments_with_users (db : Db) (reviewId : Z) : list (Comment.t * option UserRef) :=
  map (fun c => (c, user_ref db (Comment.userId c)))
    (filter (fun c => Comment.reviewId c =? reviewId) (comments db)).

(** [prisma.review.findUnique] with the includes of GET /reviews/:id. *)
Definition prisma_review_findUnique_full (id : Z) : Task (option FullReview) :=
  fun db =>
    Prisma.unique id
      (match find (fun r => Review.id r =? id) (reviews db) with
       | Some r =>
           Some {| full_review := r;
                   full_user := user_ref db (Review.userId r);
                   full_item := item_card db (Review.itemId r);
                   full_comments := comments_with_users db (Review.id r) |}
       | None => None
       end)
      db.

(** [prisma.review.findMany({ where: { userId }, include: { item, comments },
    orderBy: { createdAt: 'desc' } })] *)
Definition prisma_review_findMany_userId (userId : Z) : Task (list OwnReview) :=
  fun db =>
    (Return
       (map (fun r => {| own_review := r;
                         own_item := item_ref db (Review.itemId r);
                         own_comments := comments_with_users db (Review.id r) |})
          (sort_by_desc Review.createdAt
             (filter (fun r => Review.userId r =? userId) (reviews db)))),
     db).

(** [prisma.comment.findMany({ where: { userId }, include: { review },
    orderBy: { createdAt: 'desc' } })] *)
Definition prisma_comment_findMany_userId (userId : Z)
  : Task (list (Comment.t * option ReviewRef)) :=
  fun db =>
    (Return
       (map (fun c => (c, review_ref db (Comment.reviewId c)))
          (sort_by_desc Comment.createdAt
             (filter (fun c => Comment.userId c =? userId) (comments db)))),
     db).

(** The constants of api/reviews/routes.js. *)
Definition reviews_module_bindings : list string :=
  ["express"; "prisma"; "authenticateToken"; "z"; "router";
   "createReviewSchema"; "updateReviewSchema"; "getAllReviewsSchema"].

(** The bindings in scope where GET /reviews/:id and GET
    /reviews/user/me build their queries. *)
Definition review_detail_scope : list string :=
  (["reviewId"; "review"] ++ ["req"; "res"]
   ++ reviews_module_bindings ++ node_bindings)%list.

Definition own_reviews_scope : list string :=
  (["userId"; "reviews"] ++ ["req"; "res"]
   ++ reviews_module_bindings ++ node_bindings)%list.

Section OtherRoutes.

Context {ext : Externals}.

(** [router.verb(path, authenticateToken, handler)] for these routes. *)
Definition behind_gate (now : Z) (req : Request)
    (handler : User.t -> Task Reply) : Task Reply :=
  gate <- authenticateToken now req ;;
  match gate with
  | Rejected res => ret (plain res)
  | Next user => handler user
  end.

(** *** api/comments/routes.js *)

Definition createCommentSchema (v : jval) : parsed (Q * string) :=
  match object_of v with
  | inl e => inl e
  | inr o =>
      let reviewId := Zod.number "reviewId" (property o "reviewId") in
      let content := Zod.string_min 1 "content" (property o "content") in
      match reviewId, content with
      | inr r, inr c => inr (r, c)
      | _, _ => inl (issues_of reviewId ++ issues_of content)%list
      end
  end.

(** [POST /api/comments]; [commentId] is the next value of the sequence
    behind [Comment.id]. *)
Definition create_comment (commentId now : Z) (req : Request) (user : User.t)
  : Task Reply :=
  try_catch
    ('(reviewId, content) <- parse (createCommentSchema (body req)) ;;
     let userId := User.id user in
     let reviewId' := Prisma.int reviewId in
     review <- Prisma.review.findUnique_id reviewId' ;;
     match review with
     | None => ret (reply 404 (Plain (Error "Review not found.")))
     | Some _ =>
         '(comment, author, about) <-
           prisma_comment_create commentId content userId reviewId' now ;;
         ret (reply 201 (CommentCreated comment author about))
     end)
    catch_zod_reply.

(** [GET /api/comments/user/me] *)
Definition get_own_comments (user : User.t) : Task Reply :=
  try_catch
    (let userId := User.id user in
     comments <- prisma_comment_findMany_userId userId ;;
     ret (reply 200 (OwnComments comments)))
    catch_any_reply.

(** *** api/reviews/routes.js *)

Definition getAllReviewsSchema (req : Request)
  : parsed (option string * option string * Z * Z) :=
  let itemId := Zod.optional Zod.string_ "itemId" (query_property req "itemId") in
  let userId := Zod.optional Zod.string_ "userId" (query_property req "userId") in
  let page :=
    Zod.default Zod.digits_number (JStr "1") "page" (query_property req "page") in
  let limit :=
    Zod.default Zod.digits_number (JStr "10") "limit" (query_property req "limit") in
  match itemId, userId, page, limit with
  | inr i, inr u, inr p, inr l => inr (i, u, p, l)
  | _, _, _, _ =>
      inl (issues_of itemId ++ issues_of userId
           ++ issues_of page ++ issues_of limit)%list
  end.

(** [if (itemId) { where.itemId = parseInt(itemId, 10); }] *)
Definition where_number (s : option string) : Filter :=
  match given s with
  | None => Any
  | Some s =>
      match Js.parseInt s with
      | Some n => Equals n
      | None => NotANumber
      end
  end.

(** [GET /api/reviews] *)
Definition get_reviews (req : Request) : Task Reply :=
  try_catch
    ('(itemId, userId, page, limit) <- parse (getAllReviewsSchema req) ;;
     reviews <- prisma_review_findMany (where_number itemId) (where_number userId)
                  ((page - 1) * limit) limit ;;
     ret (reply 200 (ReviewsPage page limit reviews)))
    catch_zod_reply.

(** [GET /api/reviews/:id]. The query reads [id] and [username] for the
    author, [id], [name], [description] and [category] for the item,
    and [id] and [username] for the authors of the comments. *)
Definition get_review (req : Request) : Task Reply :=
  try_catch
    (let reviewId := Js.parseInt (params_id req) in
     match reviewId with
     | None => ret (reply 400 (Plain (Error "Invalid review ID")))
     | Some reviewId =>
         _ <- identifier review_detail_scope "id" ;;
         _ <- identifier review_detail_scope "username" ;;
         _ <- identifier review_detail_scope "id" ;;
         _ <- identifier review_detail_scope "name" ;;
         _ <- identifier review_detail_scope "description" ;;
         _ <- identifier review_detail_scope "category" ;;
         _ <- identifier review_detail_scope "id" ;;
         _ <- identifier review_detail_scope "username" ;;
         review <- prisma_review_findUnique_full reviewId ;;
         match review with
         | None => ret (reply 404 (Plain (Error "Review not found")))
         | Some review => ret (reply 200 (ReviewFound review))
         end
     end)
    catch_any_reply.

(** [GET /api/reviews/user/me]. The query reads [id] and [username] for
    the authors of the comments. *)
Definition get_own_reviews (user : User.t) : Task Reply :=
  try_catch
    (let userId := User.id user in
     _ <- identifier own_reviews_scope "id" ;;
     _ <- identifier own_reviews_scope "username" ;;
     reviews <- prisma_review_findMany_userId userId ;;
     ret (reply 200 (OwnReviews reviews)))
    catch_any_reply.

(** *** server.js: the routes that write *)

Inductive Write : Type :=
| PostRegister (salt : string)
| PostReview
| PutReview
| DeleteReview
| PostComment (commentId : Z)
| PutComment
| DeleteComment.

(** The store a writing route leaves. *)
Definition write (w : Write) (now : Z) (req : Request) (db : Db) : Db :=
  match w with
  | PostRegister salt => snd (register salt now req db)
  | PostReview => snd (authenticated now req (create_review now req) db)
  | PutReview => snd (authenticated now req (update_review now req) db)
  | DeleteReview => snd (authenticated now req (delete_review req) db)
  | PostComment commentId =>
      snd (behind_gate now req (create_comment commentId now req) db)
  | PutComment => snd (authenticated now req (update_comment now req) db)
  | DeleteComment => snd (authenticated now req (delete_comment req) db)
  end.

(** The store after a sequence of requests, each with its time. *)
Fixpoint replay (calls : list (Write * Z * Request)) (db : Db) : Db :=
  match calls with
  | [] => db
  | (w, now, req) :: rest => replay rest (write w now req db)
  end.

End OtherRoutes.


(* ================================================================== *)
(** ** Binary64 division, and a concrete world to run the service in *)

Module Binary64.

Definition of_Z (z : Z) : float :=
  if z <? 0 then PrimFloat.opp (PrimFloat.of_uint63 (Uint63.of_Z (- z)))
  else PrimFloat.of_uint63 (Uint63.of_Z z).

(** The exact value of a finite float; zero stands for the others. *)
Definition to_Q (f : float) : Q :=
  match Prim2SF f with
  | S754_finite s m e =>
      let v := if 0 <=? e then inject_Z (Z.pos m * 2 ^ e)
               else Z.pos m # Pos.pow 2 (Z.to_pos (- e)) in
      Qred (if s then Qopp v else v)
  | _ => 0%Q
  end.

(** [a / b] as JavaScript computes it on two integers below 2^53. *)
Definition div (a b : Z) : Q := to_Q (PrimFloat.div (of_Z a) (of_Z b)).

End Binary64.

Module Fixture.

Fixpoint includes (text search : string) : bool :=
  String.prefix search text
  || match text with
     | String _ rest => includes rest search
     | EmptyString => false
     end.

Definition between (lo hi : nat) (c : ascii) : bool :=
  ((lo <=? nat_of_ascii c) && (nat_of_ascii c <=? hi))%nat.

Definition isLetter (c : ascii) : bool := between 65 90 c || between 97 122 c.

Definition isAlnum (c : ascii) : bool := between 48 57 c || isLetter c.

Definition toLowerCase (c : ascii) : ascii :=
  if between 65 90 c then ascii_of_nat (nat_of_ascii c + 32) else c.

Fixpoint lower (s : string) : string :=
  match s with
  | String c s' => String (toLowerCase c) (lower s')
  | EmptyString => EmptyString
  end.

(** [ILIKE '%search%'] on the letters of ASCII. *)
Definition ilike (text search : string) : bool := includes (lower text) (lower search).

Fixpoint every (p : ascii -> bool) (s : string) : bool :=
  match s with
  | String c s' => p c && every p s'
  | EmptyString => true
  end.

Fixpoint last (s : string) : option ascii :=
  match s with
  | String c EmptyString => Some c
  | String _ s' => last s'
  | EmptyString => None
  end.

(** A label of a domain (a letter or a digit, then letters, digits and
    hyphens) and a top-level domain (two letters or more). *)
Definition label (s : string) : bool :=
  match s with
  | String c rest => isAlnum c && every (fun c => isAlnum c || Ascii.eqb c "-") rest
  | EmptyString => false
  end.

Definition topLevel (s : string) : bool :=
  (2 <=? String.length s)%nat && every isLetter s.

Fixpoint labels (pieces : list string) : bool :=
  match pieces with
  | [] => false
  | [last] => topLevel last
  | piece :: rest => label piece && labels rest
  end.

(** The pattern of [z.string().email()] in zod 3.22, matched without
    regard to case: no dot at the start and no two dots in a row; a
    local part of letters, digits and [_ ' + - .] that ends in a letter,
    a digit or one of [_ + -]; one [@]; one or more labels, each
    followed by a dot; a top-level domain. *)
Definition emailRegex (s : string) : bool :=
  match Js.split "@" s with
  | [local; domain] =>
      negb (String.prefix "." s)
      && negb (includes s "..")
      && every (fun c => isAlnum c || existsb (Ascii.eqb c) ["_"; "'"; "+"; "-"; "."]%char)
           local
      && match last local with
         | Some c => isAlnum c || existsb (Ascii.eqb c) ["_"; "+"; "-"]%char
         | None => false
         end
      && match Js.split "." domain with
         | (_ :: _ :: _) as pieces => labels pieces
         | _ => false
         end
  | _ => false
  end.

(** Tokens of two users, valid at every time; any other string is
    refused. A hash that keeps the password readable, the e-mail
    pattern of zod, the search without regard to case, binary64
    division. *)
#[export] Instance node : Externals :=
  {| jwt_sign := fun _ id => if id =? 1 then "tokenA" else if id =? 2 then "tokenB" else "tokenX";
     jwt_verify := fun _ t =>
       if String.eqb t "tokenA" then Some 1
       else if String.eqb t "tokenB" then Some 2 else None;
     bcrypt_hash := fun _ p => String.append "$2b$10$" p;
     bcrypt_compare := fun p h => String.eqb h (String.append "$2b$10$" p);
     is_email := emailRegex;
     contains_insensitive := ilike;
     fdiv := Binary64.div |}.

(** The same world with the quotient computed exactly. *)
Definition ideal : Externals :=
  {| jwt_sign := @jwt_sign node; jwt_verify := @jwt_verify node;
     bcrypt_hash := @bcrypt_hash node; bcrypt_compare := @bcrypt_compare node;
     is_email := @is_email node; contains_insensitive := ilike;
     fdiv := fun a b => Qred (a # Z.to_pos b) |}.

Definition alice : User.t :=
  {| User.id := 1; User.username := "alice"; User.email := "alice@example.com";
     User.password := "$2b$10$password123"; User.createdAt := 10 |}.

Definition bob : User.t :=
  {| User.id := 2; User.username := "bob"; User.email := "bob@example.com";
     User.password := "$2b$10$password456"; User.createdAt := 20 |}.

Definition item1 : Item.t :=
  {| Item.id := 1; Item.name := "Test Item 1";
     Item.description := Some "Description for Test Item 1";
     Item.category := Some "Category A"; Item.createdAt := 30 |}.

Definition item2 : Item.t :=
  {| Item.id := 2; Item.name := "Test Item 2";
     Item.description := None;
     Item.category := Some "Category B"; Item.createdAt := 40 |}.

Definition review1 : Review.t :=
  {| Review.id := 1; Review.rating := 5; Review.content := "Excellent product!";
     Review.userId := 1; Review.itemId := 1;
     Review.createdAt := 100; Review.updatedAt := 100 |}.

Definition review2 : Review.t :=
  {| Review.id := 2; Review.rating := 4;
     Review.content := "Very good, but could be improved.";
     Review.userId := 2; Review.itemId := 1;
     Review.createdAt := 110; Review.updatedAt := 110 |}.

Definition comment1 : Comment.t :=
  {| Comment.id := 1; Comment.content := "I agree with this review.";
     Comment.userId := 2; Comment.reviewId := 1;
     Comment.createdAt := 120; Comment.updatedAt := 120 |}.

(** The seeded store of the tests: two users, two items, the reviews
    rated 5 and 4 of the first item, one comment. *)
Definition db : Db :=
  {| users := [alice; bob]; items := [item1; item2];
     reviews := [review1; review2]; comments := [comment1];
     nextUserId := 3; nextReviewId := 3 |}.

Definition request (auth : option string) (id : string)
    (q : list (string * qval)) (b : jval) : Request :=
  {| authorization := auth; params_id := id; query := q; body := b |}.

(** Requests to run against the seeded store. *)
Definition put_review_abc : Request :=
  request (Some "Bearer tokenA") "abc" [] (JObj [("content", JStr "new")]).

Definition put_review_999_rating_9 : Request :=
  request (Some "Bearer tokenA") "999" [] (JObj [("rating", JNum 9)]).

Definition put_review_1_by_bob : Request :=
  request (Some "Bearer tokenB") "1" [] (JObj [("rating", JNum 3)]).

Definition put_review_1_content : Request :=
  request (Some "Bearer tokenA") "1" [] (JObj [("content", JStr "new")]).

Definition post_review_item_1 : Request :=
  request (Some "Bearer tokenA") ""
    [] (JObj [("itemId", JNum 1); ("rating", JNum 3); ("content", JStr "again")]).

Definition post_login_alice : Request :=
  request None ""
    [] (JObj [("email", JStr "alice@example.com"); ("password", JStr "password123")]).

Definition post_register_alice_again : Request :=
  request None ""
    [] (JObj [("username", JStr "alice"); ("email", JStr "carol@example.com");
              ("password", JStr "secret1")]).

Definition get_items_page_2 : Request :=
  request None "" [("page", QStr "2"); ("limit", QStr "10")] (JObj []).

Definition get_item_1 : Request := request None "1" [] (JObj []).

Definition get_item_999999 : Request := request None "999999" [] (JObj []).

End Fixture.

(** Further requests to run against the seeded store. *)
Module Requests.

Import Fixture.

Definition delete_review_1 : Request :=
  request (Some "Bearer tokenA") "1" [] (JObj []).

Definition delete_comment_1 : Request :=
  request (Some "Bearer tokenB") "1" [] (JObj []).

Definition put_comment_1 : Request :=
  request (Some "Bearer tokenB") "1" [] (JObj [("content", JStr "edited")]).

Definition post_review_item_2 : Request :=
  request (Some "Bearer tokenA") ""
    [] (JObj [("itemId", JNum 2); ("rating", JNum 4); ("content", JStr "fine")]).

Definition post_review_item_2_half : Request :=
  request (Some "Bearer tokenA") ""
    [] (JObj [("itemId", JNum 2); ("rating", JNum 4.5); ("content", JStr "fine")]).

Definition post_comment_review_2 : Request :=
  request (Some "Bearer tokenA") ""
    [] (JObj [("reviewId", JNum 2); ("content", JStr "Thanks for the feedback!")]).

Definition post_comment_review_2_half : Request :=
  request (Some "Bearer tokenA") ""
    [] (JObj [("reviewId", JNum 2.5); ("content", JStr "Thanks for the feedback!")]).

Definition put_review_1_half : Request :=
  request (Some "Bearer tokenA") "1" [] (JObj [("rating", JNum 4.5)]).

Definition put_review_999 : Request :=
  request (Some "Bearer tokenA") "999" [] (JObj [("rating", JNum 3)]).

Definition put_review_2147483648 : Request :=
  request (Some "Bearer tokenA") "2147483648" [] (JObj [("rating", JNum 3)]).

Definition post_register_carol : Request :=
  request None ""
    [] (JObj [("username", JStr "carol"); ("email", JStr "carol@example.com");
              ("password", JStr "secret1")]).

Definition get_comments_review_1 : Request :=
  request None "" [("reviewId", QStr "1")] (JObj []).

Definition get_comments_review_1_page_2 : Request :=
  request None ""
    [("reviewId", QStr "1"); ("page", QStr "2"); ("limit", QStr "2")] (JObj []).


Definition no_header : Request := request None "1" [] (JObj []).

Definition basic_tokenA : Request := request (Some "Basic tokenA") "" [] (JObj []).

Definition bearer_tokenA : Request := request (Some "Bearer tokenA") "" [] (JObj []).

(** A day of requests: a review rated 4.5, a comment on review 2.5, a
    registration under a username that is taken, an edit of a comment,
    a rating of 4.5 put on a review, that review deleted, a
    registration. *)
Definition day : list (Write * Z * Request) :=
  [ (PostReview, 200, post_review_item_2_half);
    (PostComment 2, 210, post_comment_review_2_half);
    (PostRegister "salt", 215, post_register_alice_again);
    (PutComment, 220, put_comment_1);
    (PutReview, 225, put_review_1_half);
    (DeleteReview, 230, delete_review_1);
    (PostRegister "salt", 240, post_register_carol) ].

(** A busier store: a third user, a third review of the first item, and
    five comments on the first review, stored in another order than
    they were written. *)
Definition carol : User.t :=
  {| User.id := 3; User.username := "carol"; User.email := "carol@example.com";
     User.password := "$2b$10$secret1"; User.createdAt := 25 |}.

Definition review3 : Review.t :=
  {| Review.id := 3; Review.rating := 4; Review.content := "Does the job.";
     Review.userId := 3; Review.itemId := 1;
     Review.createdAt := 115; Review.updatedAt := 115 |}.

Definition remark (id userId reviewId at_ : Z) : Comment.t :=
  {| Comment.id := id; Comment.content := "Noted."; Comment.userId := userId;
     Comment.reviewId := reviewId; Comment.createdAt := at_;
     Comment.updatedAt := at_ |}.

Definition busy : Db :=
  {| users := [alice; bob; carol]; items := [item1; item2];
     reviews := [review1; review2; review3];
     comments := [comment1; remark 2 1 1 150; remark 3 3 1 130; remark 4 1 2 160;
                  remark 5 2 1 140; remark 6 3 1 125];
     nextUserId := 4; nextReviewId := 4 |}.

End Requests.


(* ================================================================== *)
(** ** Invariants of the store, and sentences of the specification *)

(** [@@unique([userId, itemId])]: no two reviews of one user for one item. *)
Definition one_review_per_pair (rs : list Review.t) : Prop :=
  NoDup (map (fun r => (Review.userId r, Review.itemId r)) rs).

(** The range [z.number().min(1).max(5)] admits, on the stored ratings. *)
Definition ratings_in_range (rs : list Review.t) : Prop :=
  Forall (fun r => 1 <= Review.rating r <= 5) rs.

(** The status of the response a route produced. *)
Definition status_of (o : outcome Response * Db) : option Z :=
  match fst o with
  | Return res => Some (status res)
  | Throw _ => None
  end.

(** "Updating a Review as a non-existent-resource id always yields 404",
    read for every request of an authenticated caller. *)
Definition update_of_missing_review_always_404 {ext : Externals} : Prop :=
  forall (now : Z) (req : Request) (db : Db) (user : User.t),
    authenticateToken now req db = (Return (Next user), db) ->
    (forall r, In r (reviews db) ->
               Js.parseInt (params_id req) <> Some (Review.id r)) ->
    status_of (authenticated now req (update_review now req) db) = Some 404.

(** The review an update leaves in the store: the row [old] with the
    fields the body gave, stamped [stamp]. *)
Definition updated_review (old : Review.t) (rating : option Q) (content : option string)
    (stamp : Z) : Review.t :=
  {| Review.id := Review.id old;
     Review.rating := match rating with
                      | Some q => Qfloor q
                      | None => Review.rating old
                      end;
     Review.content := match content with
                       | Some c => c
                       | None => Review.content old
                       end;
     Review.userId := Review.userId old;
     Review.itemId := Review.itemId old;
     Review.createdAt := Review.createdAt old;
     Review.updatedAt := stamp |}.

(** "Fields of the review other than those supplied are unchanged by
    the operation", read for every field of the row. *)
Definition update_leaves_other_fields {ext : Externals} : Prop :=
  forall (now : Z) (req : Request) (db : Db) (user : User.t) (id : Z)
         (rating : option Q) (content : option string) (old : Review.t),
    authenticateToken now req db = (Return (Next user), db) ->
    Js.parseInt (params_id req) = Some id ->
    updateReviewSchema (body req) = inr (rating, content) ->
    find (fun r => Review.id r =? id) (reviews db) = Some old ->
    Review.userId old = User.id user ->
    find (fun r => Review.id r =? id)
      (reviews (snd (authenticated now req (update_review now req) db)))
    = Some (updated_review old rating content (Review.updatedAt old)).

(** The accuracy of binary64 division on integers below 2^53: the
    quotient is the exact one up to one part in 2^53. *)
Definition fdiv_accurate {ext : Externals} : Prop :=
  forall a b : Z, 0 <= a < 2 ^ 53 -> 0 < b < 2 ^ 53 ->
    (Qabs (fdiv a b - (a # Z.to_pos b)) <= (a # Z.to_pos b) * (1 # 2 ^ 53))%Q.

(** The sum [reduce((acc, curr) => acc + curr.rating, 0)] of the ratings. *)
Definition sum_ratings {A : Type} (rating : A -> Z) (reviews : list A) : Z :=
  fold_left (fun acc curr => acc + rating curr) reviews 0.

(** The primary key of the reviews and its sequence: no id twice, every
    id below the next value. *)
Definition review_keys_fresh (db : Db) : Prop :=
  NoDup (map Review.id (reviews db))
  /\ Forall (fun r => Review.id r < nextReviewId db) (reviews db).

(** The constraints of the users: [email] and [username] are [@unique],
    [id] is the key and comes from the sequence. *)
Definition users_unique (db : Db) : Prop :=
  NoDup (map User.email (users db))
  /\ NoDup (map User.username (users db))
  /\ NoDup (map User.id (users db))
  /\ Forall (fun u => User.id u < nextUserId db) (users db).

(** The comment ids are a key too. *)
Definition comment_keys_unique (db : Db) : Prop :=
  NoDup (map Comment.id (comments db)).

(** The relations of the schema: a review has its user and its item, a
    comment has its user and its review. *)
Definition references_hold (db : Db) : Prop :=
  (forall r, In r (reviews db) ->
     existsb (fun u => User.id u =? Review.userId r) (users db) = true
     /\ existsb (fun i => Item.id i =? Review.itemId r) (items db) = true)
  /\ (forall c, In c (comments db) ->
        existsb (fun u => User.id u =? Comment.userId c) (users db) = true
        /\ existsb (fun r => Review.id r =? Comment.reviewId c) (reviews db) = true).

(** The keys and the unique constraints of the schema, together. *)
Definition keys_unique (db : Db) : Prop :=
  users_unique db /\ review_keys_fresh db
  /\ one_review_per_pair (reviews db) /\ comment_keys_unique db.

(** The rows the creating routes store. *)
Definition created_user (id : Z) (username email password : string) (now : Z) : User.t :=
  {| User.id := id; User.username := username; User.email := email;
     User.password := password; User.createdAt := now |}.

Definition created_review (id rating : Z) (content : string) (userId itemId now : Z)
  : Review.t :=
  {| Review.id := id; Review.rating := rating; Review.content := content;
     Review.userId := userId; Review.itemId := itemId;
     Review.createdAt := now; Review.updatedAt := now |}.

Definition created_comment (id : Z) (content : string) (userId reviewId now : Z)
  : Comment.t :=
  {| Comment.id := id; Comment.content := content; Comment.userId := userId;
     Comment.reviewId := reviewId; Comment.createdAt := now;
     Comment.updatedAt := now |}.

(** The comment an update leaves in the store. *)
Definition updated_comment (old : Comment.t) (content : string) (stamp : Z) : Comment.t :=
  {| Comment.id := Comment.id old;
     Comment.content := content;
     Comment.userId := Comment.userId old;
     Comment.reviewId := Comment.reviewId old;
     Comment.createdAt := Comment.createdAt old;
     Comment.updatedAt := stamp |}.

(** A word: a string without a space. *)
Fixpoint word (s : string) : bool :=
  match s with
  | EmptyString => true
  | String c s' => negb (Ascii.eqb c " ") && word s'
  end.

(** [token] is the second word of the header [h]: what stands between
    the first space of [h] and the next one, or the end. It may be
    empty. *)
Definition second_word (h token : string) : Prop :=
  exists scheme tail : string,
    h = (scheme ++ String " " (token ++ tail))%string
    /\ word scheme = true /\ word token = true
    /\ (tail = "" \/ exists more, tail = String " " more).

(** "The bearer token is absent": there is no header, the header is one
    word or none, or its second word is empty. *)
Definition token_absent (authHeader : option string) : Prop :=
  match authHeader with
  | None => True
  | Some h => word h = true \/ second_word h ""
  end.

(** "A token is present": the second word of the header, not empty. *)
Definition token_present (authHeader : option string) (token : string) : Prop :=
  match authHeader with
  | None => False
  | Some h => second_word h token /\ token <> ""
  end.

(** [n] is [q] without its fraction: the integer next to [q] on the
    side of zero. *)
Definition truncated (q : Q) (n : Z) : bool :=
  if Qle_bool 0 q
  then Qle_bool (inject_Z n) q && negb (Qle_bool (inject_Z (n + 1)) q)
  else Qle_bool q (inject_Z n) && negb (Qle_bool q (inject_Z (n - 1))).

(** The accuracy of one binary64 division: the quotient of [a] by [b]
    is the exact one up to one part in 2^53. *)
Definition fdiv_accurate_at {ext : Externals} (a b : Z) : Prop :=
  (Qabs (fdiv a b - (a # Z.to_pos b)) <= (a # Z.to_pos b) * (1 # 2 ^ 53))%Q.


(** The division that yields the mean of [rs], when there is one, is
    accurate. *)
Definition mean_accurate {ext : Externals} (rs : list Review.t) : Prop :=
  rs <> [] ->
  fdiv_accurate_at (fold_right Z.add 0 (map Review.rating rs))
    (Z.of_nat (List.length rs)).

(** Rows from the oldest to the newest, and from the newest to the oldest. *)
Definition ascending {A : Type} (key : A -> Z) (l : list A) : Prop :=
  StronglySorted (fun x y => key x <= key y) l.

Definition descending {A : Type} (key : A -> Z) (l : list A) : Prop :=
  StronglySorted (fun x y => key y <= key x) l.


(* ================================================================== *)
(** ** Properties *)


Ltac run_task :=
  unfold authenticated, parse, catch_zod, catch_any, bind, ret, throw, try_catch,
    Prisma.user.findUnique_id, Prisma.user.findUnique_email,
    Prisma.review.findUnique_id, Prisma.review.findUnique_userId_itemId,
    Prisma.comment.findUnique_id, Prisma.unique in *.

Section Properties.

Context {ext : Externals}.

(** *** The authentication gate *)

Lemma bearer_token_absent_header : bearer_token None = None.
Proof. reflexivity. Qed.

Lemma bearer_token_scheme_only : bearer_token (Some "Bearer") = None.
Proof. reflexivity. Qed.

Lemma split_append (sep : ascii) (s t : string) :
  Js.split sep s = [s] ->
  Js.split sep (s ++ String sep t)%string = s :: Js.split sep t.
Proof.
  induction s as [|c s IH]; simpl.
  - intros _. now rewrite Ascii.eqb_refl.
  - destruct (Ascii.eqb c sep); [discriminate|].
    destruct (Js.split sep s) as [|piece rest] eqn:Hs.
    + destruct s; simpl in Hs; [discriminate|].
      destruct (Ascii.eqb a sep); [discriminate|].
      destruct (Js.split sep s); discriminate.
    + intros H. injection H as Hp Hr. subst piece rest.
      now rewrite (IH eq_refl).
Qed.

(** A header [scheme token] of two words carries [token]. *)
Lemma bearer_token_present (scheme token : string) :
  Js.split " " scheme = [scheme] -> scheme <> "" ->
  Js.split " " token = [token] ->
  bearer_token (Some (scheme ++ String " " token)%string) = Some token.
Proof.
  intros Hs Hne Ht. unfold bearer_token.
  destruct scheme as [|c s]; [congruence|].
  change (Js.truthy (Some (String c s ++ String " " token)%string)) with true.
  cbv iota. rewrite (split_append _ _ _ Hs), Ht. reflexivity.
Qed.

(** Splitting at the spaces: a word is one piece, and the second piece
    of a header is its second word. *)
Lemma split_word (s : string) : word s = true -> Js.split " " s = [s].
Proof.
  induction s as [|c s IH]; simpl; [reflexivity|].
  destruct (Ascii.eqb c " "); simpl; [discriminate|].
  intros H. now rewrite (IH H).
Qed.

Lemma split_head (token tail : string) :
  word token = true -> tail = "" \/ (exists more, tail = String " " more) ->
  exists rest, Js.split " " (token ++ tail)%string = token :: rest.
Proof.
  intros Hw [->|[more ->]].
  - exists [].
    assert (E : (token ++ "")%string = token)
      by (clear Hw; induction token as [|c t IH]; simpl; congruence).
    rewrite E. now apply split_word.
  - exists (Js.split " " more). apply split_append. now apply split_word.
Qed.

Lemma bearer_token_second_word (h token : string) :
  second_word h token -> bearer_token (Some h) = Some token.
Proof.
  intros (scheme & tail & -> & Hs & Ht & Htail). unfold bearer_token.
  assert (Hne : Js.truthy (Some (scheme ++ String " " (token ++ tail))%string) = true)
    by (destruct scheme; reflexivity).
  rewrite Hne. rewrite (split_append _ _ _ (split_word _ Hs)).
  destruct (split_head token tail Ht Htail) as [rest ->]. reflexivity.
Qed.

Lemma bearer_token_absent (authHeader : option string) :
  token_absent authHeader -> Js.truthy (bearer_token authHeader) = false.
Proof.
  destruct authHeader as [h|]; [|reflexivity]. intros [Hw|Hs].
  - unfold bearer_token. destruct h as [|c h]; [reflexivity|].
    change (Js.truthy (Some (String c h))) with true. cbv iota.
    now rewrite (split_word _ Hw).
  - now rewrite (bearer_token_second_word h "" Hs).
Qed.

(** The first word of a string and what follows it. *)
Lemma first_word (s : string) :
  exists token tail : string,
    s = (token ++ tail)%string /\ word token = true
    /\ (tail = "" \/ exists more, tail = String " " more).
Proof.
  induction s as [|c s (token & tail & -> & Hw & Htail)].
  - exists "", "". auto.
  - destruct (Ascii.eqb c " ") eqn:Hc.
    + apply Ascii.eqb_eq in Hc. subst c.
      exists "", (String " " (token ++ tail)). simpl. eauto.
    + exists (String c token), tail. simpl. rewrite Hc. auto.
Qed.

(** Every header is of one of the two kinds. *)
Lemma header_shape (authHeader : option string) :
  token_absent authHeader \/ exists token, token_present authHeader token.
Proof.
  destruct authHeader as [h|]; [|now left]. simpl.
  assert (Hshape : word h = true \/ exists token, second_word h token).
  { induction h as [|c h IH]; [now left|]. simpl.
    destruct (Ascii.eqb c " ") eqn:Hc.
    - right. apply Ascii.eqb_eq in Hc. subst c.
      destruct (first_word h) as (token & tail & -> & Hw & Htail).
      exists token, "", tail. auto.
    - destruct IH as [Hw|(token & scheme & tail & -> & Hs & Ht & Htail)];
        [now left|right].
      exists token, (String c scheme), tail. simpl. rewrite Hc. auto. }
  destruct Hshape as [Hw|[token Hs]]; [now left; left|].
  destruct token as [|c t]; [now left; right|].
  right. exists (String c t). split; [exact Hs|discriminate].
Qed.

Lemma int32_range (n : Z) :
  Prisma.int32 n = true <-> - 2147483648 <= n <= 2147483647.
Proof. unfold Prisma.int32. rewrite andb_true_iff, !Z.leb_le. reflexivity. Qed.

(** In a table whose keys are in the range of the column, as the keys
    of the database are, a lookup refuses the ids outside the range and
    no others. *)
Lemma unique_in_range {A : Type} (key : A -> Z) (rows : list A) (id : Z) (db : Db) :
  Forall (fun x => Prisma.int32 (key x) = true) rows ->
  Prisma.unique id (find (fun x => key x =? id) rows) db
  = if Prisma.int32 id
    then (Return (find (fun x => key x =? id) rows), db)
    else (Throw (PrismaClientError "validation"), db).
Proof.
  intros Hrows. unfold Prisma.unique.
  destruct (find _ rows) as [x|] eqn:Hfind; [|destruct (Prisma.int32 id); reflexivity].
  apply find_some in Hfind as [Hin Hk]. apply Z.eqb_eq in Hk.
  pose proof (proj1 (Forall_forall _ _) Hrows x Hin) as Hx. simpl in Hx.
  rewrite Hk in Hx. now rewrite Hx.
Qed.

Lemma find_none_by_key {A : Type} (key : A -> Z) (k : Z) (l : list A) :
  (forall x, In x l -> key x <> k) -> find (fun x => key x =? k) l = None.
Proof.
  intros H. destruct (find _ l) as [x|] eqn:Hf; [|reflexivity].
  apply find_some in Hf as [Hin Hk]. apply Z.eqb_eq in Hk. now apply H in Hin.
Qed.

(** The gate hands the store on as it received it. *)
Lemma authenticateToken_store (now : Z) (req : Request) (db : Db) :
  snd (authenticateToken now req db) = db.
Proof.
  unfold authenticateToken, jwt_verify_id. run_task.
  destruct (Js.truthy (bearer_token (authorization req))); simpl; [|reflexivity].
  destruct (jwt_verify now _) as [id|]; simpl; [|reflexivity].
  destruct (find _ (users db)); [reflexivity|].
  destruct (Prisma.int32 id); reflexivity.
Qed.

(** What the gate answers to a header that carries [token]. *)
Lemma authenticateToken_token (now : Z) (req : Request) (db : Db) (token : string) :
  token_present (authorization req) token ->
  authenticateToken now req db
  = try_catch
      (decoded_id <- jwt_verify_id now token ;;
       user <- Prisma.user.findUnique_id decoded_id ;;
       match user with
       | None => ret (Rejected (status_json 401 (Error "User not found")))
       | Some user => ret (Next user)
       end)
      (fun error =>
         ret (Rejected (status_json 403 (Error "Invalid or expired token"))))
      db.
Proof.
  unfold token_present. destruct (authorization req) as [h|] eqn:Hh; [|tauto].
  intros [Hs Hne]. unfold authenticateToken. rewrite Hh.
  rewrite (bearer_token_second_word h token Hs).
  destruct token; [congruence|reflexivity].
Qed.

(** C2. Every Authorization header either carries no token (it is
    missing, has one word or none, or an empty second word) or carries
    one, its second word. With no token the gate answers 401 "Access
    token missing". With a token that does not verify it answers 403
    "Invalid or expired token"; with one that verifies for an id no
    stored user has, an id of the range of the key, 401 "User not
    found"; with one that verifies for the id of a stored user it hands
    that user on. In every case the store is the one it was given. *)
Theorem authenticateToken_outcomes (now : Z) (req : Request) (db : Db) :
  snd (authenticateToken now req db) = db
  /\ (token_absent (authorization req)
      \/ exists token, token_present (authorization req) token)
  /\ (token_absent (authorization req) ->
      fst (authenticateToken now req db)
      = Return (Rejected (status_json 401 (Error "Access token missing"))))
  /\ (forall token,
        token_present (authorization req) token ->
        (jwt_verify now token = None ->
         fst (authenticateToken now req db)
         = Return (Rejected (status_json 403 (Error "Invalid or expired token"))))
        /\ (forall id,
              jwt_verify now token = Some id ->
              (forall u, In u (users db) -> User.id u <> id) ->
              - 2147483648 <= id <= 2147483647 ->
              fst (authenticateToken now req db)
              = Return (Rejected (status_json 401 (Error "User not found"))))
        /\ (forall id user,
              jwt_verify now token = Some id ->
              find (fun u => User.id u =? id) (users db) = Some user ->
              fst (authenticateToken now req db) = Return (Next user))).
Proof.
  split; [apply authenticateToken_store|].
  split; [apply header_shape|]. split.
  - intros Habsent. unfold authenticateToken.
    now rewrite (bearer_token_absent _ Habsent).
  - intros token Hpresent. rewrite (authenticateToken_token now req db token Hpresent).
    unfold jwt_verify_id. run_task. repeat split.
    + intros ->. reflexivity.
    + intros id -> Hnone Hrange. simpl.
      rewrite (find_none_by_key User.id id (users db) Hnone).
      apply int32_range in Hrange. now rewrite Hrange.
    + intros id user -> Hfind. simpl. now rewrite Hfind.
Qed.

(** *** Routes behind the gate *)

Lemma authenticated_next (now : Z) (req : Request) (db : Db) (user : User.t)
    (handler : User.t -> Task Response) :
  authenticateToken now req db = (Return (Next user), db) ->
  authenticated now req handler db = handler user db.
Proof. intros H. unfold authenticated, bind. now rewrite H. Qed.

Lemma authenticated_rejected (now : Z) (req : Request) (db : Db) (res : Response)
    (handler : User.t -> Task Response) :
  authenticateToken now req db = (Return (Rejected res), db) ->
  authenticated now req handler db = (Return res, db).
Proof. intros H. unfold authenticated, bind. now rewrite H. Qed.

(** *** The guard on the path parameter *)

Lemma update_review_invalid_id (now : Z) (req : Request) (user : User.t) (db : Db) :
  Js.parseInt (params_id req) = None ->
  update_review now req user db
  = (Return (status_json 400 (Error "Invalid review ID")), db).
Proof. intros H. unfold update_review. rewrite H. reflexivity. Qed.

Lemma delete_review_invalid_id (req : Request) (user : User.t) (db : Db) :
  Js.parseInt (params_id req) = None ->
  delete_review req user db
  = (Return (status_json 400 (Error "Invalid review ID")), db).
Proof. intros H. unfold delete_review. rewrite H. reflexivity. Qed.

Lemma update_comment_invalid_id (now : Z) (req : Request) (user : User.t) (db : Db) :
  Js.parseInt (params_id req) = None ->
  update_comment now req user db
  = (Return (status_json 400 (Error "Invalid comment ID.")), db).
Proof. intros H. unfold update_comment. rewrite H. reflexivity. Qed.

Lemma delete_comment_invalid_id (req : Request) (user : User.t) (db : Db) :
  Js.parseInt (params_id req) = None ->
  delete_comment req user db
  = (Return (status_json 400 (Error "Invalid comment ID.")), db).
Proof. intros H. unfold delete_comment. rewrite H. reflexivity. Qed.

(** C10. For an authenticated caller and a path parameter that
    [parseInt] reads as [NaN], PUT and DELETE on /reviews/:id answer
    400 "Invalid review ID" and PUT and DELETE on /comments/:id answer
    400 "Invalid comment ID.", whatever the store holds and whoever the
    caller is, and the store is left as it was. *)
Theorem invalid_id_is_400 (now : Z) (req : Request) (db : Db) (user : User.t) :
  authenticateToken now req db = (Return (Next user), db) ->
  Js.parseInt (params_id req) = None ->
  authenticated now req (update_review now req) db
  = (Return (status_json 400 (Error "Invalid review ID")), db)
  /\ authenticated now req (delete_review req) db
     = (Return (status_json 400 (Error "Invalid review ID")), db)
  /\ authenticated now req (update_comment now req) db
     = (Return (status_json 400 (Error "Invalid comment ID.")), db)
  /\ authenticated now req (delete_comment req) db
     = (Return (status_json 400 (Error "Invalid comment ID.")), db).
Proof.
  intros Hauth Hid. rewrite !(authenticated_next _ _ _ _ _ Hauth).
  auto using update_review_invalid_id, delete_review_invalid_id,
    update_comment_invalid_id, delete_comment_invalid_id.
Qed.

(** *** The ownership guard *)

Lemma update_review_missing (now : Z) (req : Request) (user : User.t) (db : Db)
    (id : Z) (fields : option Q * option string) :
  Js.parseInt (params_id req) = Some id ->
  updateReviewSchema (body req) = inr fields ->
  find (fun r => Review.id r =? id) (reviews db) = None ->
  update_review now req user db
  = (Return (status_json (if Prisma.int32 id then 404 else 500)
               (Error (if Prisma.int32 id then "Review not found"
                       else "Internal server error"))), db).
Proof.
  intros Hid Hbody Hfind. unfold update_review. rewrite Hid, Hbody.
  destruct fields as [rating content]. run_task. simpl. rewrite Hfind.
  destruct (Prisma.int32 id); reflexivity.
Qed.

Lemma update_review_foreign (now : Z) (req : Request) (user : User.t) (db : Db)
    (id : Z) (fields : option Q * option string) (r : Review.t) :
  Js.parseInt (params_id req) = Some id ->
  updateReviewSchema (body req) = inr fields ->
  find (fun r => Review.id r =? id) (reviews db) = Some r ->
  Review.userId r <> User.id user ->
  update_review now req user db
  = (Return (status_json 403
               (Error "You are not authorized to update this review.")), db).
Proof.
  intros Hid Hbody Hfind Hne. unfold update_review. rewrite Hid, Hbody.
  destruct fields as [rating content]. run_task. simpl. rewrite Hfind. simpl.
  apply Z.eqb_neq in Hne. now rewrite Hne.
Qed.

Lemma delete_review_missing (req : Request) (user : User.t) (db : Db) (id : Z) :
  Js.parseInt (params_id req) = Some id ->
  find (fun r => Review.id r =? id) (reviews db) = None ->
  delete_review req user db
  = (Return (status_json (if Prisma.int32 id then 404 else 500)
               (Error (if Prisma.int32 id then "Review not found"
                       else "Internal server error"))), db).
Proof.
  intros Hid Hfind. unfold delete_review. rewrite Hid.
  run_task. simpl. rewrite Hfind. destruct (Prisma.int32 id); reflexivity.
Qed.

Lemma delete_review_foreign (req : Request) (user : User.t) (db : Db)
    (id : Z) (r : Review.t) :
  Js.parseInt (params_id req) = Some id ->
  find (fun r => Review.id r =? id) (reviews db) = Some r ->
  Review.userId r <> User.id user ->
  delete_review req user db
  = (Return (status_json 403
               (Error "You are not authorized to delete this review.")), db).
Proof.
  intros Hid Hfind Hne. unfold delete_review. rewrite Hid.
  run_task. simpl. rewrite Hfind. simpl.
  apply Z.eqb_neq in Hne. now rewrite Hne.
Qed.

Lemma update_comment_missing (now : Z) (req : Request) (user : User.t) (db : Db)
    (id : Z) (content : string) :
  Js.parseInt (params_id req) = Some id ->
  updateCommentSchema (body req) = inr content ->
  find (fun c => Comment.id c =? id) (comments db) = None ->
  update_comment now req user db
  = (Return (status_json (if Prisma.int32 id then 404 else 500)
               (Error (if Prisma.int32 id then "Comment not found."
                       else "Internal server error"))), db).
Proof.
  intros Hid Hbody Hfind. unfold update_comment. rewrite Hid, Hbody.
  run_task. simpl. rewrite Hfind. destruct (Prisma.int32 id); reflexivity.
Qed.

Lemma update_comment_foreign (now : Z) (req : Request) (user : User.t) (db : Db)
    (id : Z) (content : string) (c : Comment.t) :
  Js.parseInt (params_id req) = Some id ->
  updateCommentSchema (body req) = inr content ->
  find (fun c => Comment.id c =? id) (comments db) = Some c ->
  Comment.userId c <> User.id user ->
  update_comment now req user db
  = (Return (status_json 403
               (Error "You are not authorized to update this comment.")), db).
Proof.
  intros Hid Hbody Hfind Hne. unfold update_comment. rewrite Hid, Hbody.
  run_task. simpl. rewrite Hfind. simpl.
  apply Z.eqb_neq in Hne. now rewrite Hne.
Qed.

Lemma delete_comment_missing (req : Request) (user : User.t) (db : Db) (id : Z) :
  Js.parseInt (params_id req) = Some id ->
  find (fun c => Comment.id c =? id) (comments db) = None ->
  delete_comment req user db
  = (Return (status_json (if Prisma.int32 id then 404 else 500)
               (Error (if Prisma.int32 id then "Comment not found."
                       else "Internal server error"))), db).
Proof.
  intros Hid Hfind. unfold delete_comment. rewrite Hid.
  run_task. simpl. rewrite Hfind. destruct (Prisma.int32 id); reflexivity.
Qed.

Lemma delete_comment_foreign (req : Request) (user : User.t) (db : Db)
    (id : Z) (c : Comment.t) :
  Js.parseInt (params_id req) = Some id ->
  find (fun c => Comment.id c =? id) (comments db) = Some c ->
  Comment.userId c <> User.id user ->
  delete_comment req user db
  = (Return (status_json 403
               (Error "You are not authorized to delete this comment.")), db).
Proof.
  intros Hid Hfind Hne. unfold delete_comment. rewrite Hid.
  run_task. simpl. rewrite Hfind. simpl.
  apply Z.eqb_neq in Hne. now rewrite Hne.
Qed.

Lemma int32_out_of_range (n : Z) :
  ~ - 2147483648 <= n <= 2147483647 -> Prisma.int32 n = false.
Proof.
  intros H. apply not_true_is_false. intros Hin. now apply int32_range in Hin.
Qed.

(** C1, as the code has it. For an authenticated caller, a path
    parameter that [parseInt] reads as the number [id] and, for an
    update, a body its schema accepts: when no row has that id and the
    id is in the range of the key, PUT and DELETE answer 404 whoever
    the caller is; when no row has it and it is outside that range they
    answer 500; when the row is there and its [userId] is not the
    caller's id they answer 403 with the message of the resource and
    the verb. The store is left as it was. *)
Theorem ownership_guard (now : Z) (req : Request) (db : Db) (user : User.t) (id : Z) :
  authenticateToken now req db = (Return (Next user), db) ->
  Js.parseInt (params_id req) = Some id ->
  (find (fun r => Review.id r =? id) (reviews db) = None ->
     (- 2147483648 <= id <= 2147483647 ->
        (forall fields, updateReviewSchema (body req) = inr fields ->
           authenticated now req (update_review now req) db
           = (Return (status_json 404 (Error "Review not found")), db))
        /\ authenticated now req (delete_review req) db
           = (Return (status_json 404 (Error "Review not found")), db))
     /\ (~ - 2147483648 <= id <= 2147483647 ->
           (forall fields, updateReviewSchema (body req) = inr fields ->
              authenticated now req (update_review now req) db
              = (Return (status_json 500 (Error "Internal server error")), db))
           /\ authenticated now req (delete_review req) db
              = (Return (status_json 500 (Error "Internal server error")), db)))
  /\ (forall r, find (fun r => Review.id r =? id) (reviews db) = Some r ->
        Review.userId r <> User.id user ->
        (forall fields, updateReviewSchema (body req) = inr fields ->
           authenticated now req (update_review now req) db
           = (Return (status_json 403
                        (Error "You are not authorized to update this review.")), db))
        /\ authenticated now req (delete_review req) db
           = (Return (status_json 403
                        (Error "You are not authorized to delete this review.")), db))
  /\ (find (fun c => Comment.id c =? id) (comments db) = None ->
        (- 2147483648 <= id <= 2147483647 ->
           (forall content, updateCommentSchema (body req) = inr content ->
              authenticated now req (update_comment now req) db
              = (Return (status_json 404 (Error "Comment not found.")), db))
           /\ authenticated now req (delete_comment req) db
              = (Return (status_json 404 (Error "Comment not found.")), db))
        /\ (~ - 2147483648 <= id <= 2147483647 ->
              (forall content, updateCommentSchema (body req) = inr content ->
                 authenticated now req (update_comment now req) db
                 = (Return (status_json 500 (Error "Internal server error")), db))
              /\ authenticated now req (delete_comment req) db
                 = (Return (status_json 500 (Error "Internal server error")), db)))
  /\ (forall c, find (fun c => Comment.id c =? id) (comments db) = Some c ->
        Comment.userId c <> User.id user ->
        (forall content, updateCommentSchema (body req) = inr content ->
           authenticated now req (update_comment now req) db
           = (Return (status_json 403
                        (Error "You are not authorized to update this comment.")), db))
        /\ authenticated now req (delete_comment req) db
           = (Return (status_json 403
                        (Error "You are not authorized to delete this comment.")), db)).
Proof.
  intros Hauth Hid. rewrite !(authenticated_next _ _ _ _ _ Hauth).
  split; [|split; [|split]].
  - intros Hfind. split; intros Hrange.
    + apply int32_range in Hrange. split.
      * intros fields Hbody.
        rewrite (update_review_missing now req user db id fields Hid Hbody Hfind).
        now rewrite Hrange.
      * rewrite (delete_review_missing req user db id Hid Hfind). now rewrite Hrange.
    + apply int32_out_of_range in Hrange. split.
      * intros fields Hbody.
        rewrite (update_review_missing now req user db id fields Hid Hbody Hfind).
        now rewrite Hrange.
      * rewrite (delete_review_missing req user db id Hid Hfind). now rewrite Hrange.
  - intros r Hfind Hne. split.
    + intros fields Hbody. eapply update_review_foreign; eauto.
    + eapply delete_review_foreign; eauto.
  - intros Hfind. split; intros Hrange.
    + apply int32_range in Hrange. split.
      * intros content Hbody.
        rewrite (update_comment_missing now req user db id content Hid Hbody Hfind).
        now rewrite Hrange.
      * rewrite (delete_comment_missing req user db id Hid Hfind). now rewrite Hrange.
    + apply int32_out_of_range in Hrange. split.
      * intros content Hbody.
        rewrite (update_comment_missing now req user db id content Hid Hbody Hfind).
        now rewrite Hrange.
      * rewrite (delete_comment_missing req user db id Hid Hfind). now rewrite Hrange.
  - intros c Hfind Hne. split.
    + intros content Hbody. eapply update_comment_foreign; eauto.
    + eapply delete_comment_foreign; eauto.
Qed.

(** *** One review per user and item *)

Lemma integer_value (q : Q) (n : Z) :
  (q == inject_Z n)%Q -> Zod.is_integer q = true /\ Qfloor q = n.
Proof.
  intros H. assert (Hf : Qfloor q = n) by (rewrite H; apply Qfloor_Z).
  split; [|exact Hf]. unfold Zod.is_integer. rewrite Hf. now apply Qeq_bool_iff.
Qed.

(** What the client makes of a number for an [Int] column. *)
Lemma int_nonneg (q : Q) : (0 <= q)%Q -> Prisma.int q = Qfloor q.
Proof.
  destruct q as [a b]. unfold Qle, Prisma.int. cbn [Qnum Qden Qfloor]. intros H.
  apply Z.quot_div_nonneg; lia.
Qed.

Lemma int_integer (q : Q) (n : Z) : (q == inject_Z n)%Q -> Prisma.int q = n.
Proof.
  destruct q as [a b]. unfold Qeq, Prisma.int. cbn [Qnum Qden inject_Z]. intros H.
  assert (Ha : a = n * Z.pos b) by lia. rewrite Ha. apply Z.quot_mul. lia.
Qed.

Lemma int_is_integer (q : Q) : Zod.is_integer q = true -> Prisma.int q = Qfloor q.
Proof. intros H. apply int_integer. now apply Qeq_bool_iff. Qed.

Lemma int_truncated (q : Q) (n : Z) : truncated q n = true -> Prisma.int q = n.
Proof.
  unfold truncated. destruct (Qle_bool 0 q) eqn:Hq.
  - apply Qle_bool_iff in Hq. rewrite (int_nonneg q Hq).
    rewrite andb_true_iff, negb_true_iff. intros [Hlo Hhi].
    apply Qle_bool_iff in Hlo.
    assert (Hhi' : ~ (inject_Z (n + 1) <= q)%Q)
      by (intros H; apply Qle_bool_iff in H; congruence).
    destruct q as [a b]. unfold Qle in *. cbn [Qnum Qden Qfloor inject_Z] in *.
    symmetry. apply Z.div_unique with (a - n * Z.pos b); lia.
  - assert (Hneg : ~ (0 <= q)%Q)
      by (intros H; apply Qle_bool_iff in H; congruence).
    rewrite andb_true_iff, negb_true_iff. intros [Hhi Hlo].
    apply Qle_bool_iff in Hhi.
    assert (Hlo' : ~ (q <= inject_Z (n - 1))%Q)
      by (intros H; apply Qle_bool_iff in H; congruence).
    destruct q as [a b]. unfold Qle, Prisma.int in *. cbn [Qnum Qden inject_Z] in *.
    replace a with (- (- a)) by lia. rewrite Z.quot_opp_l by lia.
    rewrite Z.quot_div_nonneg by lia.
    assert (H : - a / Z.pos b = - n); [|lia].
    symmetry. apply Z.div_unique with (- a + n * Z.pos b); lia.
Qed.

Lemma pair_taken (rs : list Review.t) (userId itemId : Z) :
  existsb (fun r => (Review.userId r =? userId) && (Review.itemId r =? itemId)) rs = false ->
  ~ In (userId, itemId) (map (fun r => (Review.userId r, Review.itemId r)) rs).
Proof.
  intros Hex Hin. apply in_map_iff in Hin as (r & Heq & Hr).
  injection Heq as Hu Hi.
  assert (existsb (fun r => (Review.userId r =? userId) && (Review.itemId r =? itemId)) rs = true).
  { apply existsb_exists. exists r. split; [exact Hr|].
    now rewrite Hu, Hi, !Z.eqb_refl. }
  congruence.
Qed.

(** The insert keeps the constraint, in whatever store it runs. *)
Lemma insert_keeps_constraint (rating : Z) (content : string) (userId itemId now : Z) (db : Db) :
  one_review_per_pair (reviews db) ->
  one_review_per_pair
    (reviews (snd (Prisma.review.insert rating content userId itemId now db))).
Proof.
  intros Hinv. unfold Prisma.review.insert.
  destruct (negb _ || negb _); [exact Hinv|].
  destruct (existsb _ (reviews db)) eqn:Hex; [exact Hinv|].
  simpl. unfold one_review_per_pair. rewrite map_app. simpl.
  apply NoDup_app; [exact Hinv| |].
  - constructor; [intros []|constructor].
  - intros a Ha [<-|[]]. revert Ha. now apply pair_taken.
Qed.

(** The insert refuses a pair that is taken and stores no row: the
    store is the one it was, but for the sequence when it has handed
    out a value. *)
Lemma insert_refuses_taken_pair (rating : Z) (content : string) (userId itemId now : Z)
    (db : Db) (r : Review.t) :
  In r (reviews db) -> Review.userId r = userId -> Review.itemId r = itemId ->
  exists code db',
    Prisma.review.insert rating content userId itemId now db
    = (Throw (PrismaClientError code), db')
    /\ (db' = db \/ db' = with_reviews db (reviews db) (nextReviewId db + 1)).
Proof.
  intros Hin Hu Hi. unfold Prisma.review.insert.
  destruct (negb _ || negb _); [eexists _, db; eauto|].
  assert (Hex : existsb (fun r => (Review.userId r =? userId)
                                  && (Review.itemId r =? itemId)) (reviews db) = true).
  { apply existsb_exists. exists r. split; [exact Hin|].
    now rewrite Hu, Hi, !Z.eqb_refl. }
  rewrite Hex. eexists _, _. split; [reflexivity|]. now right.
Qed.

Lemma create_review_keeps_constraint (now : Z) (req : Request) (user : User.t) (db : Db) :
  one_review_per_pair (reviews db) ->
  one_review_per_pair (reviews (snd (create_review now req user db))).
Proof.
  intros Hinv. unfold create_review. run_task.
  destruct (createReviewSchema (body req)) as [e|[[itemId rating] content]];
    simpl; [exact Hinv|].
  destruct (find _ (reviews db)); simpl; [exact Hinv|].
  unfold Prisma.review.create. run_task.
  pose proof (insert_keeps_constraint (Prisma.int rating) content (User.id user)
                (Prisma.int itemId) now db Hinv) as Hins.
  destruct (Prisma.review.insert _ _ _ _ _ db) as [[r|e] db']; simpl in *;
    [exact Hins|destruct e; exact Hins].
Qed.

Lemma create_review_duplicate (now : Z) (req : Request) (user : User.t) (db : Db)
    (itemId rating : Q) (content : string) (r : Review.t) :
  createReviewSchema (body req) = inr (itemId, rating, content) ->
  In r (reviews db) -> Review.userId r = User.id user ->
  (itemId == inject_Z (Review.itemId r))%Q ->
  create_review now req user db
  = (Return (status_json 400 (Error "You have already reviewed this item.")), db).
Proof.
  intros Hbody Hin Hu Hi. apply int_integer in Hi.
  unfold create_review. run_task. rewrite Hbody. simpl. rewrite Hi.
  destruct (find _ (reviews db)) eqn:Hfind; [reflexivity|].
  exfalso. apply (find_none _ _ Hfind) in Hin.
  now rewrite Hu, !Z.eqb_refl in Hin.
Qed.

(** C3. When a review of the caller for the item is stored, a further
    POST /reviews of the caller for that item answers 400 "You have
    already reviewed this item." and stores nothing. The route keeps
    the store at one review per user and item, and so does the insert
    it ends in, in whatever store that insert runs (the one a racing
    request left behind): there a taken pair is refused and no row is
    stored, the store being the one it was but for the sequence of the
    ids when that has handed out a value. *)
Theorem one_review_per_user_and_item (now : Z) (req : Request) (db : Db) (user : User.t)
    (itemId rating : Q) (content : string) (r : Review.t) :
  authenticateToken now req db = (Return (Next user), db) ->
  createReviewSchema (body req) = inr (itemId, rating, content) ->
  In r (reviews db) -> Review.userId r = User.id user ->
  (itemId == inject_Z (Review.itemId r))%Q ->
  authenticated now req (create_review now req) db
  = (Return (status_json 400 (Error "You have already reviewed this item.")), db)
  /\ (forall now' req' db',
        one_review_per_pair (reviews db') ->
        one_review_per_pair
          (reviews (snd (authenticated now' req' (create_review now' req') db'))))
  /\ (forall rating' content' userId' itemId' now' db',
        one_review_per_pair (reviews db') ->
        one_review_per_pair
          (reviews (snd (Prisma.review.insert rating' content' userId' itemId' now' db'))))
  /\ (forall rating' content' now' db',
        In r (reviews db') ->
        exists code db'',
          Prisma.review.insert rating' content' (User.id user) (Review.itemId r) now' db'
          = (Throw (PrismaClientError code), db'')
          /\ (db'' = db'
              \/ db'' = with_reviews db' (reviews db') (nextReviewId db' + 1))).
Proof.
  intros Hauth Hbody Hin Hu Hi. repeat split.
  - rewrite (authenticated_next _ _ _ _ _ Hauth).
    eapply create_review_duplicate; eauto.
  - intros now' req' db' Hinv. unfold authenticated, bind.
    pose proof (authenticateToken_store now' req' db') as Hst.
    destruct (authenticateToken now' req' db') as [[[res|u]|e] db'']; simpl in *; subst db'';
      auto using create_review_keeps_constraint.
  - intros. now apply insert_keeps_constraint.
  - intros. eapply insert_refuses_taken_pair; eauto.
Qed.

(** *** Login *)

Lemma login_store (now : Z) (req : Request) (db : Db) :
  snd (login now req db) = db.
Proof.
  unfold login. run_task.
  destruct (loginSchema (body req)) as [e|[email password]]; simpl; [reflexivity|].
  destruct (find _ (users db)); simpl; [|reflexivity].
  destruct (bcrypt_compare _ _); reflexivity.
Qed.



(** *** Updating a review *)

Lemma find_replaced (rs : list Review.t) (id : Z) (new old : Review.t) :
  Review.id new = id ->
  find (fun r => Review.id r =? id) rs = Some old ->
  find (fun r => Review.id r =? id)
    (map (fun x => if Review.id x =? id then new else x) rs) = Some new.
Proof.
  intros Hnew. induction rs as [|x rs IH]; simpl; [discriminate|].
  destruct (Review.id x =? id) eqn:Hx.
  - intros _. now rewrite Hnew, Z.eqb_refl.
  - rewrite Hx. exact IH.
Qed.

Lemma find_other (rs : list Review.t) (id id' : Z) (new : Review.t) :
  Review.id new = id -> id' <> id ->
  find (fun r => Review.id r =? id')
    (map (fun x => if Review.id x =? id then new else x) rs)
  = find (fun r => Review.id r =? id') rs.
Proof.
  intros Hnew Hne. induction rs as [|x rs IH]; simpl; [reflexivity|].
  destruct (Review.id x =? id) eqn:Hx.
  - apply Z.eqb_eq in Hx. rewrite Hnew, Hx.
    assert (Hf : (id =? id') = false) by (apply Z.eqb_neq; congruence).
    rewrite Hf. exact IH.
  - destruct (Review.id x =? id'); [reflexivity|exact IH].
Qed.

Lemma find_id (rs : list Review.t) (id : Z) (r : Review.t) :
  find (fun r => Review.id r =? id) rs = Some r -> Review.id r = id.
Proof. intros H. apply find_some in H as [_ H]. now apply Z.eqb_eq. Qed.

Lemma update_review_owned (now : Z) (req : Request) (db : Db) (user : User.t) (id : Z)
    (rating : option Q) (content : option string) (old : Review.t) :
  Js.parseInt (params_id req) = Some id ->
  updateReviewSchema (body req) = inr (rating, content) ->
  find (fun r => Review.id r =? id) (reviews db) = Some old ->
  Review.userId old = User.id user ->
  (forall q, rating = Some q -> Zod.is_integer q = true) ->
  update_review now req user db
  = (Return (json (ReviewBody (updated_review old rating content now)
                     (user_ref db (Review.userId old)))),
     with_reviews db
       (map (fun x => if Review.id x =? id
                      then updated_review old rating content now else x)
          (reviews db))
       (nextReviewId db)).
Proof.
  intros Hid Hbody Hfind Hown Hint. unfold update_review.
  rewrite Hid, Hbody. run_task. simpl. rewrite Hfind. simpl.
  assert (Heq : (Review.userId old =? User.id user) = true)
    by (apply Z.eqb_eq; exact Hown).
  rewrite Heq. simpl.
  unfold Prisma.review.update. rewrite Hfind.
  destruct rating as [q|].
  - rewrite (int_is_integer q (Hint q eq_refl)). reflexivity.
  - rewrite (int_integer (inject_Z (Review.rating old)) (Review.rating old))
      by reflexivity.
    reflexivity.
Qed.

(** C8, as the code has it. For a review the caller owns and a body
    the schema accepts, with an integer [rating] when one is given: the
    stored review takes the [rating] and [content] given and keeps the
    one not given; [id], [userId], [itemId] and [createdAt] stay and
    [updatedAt] becomes the time of the update; every other review and
    every other table stays as it was; the response is 200 with the
    updated review. *)
Theorem update_review_is_partial (now : Z) (req : Request) (db : Db) (user : User.t)
    (id : Z) (rating : option Q) (content : option string) (old : Review.t) :
  authenticateToken now req db = (Return (Next user), db) ->
  Js.parseInt (params_id req) = Some id ->
  updateReviewSchema (body req) = inr (rating, content) ->
  find (fun r => Review.id r =? id) (reviews db) = Some old ->
  Review.userId old = User.id user ->
  (forall q, rating = Some q -> Zod.is_integer q = true) ->
  let result := authenticated now req (update_review now req) db in
  fst result
  = Return (json (ReviewBody (updated_review old rating content now)
                    (user_ref db (Review.userId old))))
  /\ find (fun r => Review.id r =? id) (reviews (snd result))
     = Some (updated_review old rating content now)
  /\ (forall id', id' <> id ->
        find (fun r => Review.id r =? id') (reviews (snd result))
        = find (fun r => Review.id r =? id') (reviews db))
  /\ users (snd result) = users db
  /\ items (snd result) = items db
  /\ comments (snd result) = comments db.
Proof.
  intros Hauth Hid Hbody Hfind Hown Hint result. subst result.
  rewrite (authenticated_next _ _ _ _ _ Hauth).
  rewrite (update_review_owned now req db user id rating content old
             Hid Hbody Hfind Hown Hint).
  pose proof (find_id _ _ _ Hfind) as Hold. simpl.
  repeat split.
  - eapply find_replaced; eauto.
  - intros id' Hne. now apply find_other.
Qed.

(** *** The stored ratings stay between 1 and 5 *)

Lemma number_min_max_range (lo hi : Q) (p : string) (v : option jval) (q : Q) :
  Zod.number_min_max lo hi p v = inr q -> (lo <= q <= hi)%Q.
Proof.
  unfold Zod.number_min_max. destruct (Zod.number p v) as [e|q']; [discriminate|].
  destruct (Qle_bool lo q') eqn:Hlo, (Qle_bool q' hi) eqn:Hhi; simpl; try discriminate.
  intros H. injection H as <-. split; now apply Qle_bool_iff.
Qed.

Lemma stored_rating_range (q : Q) :
  (1 <= q <= 5)%Q -> 1 <= Prisma.int q <= 5.
Proof.
  intros [Hlo Hhi]. rewrite int_nonneg.
  - split.
    + change 1 with (Qfloor 1). now apply Qfloor_resp_le.
    + change 5 with (Qfloor 5). now apply Qfloor_resp_le.
  - apply Qle_trans with 1%Q; [discriminate|exact Hlo].
Qed.

Lemma createReviewSchema_range (v : jval) (itemId rating : Q) (content : string) :
  createReviewSchema v = inr (itemId, rating, content) -> (1 <= rating <= 5)%Q.
Proof.
  unfold createReviewSchema.
  destruct (object_of v) as [e|o]; [discriminate|].
  destruct (Zod.number "itemId" _); [discriminate|].
  destruct (Zod.number_min_max 1 5 "rating" _) as [e|r] eqn:Hrating; [discriminate|].
  destruct (Zod.string_min 1 "content" _); [discriminate|].
  intros H. injection H as _ <- _. now apply number_min_max_range in Hrating.
Qed.

Lemma updateReviewSchema_range (v : jval) (rating : Q) (content : option string) :
  updateReviewSchema v = inr (Some rating, content) -> (1 <= rating <= 5)%Q.
Proof.
  unfold updateReviewSchema.
  destruct (object_of v) as [e|o]; [discriminate|].
  unfold Zod.optional at 1.
  destruct (property o "rating") as [x|]; [|destruct (Zod.optional _ _ _); discriminate].
  destruct (Zod.number_min_max 1 5 "rating" (Some x)) as [e|r] eqn:Hrating;
    [discriminate|].
  destruct (Zod.optional _ _ _); [discriminate|].
  intros H. injection H as <- _. now apply number_min_max_range in Hrating.
Qed.

Lemma insert_keeps_ratings (rating : Z) (content : string) (userId itemId now : Z) (db : Db) :
  1 <= rating <= 5 ->
  ratings_in_range (reviews db) ->
  ratings_in_range
    (reviews (snd (Prisma.review.insert rating content userId itemId now db))).
Proof.
  intros Hr Hinv. unfold Prisma.review.insert.
  destruct (negb _ || negb _); [exact Hinv|].
  destruct (existsb _ (reviews db)); [exact Hinv|].
  simpl. apply Forall_app. split; [exact Hinv|]. now repeat constructor.
Qed.

Lemma create_review_keeps_ratings (now : Z) (req : Request) (user : User.t) (db : Db) :
  ratings_in_range (reviews db) ->
  ratings_in_range (reviews (snd (create_review now req user db))).
Proof.
  intros Hinv. unfold create_review. run_task.
  destruct (createReviewSchema (body req)) as [e|[[itemId rating] content]] eqn:Hbody;
    simpl; [exact Hinv|].
  apply createReviewSchema_range in Hbody.
  destruct (find _ (reviews db)); simpl; [exact Hinv|].
  unfold Prisma.review.create. run_task.
  pose proof (insert_keeps_ratings (Prisma.int rating) content (User.id user)
                (Prisma.int itemId) now db (stored_rating_range _ Hbody) Hinv) as Hins.
  destruct (Prisma.review.insert _ _ _ _ _ db) as [[r|e] db']; simpl in *;
    [exact Hins|destruct e; exact Hins].
Qed.

Lemma update_review_keeps_ratings (now : Z) (req : Request) (user : User.t) (db : Db) :
  ratings_in_range (reviews db) ->
  ratings_in_range (reviews (snd (update_review now req user db))).
Proof.
  intros Hinv. unfold update_review.
  destruct (Js.parseInt (params_id req)) as [id|]; [|exact Hinv]. run_task.
  destruct (updateReviewSchema (body req)) as [e|[rating content]] eqn:Hbody;
    simpl; [exact Hinv|].
  destruct (find _ (reviews db)) as [old|] eqn:Hfind; simpl;
    [|destruct (Prisma.int32 id); exact Hinv].
  destruct (negb _); simpl; [exact Hinv|].
  assert (Hold : 1 <= Review.rating old <= 5).
  { apply find_some in Hfind as [Hin _].
    exact (proj1 (Forall_forall _ _) Hinv old Hin). }
  unfold Prisma.review.update. rewrite Hfind. simpl. apply Forall_map.
  apply Forall_forall. intros x Hx.
  destruct (Review.id x =? id).
  - simpl. destruct rating as [q|].
    + apply stored_rating_range. now apply updateReviewSchema_range in Hbody.
    + now rewrite (int_integer (inject_Z (Review.rating old)) (Review.rating old))
        by reflexivity.
  - exact (proj1 (Forall_forall _ _) Hinv x Hx).
Qed.

Lemma delete_review_keeps_ratings (req : Request) (user : User.t) (db : Db) :
  ratings_in_range (reviews db) ->
  ratings_in_range (reviews (snd (delete_review req user db))).
Proof.
  intros Hinv. unfold delete_review.
  destruct (Js.parseInt (params_id req)) as [id|]; [|exact Hinv]. run_task.
  simpl. destruct (find _ (reviews db)) as [old|] eqn:Hfind; simpl;
    [|destruct (Prisma.int32 id); exact Hinv].
  destruct (negb _); simpl; [exact Hinv|].
  unfold Prisma.review.delete. rewrite Hfind. simpl.
  apply Forall_forall. intros x Hx. apply filter_In in Hx as [Hx _].
  exact (proj1 (Forall_forall _ _) Hinv x Hx).
Qed.

(** *** The average rating *)


Lemma sum_ratings_from {A : Type} (rating : A -> Z) (reviews : list A) (acc : Z) :
  fold_left (fun acc curr => acc + rating curr) reviews acc
  = acc + sum_ratings rating reviews.
Proof.
  unfold sum_ratings. revert acc.
  induction reviews as [|r rs IH]; intros acc; simpl; [lia|].
  rewrite IH, (IH (rating r)). lia.
Qed.

Lemma sum_ratings_bounds {A : Type} (rating : A -> Z) (reviews : list A) :
  Forall (fun r => 1 <= rating r <= 5) reviews ->
  Z.of_nat (List.length reviews) <= sum_ratings rating reviews
  <= 5 * Z.of_nat (List.length reviews).
Proof.
  induction 1 as [|r rs Hr _ IH]; [cbn; lia|].
  unfold sum_ratings in *. cbn [fold_left List.length].
  rewrite sum_ratings_from. unfold sum_ratings. lia.
Qed.



Lemma averageRating_empty {A : Type} (rating : A -> Z) :
  averageRating rating [] = None.
Proof. reflexivity. Qed.

Lemma sum_ratings_fold {A : Type} (rating : A -> Z) (reviews : list A) :
  fold_right Z.add 0 (map rating reviews) = sum_ratings rating reviews.
Proof.
  induction reviews as [|r rs IH]; [reflexivity|].
  unfold sum_ratings in *. cbn [map fold_right fold_left].
  rewrite sum_ratings_from. unfold sum_ratings. lia.
Qed.


Lemma in_page_of {A : Type} (skip take : Z) (rows : list A) (x : A) :
  In x (page_of skip take rows) -> In x rows.
Proof.
  unfold page_of. intros H.
  rewrite <- (firstn_skipn (Z.to_nat skip) rows). apply in_or_app. right.
  rewrite <- (firstn_skipn (Z.to_nat take) (skipn (Z.to_nat skip) rows)).
  apply in_or_app. now left.
Qed.



(** An accurate quotient, every time, is an accurate quotient here. *)
Lemma fdiv_accurate_everywhere (rs : list Review.t) :
  fdiv_accurate ->
  Forall (fun r => 1 <= Review.rating r <= 5) rs ->
  Z.of_nat (List.length rs) < 2 ^ 31 ->
  mean_accurate rs.
Proof.
  intros Hdiv Hall Hlen Hne. rewrite sum_ratings_fold.
  pose proof (sum_ratings_bounds Review.rating rs Hall) as Hsum.
  assert (Hpos : 0 < Z.of_nat (List.length rs))
    by (destruct rs; [congruence|cbn [List.length]; lia]).
  apply Hdiv; [|lia]. split; [lia|].
  apply Z.le_lt_trans with (5 * 2 ^ 31); [lia|reflexivity].
Qed.




(** *** The detail of an item *)

Lemma get_item_invalid_id (req : Request) (db : Db) :
  Js.parseInt (params_id req) = None ->
  get_item req db = (Return (status_json 400 (Error "Invalid item ID")), db).
Proof. intros H. unfold get_item. now rewrite H. Qed.

(** No binding named [id] is in scope where the query is built: once
    the path parameter is a number the handler ends in its [catch]. *)
Lemma get_item_numeric_id (req : Request) (db : Db) (id : Z) :
  Js.parseInt (params_id req) = Some id ->
  get_item req db
  = (Return (status_json 500 (Error "Internal server error")), db).
Proof. intros H. unfold get_item. now rewrite H. Qed.

(** *** Registration *)

Lemma register_taken_email (salt : string) (now : Z) (req : Request) (db : Db)
    (username email password : string) (u : User.t) :
  registerSchema (body req) = inr (username, email, password) ->
  In u (users db) -> User.email u = email ->
  register salt now req db
  = (Return (status_json 400 (Error "Email already in use")), db).
Proof.
  intros Hbody Hin He. unfold register. run_task. rewrite Hbody. simpl.
  destruct (find _ (users db)) eqn:Hfind; [reflexivity|].
  apply (find_none _ _ Hfind) in Hin. rewrite He, String.eqb_refl in Hin.
  discriminate.
Qed.

Lemma register_taken_username (salt : string) (now : Z) (req : Request) (db : Db)
    (username email password : string) (u : User.t) :
  registerSchema (body req) = inr (username, email, password) ->
  (forall u', In u' (users db) -> User.email u' <> email) ->
  In u (users db) -> User.username u = username ->
  register salt now req db
  = (Return (status_json 500 (Error "Internal server error")),
     with_users db (users db) (nextUserId db + 1)).
Proof.
  intros Hbody Hfresh Hin Hu. unfold register. run_task. rewrite Hbody. simpl.
  destruct (find _ (users db)) as [u'|] eqn:Hfind.
  - apply find_some in Hfind as [Hin' He]. apply String.eqb_eq in He.
    now apply Hfresh in Hin'.
  - simpl. unfold Prisma.user.create.
    assert (Hex : existsb (fun u => String.eqb (User.email u) email
                                    || String.eqb (User.username u) username)
                    (users db) = true).
    { apply existsb_exists. exists u. split; [exact Hin|].
      rewrite Hu, String.eqb_refl. apply orb_true_r. }
    now rewrite Hex.
Qed.

(** *** Pagination *)

Lemma page_of_length {A : Type} (skip take : Z) (rows : list A) :
  (List.length (page_of skip take rows) <= Z.to_nat take)%nat.
Proof. unfold page_of. apply firstn_le_length. Qed.

(** The [k]-th row of a page is row [skip + k] of the listing. *)
Lemma page_of_nth {A : Type} (skip take : Z) (rows : list A) (k : nat) :
  (k < Z.to_nat take)%nat ->
  nth_error (page_of skip take rows) k = nth_error rows (Z.to_nat skip + k).
Proof.
  intros Hk. unfold page_of.
  rewrite nth_error_firstn.
  destruct (Nat.ltb_spec k (Z.to_nat take)); [|lia].
  apply nth_error_skipn.
Qed.

Lemma get_comments_page (req : Request) (db : Db) (reviewId : string)
    (page limit id : Z) (r : Review.t) :
  getCommentsSchema req = inr (reviewId, page, limit) ->
  Js.parseInt reviewId = Some id ->
  find (fun r => Review.id r =? id) (reviews db) = Some r ->
  0 <= (page - 1) * limit ->
  get_comments req db
  = (Return
       (json (CommentsPage page limit
                (map (fun c => (c, user_ref db (Comment.userId c)))
                   (page_of ((page - 1) * limit) limit
                      (sort_by Comment.createdAt
                         (filter (fun c => Comment.reviewId c =? id)
                            (comments db))))))),
     db).
Proof.
  intros Hq Hid Hfind Hskip. unfold get_comments. run_task.
  rewrite Hq. simpl. rewrite Hid. simpl. rewrite Hfind.
  unfold Prisma.comment.findMany_reviewId.
  assert (H : ((page - 1) * limit <? 0) = false) by (apply Z.ltb_ge; lia).
  now rewrite H.
Qed.

Lemma number_int_of_query (lo : Z) (hi : option Z) (p : string) (v : qval) :
  Zod.number_int lo hi p (Some (jval_of_qval v)) = inl [invalid_type p].
Proof. destruct v; reflexivity. Qed.

(** A value given for [page] or [limit] never validates in GET /items:
    the schema asks for a number and the query holds strings. *)
Lemma get_items_given_page (req : Request) (db : Db) (v : qval) :
  property (query req) "page" = Some v \/ property (query req) "limit" = Some v ->
  exists errors,
    get_items req db = (Return (status_json 400 (Errors errors)), db).
Proof.
  intros H. unfold get_items. run_task.
  assert (Hq : exists e, querySchema req = inl e).
  { unfold querySchema, query_property.
    destruct (Zod.optional Zod.string_ "search" _) as [e1|s1];
      destruct (Zod.optional Zod.string_ "category" _) as [e2|s2];
      destruct H as [H|H]; rewrite H; cbn [option_map Zod.default];
      rewrite number_int_of_query;
      try destruct (Zod.default _ _ _ _); eauto. }
  destruct Hq as [e He]. rewrite He. cbv [throw ret]. eauto.
Qed.

End Properties.

(* ================================================================== *)
(** ** Further properties of the routes *)

(** *** Listings: order and membership *)

Lemma insert_by_In {A : Type} (key : A -> Z) (x y : A) (l : list A) :
  In y (insert_by key x l) <-> y = x \/ In y l.
Proof.
  induction l as [|z l IH]; simpl; [intuition congruence|].
  destruct (key x <=? key z); simpl; [intuition congruence|].
  rewrite IH. intuition congruence.
Qed.

Lemma sort_by_In {A : Type} (key : A -> Z) (x : A) (l : list A) :
  In x (sort_by key l) <-> In x l.
Proof.
  unfold sort_by. induction l as [|y l IH]; simpl; [reflexivity|].
  rewrite insert_by_In, IH. intuition congruence.
Qed.

Lemma insert_by_ascending {A : Type} (key : A -> Z) (x : A) (l : list A) :
  ascending key l -> ascending key (insert_by key x l).
Proof.
  unfold ascending. induction 1 as [|y l Hl IH Hy]; simpl.
  - repeat constructor.
  - destruct (key x <=? key y) eqn:Hxy.
    + apply Z.leb_le in Hxy. constructor; [now constructor|].
      constructor; [exact Hxy|].
      eapply Forall_impl; [|exact Hy]. intros z Hz. simpl in Hz. lia.
    + apply Z.leb_gt in Hxy. constructor; [exact IH|].
      apply Forall_forall. intros z Hz. apply insert_by_In in Hz as [->|Hz]; [lia|].
      exact (proj1 (Forall_forall _ _) Hy z Hz).
Qed.

Lemma insert_by_permutation {A : Type} (key : A -> Z) (x : A) (l : list A) :
  Permutation (insert_by key x l) (x :: l).
Proof.
  induction l as [|y l IH]; simpl; [reflexivity|].
  destruct (key x <=? key y); [reflexivity|].
  rewrite IH. apply perm_swap.
Qed.

Lemma sort_by_permutation {A : Type} (key : A -> Z) (l : list A) :
  Permutation (sort_by key l) l.
Proof.
  unfold sort_by. induction l as [|x l IH]; simpl; [reflexivity|].
  rewrite insert_by_permutation. now constructor.
Qed.

Lemma sort_by_ascending {A : Type} (key : A -> Z) (l : list A) :
  ascending key (sort_by key l).
Proof.
  unfold sort_by. induction l as [|x l IH]; simpl; [constructor|].
  now apply insert_by_ascending.
Qed.

Lemma sort_by_desc_descending {A : Type} (key : A -> Z) (l : list A) :
  descending key (sort_by_desc key l).
Proof.
  unfold sort_by_desc, descending.
  pose proof (sort_by_ascending (fun x => - key x) l) as H. unfold ascending in H.
  induction H as [|x l' Hl IH Hx]; constructor; [exact IH|].
  eapply Forall_impl; [|exact Hx]. intros y Hy. simpl in Hy. lia.
Qed.


Lemma sorted_skipn {A : Type} (R : A -> A -> Prop) (n : nat) (l : list A) :
  StronglySorted R l -> StronglySorted R (skipn n l).
Proof.
  revert l. induction n as [|n IH]; intros l H; simpl; [exact H|].
  destruct l as [|x l]; [constructor|]. apply IH. now inversion H.
Qed.

Lemma sorted_firstn {A : Type} (R : A -> A -> Prop) (n : nat) (l : list A) :
  StronglySorted R l -> StronglySorted R (firstn n l).
Proof.
  revert l. induction n as [|n IH]; intros l H; simpl; [constructor|].
  destruct l as [|x l]; [constructor|].
  inversion H as [|y l' Hl Hx]; subst. constructor; [now apply IH|].
  apply Forall_forall. intros y Hy.
  assert (In y l).
  { rewrite <- (firstn_skipn n l). apply in_or_app. now left. }
  exact (proj1 (Forall_forall _ _) Hx y H0).
Qed.

Lemma page_of_sorted {A : Type} (R : A -> A -> Prop) (skip take : Z) (l : list A) :
  StronglySorted R l -> StronglySorted R (page_of skip take l).
Proof. intros H. unfold page_of. now apply sorted_firstn, sorted_skipn. Qed.

Lemma sorted_map_fst {A B : Type} (R : A -> A -> Prop) (f : A -> B) (l : list A) :
  StronglySorted R l -> map fst (map (fun x => (x, f x)) l) = l.
Proof. intros _. rewrite map_map. simpl. apply map_id. Qed.

(** *** Reading numbers *)

Lemma digit_is_plain (c : ascii) (d : Z) :
  Js.digitValue c = Some d ->
  Js.isWhiteSpace c = false /\ c <> "-"%char /\ c <> "+"%char /\ 0 <= d <= 9.
Proof.
  destruct c as [[] [] [] [] [] [] [] []]; vm_compute; intros H;
    try discriminate H; injection H as <-;
    repeat split; try discriminate; congruence.
Qed.

Lemma digitPrefix_allDigits (s : string) (acc : Z) :
  Js.allDigits s = true -> 0 <= acc ->
  exists n, Js.digitPrefix s true acc = Some n /\ 0 <= n.
Proof.
  revert acc. induction s as [|c s IH]; intros acc Hs Hacc;
    cbn [Js.digitPrefix Js.allDigits] in *; [eauto|].
  destruct (Js.digitValue c) as [d|] eqn:Hd; [|discriminate].
  apply digit_is_plain in Hd as (_ & _ & _ & Hd).
  apply IH; [exact Hs|lia].
Qed.

(** A string of digits is read by [parseInt] as the number [Number]
    gives, which is not negative. *)
Lemma parseInt_of_digits (s : string) :
  Js.matchesDigits s = true ->
  Js.parseInt s = Some (Js.Number s) /\ 0 <= Js.Number s.
Proof.
  destruct s as [|c s]; [discriminate|]. cbn [Js.matchesDigits Js.allDigits].
  destruct (Js.digitValue c) as [d|] eqn:Hd; [|discriminate]. intros Hs.
  destruct (digit_is_plain c d Hd) as (Hw & Hm & Hp & Hr).
  destruct (digitPrefix_allDigits s (10 * 0 + d) Hs) as (n & Hn & Hn0); [lia|].
  assert (Hpre : Js.digitPrefix (String c s) false 0 = Some n)
    by (cbn [Js.digitPrefix]; now rewrite Hd).
  unfold Js.Number. rewrite Hpre. split; [|exact Hn0].
  unfold Js.parseInt. cbn [Js.trimStart]. rewrite Hw.
  destruct c as [[] [] [] [] [] [] [] []]; try exact Hpre; congruence.
Qed.

Lemma in_filter_other {A : Type} (key : A -> Z) (id : Z) (l : list A) (x : A) :
  In x (filter (fun y => negb (key y =? id)) l) <-> In x l /\ key x <> id.
Proof.
  rewrite filter_In, negb_true_iff, Z.eqb_neq. reflexivity.
Qed.

Section Keys.
Context {Row Key : Type} (key : Row -> Key).

Lemma filter_keeps_keys (keep : Row -> bool) (rows : list Row) :
  NoDup (map key rows) -> NoDup (map key (filter keep rows)).
Proof.
  induction rows as [|row rows IH]; simpl; [auto|]. intros H.
  apply NoDup_cons_iff in H as [Hrow Hrows].
  destruct (keep row); simpl; [|auto]. constructor; [|auto].
  intros Hin. apply Hrow. apply in_map_iff in Hin as (y & Hy & Hin).
  apply filter_In in Hin as [Hin _]. apply in_map_iff. eauto.
Qed.

End Keys.

Lemma NoDup_map_snoc {A B : Type} (f : A -> B) (l : list A) (x : A) :
  NoDup (map f l) -> ~ In (f x) (map f l) -> NoDup (map f (l ++ [x])).
Proof.
  intros Hl Hx. rewrite map_app. simpl. apply NoDup_app; [exact Hl| |].
  - constructor; [intros []|constructor].
  - intros a Ha [<-|[]]. contradiction.
Qed.

Lemma not_in_map_of_existsb {A : Type} (key : A -> Z) (k : Z) (l : list A) :
  existsb (fun x => key x =? k) l = false -> ~ In k (map key l).
Proof.
  intros Hex Hin. apply in_map_iff in Hin as (x & Hk & Hx).
  assert (existsb (fun x => key x =? k) l = true).
  { apply existsb_exists. exists x. split; [exact Hx|]. now apply Z.eqb_eq. }
  congruence.
Qed.

Lemma below_not_in {A : Type} (key : A -> Z) (k : Z) (l : list A) :
  Forall (fun x => key x < k) l -> ~ In k (map key l).
Proof.
  intros Hall Hin. apply in_map_iff in Hin as (x & Hk & Hx).
  pose proof (proj1 (Forall_forall _ _) Hall x Hx) as H. simpl in H. lia.
Qed.

Lemma same_key_same_row {A : Type} (key : A -> Z) (l : list A) (x y : A) :
  NoDup (map key l) -> In x l -> In y l -> key x = key y -> x = y.
Proof.
  induction l as [|z l IH]; simpl; [tauto|]. intros H Hx Hy Hk.
  apply NoDup_cons_iff in H as [Hz Hl].
  destruct Hx as [->|Hx], Hy as [->|Hy]; auto.
  - exfalso. apply Hz. rewrite Hk. now apply in_map.
  - exfalso. apply Hz. rewrite <- Hk. now apply in_map.
Qed.

Lemma find_by_key {A : Type} (key : A -> Z) (k : Z) (l : list A) (x : A) :
  find (fun y => key y =? k) l = Some x -> In x l /\ key x = k.
Proof. intros H. apply find_some in H as [Hin Hk]. split; [exact Hin|now apply Z.eqb_eq]. Qed.

(** Rows with distinct keys have one arrangement in ascending order. *)
Lemma ascending_unique {A : Type} (key : A -> Z) (l1 l2 : list A) :
  NoDup (map key l1) -> Permutation l1 l2 ->
  ascending key l1 -> ascending key l2 -> l1 = l2.
Proof.
  unfold ascending. revert l2.
  induction l1 as [|x l1 IH]; intros l2 Hnd Hperm H1 H2.
  - now apply Permutation_nil in Hperm.
  - destruct l2 as [|y l2]; [now apply Permutation_sym, Permutation_nil in Hperm|].
    inversion H1 as [|? ? Hs1 Hx]; subst. inversion H2 as [|? ? Hs2 Hy]; subst.
    assert (Hxy : x = y).
    { assert (Hin_y : In y (x :: l1))
        by (eapply Permutation_in; [apply Permutation_sym; exact Hperm|now left]).
      assert (Hin_x : In x (y :: l2))
        by (eapply Permutation_in; [exact Hperm|now left]).
      apply (same_key_same_row key (x :: l1)); [exact Hnd|now left|exact Hin_y|].
      destruct Hin_y as [->|Hin_y]; [reflexivity|].
      destruct Hin_x as [->|Hin_x]; [reflexivity|].
      pose proof (proj1 (Forall_forall _ _) Hx y Hin_y) as Hle1.
      pose proof (proj1 (Forall_forall _ _) Hy x Hin_x) as Hle2.
      simpl in Hle1, Hle2. lia. }
    subst y. f_equal. apply IH; auto.
    + simpl in Hnd. now apply NoDup_cons_iff in Hnd.
    + now apply Permutation_cons_inv in Hperm.
Qed.

Section MoreProperties.

Context {ext : Externals}.

(** *** Deleting and updating *)

Lemma delete_review_owned (req : Request) (db : Db) (user : User.t) (id : Z)
    (r : Review.t) :
  Js.parseInt (params_id req) = Some id ->
  find (fun r => Review.id r =? id) (reviews db) = Some r ->
  Review.userId r = User.id user ->
  delete_review req user db
  = (Return (json (Message "Review deleted successfully.")),
     with_reviews_comments db
       (filter (fun r => negb (Review.id r =? id)) (reviews db))
       (filter (fun c => negb (Comment.reviewId c =? id)) (comments db))).
Proof.
  intros Hid Hfind Hown. unfold delete_review. rewrite Hid. run_task. simpl.
  rewrite Hfind. simpl.
  assert (Heq : (Review.userId r =? User.id user) = true)
    by (apply Z.eqb_eq; exact Hown).
  rewrite Heq. simpl. unfold Prisma.review.delete. now rewrite Hfind.
Qed.

(** Deleting a review of one's own removes the review and, with it,
    every comment on it; nothing else goes. *)
Theorem delete_review_cascades (now : Z) (req : Request) (db : Db) (user : User.t)
    (id : Z) (r : Review.t) :
  authenticateToken now req db = (Return (Next user), db) ->
  Js.parseInt (params_id req) = Some id ->
  find (fun r => Review.id r =? id) (reviews db) = Some r ->
  Review.userId r = User.id user ->
  let result := authenticated now req (delete_review req) db in
  fst result = Return (json (Message "Review deleted successfully."))
  /\ (forall r', In r' (reviews (snd result))
                 <-> In r' (reviews db) /\ Review.id r' <> id)
  /\ (forall c, In c (comments (snd result))
                <-> In c (comments db) /\ Comment.reviewId c <> id)
  /\ users (snd result) = users db
  /\ items (snd result) = items db.
Proof.
  intros Hauth Hid Hfind Hown result. subst result.
  rewrite (authenticated_next _ _ _ _ _ Hauth).
  rewrite (delete_review_owned req db user id r Hid Hfind Hown). simpl.
  split; [reflexivity|].
  split; [intros r'; apply (in_filter_other Review.id)|].
  split; [intros c; apply (in_filter_other Comment.reviewId)|].
  split; reflexivity.
Qed.

Lemma delete_comment_owned (req : Request) (db : Db) (user : User.t) (id : Z)
    (c : Comment.t) :
  Js.parseInt (params_id req) = Some id ->
  find (fun c => Comment.id c =? id) (comments db) = Some c ->
  Comment.userId c = User.id user ->
  delete_comment req user db
  = (Return (json (Message "Comment deleted successfully.")),
     with_comments db (filter (fun c => negb (Comment.id c =? id)) (comments db))).
Proof.
  intros Hid Hfind Hown. unfold delete_comment. rewrite Hid. run_task. simpl.
  rewrite Hfind. simpl.
  assert (Heq : (Comment.userId c =? User.id user) = true)
    by (apply Z.eqb_eq; exact Hown).
  rewrite Heq. simpl. unfold Prisma.comment.delete. now rewrite Hfind.
Qed.

(** Deleting a comment of one's own removes that comment and nothing
    else. *)
Theorem delete_comment_removes_one (now : Z) (req : Request) (db : Db) (user : User.t)
    (id : Z) (c : Comment.t) :
  authenticateToken now req db = (Return (Next user), db) ->
  Js.parseInt (params_id req) = Some id ->
  find (fun c => Comment.id c =? id) (comments db) = Some c ->
  Comment.userId c = User.id user ->
  let result := authenticated now req (delete_comment req) db in
  fst result = Return (json (Message "Comment deleted successfully."))
  /\ (forall c', In c' (comments (snd result))
                 <-> In c' (comments db) /\ Comment.id c' <> id)
  /\ reviews (snd result) = reviews db
  /\ users (snd result) = users db
  /\ items (snd result) = items db.
Proof.
  intros Hauth Hid Hfind Hown result. subst result.
  rewrite (authenticated_next _ _ _ _ _ Hauth).
  rewrite (delete_comment_owned req db user id c Hid Hfind Hown). simpl.
  split; [reflexivity|].
  split; [intros c'; apply (in_filter_other Comment.id)|].
  repeat split; reflexivity.
Qed.

Lemma update_comment_owned (now : Z) (req : Request) (db : Db) (user : User.t)
    (id : Z) (content : string) (old : Comment.t) :
  Js.parseInt (params_id req) = Some id ->
  updateCommentSchema (body req) = inr content ->
  find (fun c => Comment.id c =? id) (comments db) = Some old ->
  Comment.userId old = User.id user ->
  update_comment now req user db
  = (Return (json (CommentBody (updated_comment old content now)
                     (user_ref db (Comment.userId old)))),
     with_comments db
       (map (fun x => if Comment.id x =? id
                      then updated_comment old content now else x)
          (comments db))).
Proof.
  intros Hid Hbody Hfind Hown. unfold update_comment. rewrite Hid, Hbody.
  run_task. simpl. rewrite Hfind. simpl.
  assert (Heq : (Comment.userId old =? User.id user) = true)
    by (apply Z.eqb_eq; exact Hown).
  rewrite Heq. simpl. unfold Prisma.comment.update. now rewrite Hfind.
Qed.

Lemma find_comment_replaced (cs : list Comment.t) (id : Z) (new old : Comment.t) :
  Comment.id new = id ->
  find (fun c => Comment.id c =? id) cs = Some old ->
  find (fun c => Comment.id c =? id)
    (map (fun x => if Comment.id x =? id then new else x) cs) = Some new.
Proof.
  intros Hnew. induction cs as [|x cs IH]; simpl; [discriminate|].
  destruct (Comment.id x =? id) eqn:Hx.
  - intros _. now rewrite Hnew, Z.eqb_refl.
  - rewrite Hx. exact IH.
Qed.

Lemma find_comment_other (cs : list Comment.t) (id id' : Z) (new : Comment.t) :
  Comment.id new = id -> id' <> id ->
  find (fun c => Comment.id c =? id')
    (map (fun x => if Comment.id x =? id then new else x) cs)
  = find (fun c => Comment.id c =? id') cs.
Proof.
  intros Hnew Hne. induction cs as [|x cs IH]; simpl; [reflexivity|].
  destruct (Comment.id x =? id) eqn:Hx.
  - apply Z.eqb_eq in Hx. rewrite Hnew, Hx.
    assert (Hf : (id =? id') = false) by (apply Z.eqb_neq; congruence).
    rewrite Hf. exact IH.
  - destruct (Comment.id x =? id'); [reflexivity|exact IH].
Qed.

(** Updating a comment of one's own, with a body the schema accepts,
    replaces its content and stamps [updatedAt]; its other fields, the
    other comments and the other tables stay. *)
Theorem update_comment_replaces_content (now : Z) (req : Request) (db : Db)
    (user : User.t) (id : Z) (content : string) (old : Comment.t) :
  authenticateToken now req db = (Return (Next user), db) ->
  Js.parseInt (params_id req) = Some id ->
  updateCommentSchema (body req) = inr content ->
  find (fun c => Comment.id c =? id) (comments db) = Some old ->
  Comment.userId old = User.id user ->
  let result := authenticated now req (update_comment now req) db in
  fst result
  = Return (json (CommentBody (updated_comment old content now)
                    (user_ref db (Comment.userId old))))
  /\ find (fun c => Comment.id c =? id) (comments (snd result))
     = Some (updated_comment old content now)
  /\ (forall id', id' <> id ->
        find (fun c => Comment.id c =? id') (comments (snd result))
        = find (fun c => Comment.id c =? id') (comments db))
  /\ reviews (snd result) = reviews db
  /\ users (snd result) = users db
  /\ items (snd result) = items db.
Proof.
  intros Hauth Hid Hbody Hfind Hown result. subst result.
  rewrite (authenticated_next _ _ _ _ _ Hauth).
  rewrite (update_comment_owned now req db user id content old Hid Hbody Hfind Hown).
  assert (Hold : Comment.id old = id).
  { apply find_some in Hfind as [_ H]. now apply Z.eqb_eq. }
  simpl. repeat split.
  - eapply find_comment_replaced; eauto.
  - intros id' Hne. now apply find_comment_other.
Qed.

(** *** What each writing route does to the store *)

(** The user the gate hands on is a stored user. *)
Lemma gate_user_stored (now : Z) (req : Request) (db db' : Db) (user : User.t) :
  authenticateToken now req db = (Return (Next user), db') ->
  db' = db /\ In user (users db).
Proof.
  unfold authenticateToken, jwt_verify_id. run_task.
  destruct (Js.truthy (bearer_token (authorization req))); simpl; [|discriminate].
  destruct (jwt_verify now _) as [id|]; simpl; [|discriminate].
  destruct (find _ (users db)) as [u|] eqn:Hfind;
    [|destruct (Prisma.int32 id); discriminate].
  intros H. injection H as <- <-. split; [reflexivity|].
  now apply find_some in Hfind.
Qed.

Lemma authenticated_effect (now : Z) (req : Request) (db : Db)
    (handler : User.t -> Task Response) :
  snd (authenticated now req handler db) = db
  \/ exists user, In user (users db)
                  /\ authenticated now req handler db = handler user db.
Proof.
  unfold authenticated, bind.
  destruct (authenticateToken now req db) as [[[res|user]|e] db'] eqn:Hgate.
  - left. pose proof (authenticateToken_store now req db) as H.
    rewrite Hgate in H. exact H.
  - right. apply gate_user_stored in Hgate as [-> Hin]. eauto.
  - left. pose proof (authenticateToken_store now req db) as H.
    rewrite Hgate in H. exact H.
Qed.

Lemma behind_gate_effect (now : Z) (req : Request) (db : Db)
    (handler : User.t -> Task Reply) :
  snd (behind_gate now req handler db) = db
  \/ exists user, In user (users db)
                  /\ behind_gate now req handler db = handler user db.
Proof.
  unfold behind_gate, bind.
  destruct (authenticateToken now req db) as [[[res|user]|e] db'] eqn:Hgate.
  - left. pose proof (authenticateToken_store now req db) as H.
    rewrite Hgate in H. exact H.
  - right. apply gate_user_stored in Hgate as [-> Hin]. eauto.
  - left. pose proof (authenticateToken_store now req db) as H.
    rewrite Hgate in H. exact H.
Qed.

Lemma find_none_existsb {A : Type} (p : A -> bool) (l : list A) :
  find p l = None -> existsb p l = false.
Proof.
  intros H. apply not_true_is_false. intros Hex.
  apply existsb_exists in Hex as (x & Hx & Hp).
  now rewrite (find_none _ _ H x Hx) in Hp.
Qed.

(** A registration leaves the store as it was, or hands out a value of
    the sequence for a row that is refused, or stores the user. *)
Lemma register_effect (salt : string) (now : Z) (req : Request) (db : Db) :
  snd (register salt now req db) = db
  \/ snd (register salt now req db) = with_users db (users db) (nextUserId db + 1)
  \/ exists username email password,
       registerSchema (body req) = inr (username, email, password)
       /\ existsb (fun u => String.eqb (User.email u) email
                            || String.eqb (User.username u) username)
            (users db) = false
       /\ register salt now req db
          = (Return (status_json 201
                       (Registered (nextUserId db) username email now)),
             with_users db
               (users db ++ [created_user (nextUserId db) username email
                               (bcrypt_hash salt password) now])
               (nextUserId db + 1)).
Proof.
  unfold register. run_task.
  destruct (registerSchema (body req)) as [e|[[username email] password]];
    simpl; [now left|].
  destruct (find _ (users db)); simpl; [now left|].
  unfold Prisma.user.create.
  destruct (existsb _ (users db)) eqn:Hex; simpl; [right; now left|].
  right. right. exists username, email, password. auto.
Qed.

Lemma create_review_effect (now : Z) (req : Request) (user : User.t) (db : Db) :
  snd (create_review now req user db) = db
  \/ exists rating content itemId,
       1 <= rating <= 5
       /\ existsb (fun u => User.id u =? User.id user) (users db) = true
       /\ existsb (fun i => Item.id i =? itemId) (items db) = true
       /\ existsb (fun r => (Review.userId r =? User.id user)
                            && (Review.itemId r =? itemId)) (reviews db) = false
       /\ snd (create_review now req user db)
          = with_reviews db
              (reviews db ++ [created_review (nextReviewId db) rating content
                                (User.id user) itemId now])
              (nextReviewId db + 1).
Proof.
  unfold create_review. run_task.
  destruct (createReviewSchema (body req)) as [e|[[itemId rating] content]] eqn:Hbody;
    simpl; [now left|].
  apply createReviewSchema_range in Hbody.
  destruct (find _ (reviews db)) eqn:Hfind; simpl; [now left|].
  apply find_none_existsb in Hfind.
  unfold Prisma.review.create. run_task.
  unfold Prisma.review.insert. rewrite Hfind.
  destruct (negb (existsb _ (users db))) eqn:Hu; simpl; [now left|].
  destruct (negb (existsb _ (items db))) eqn:Hi; simpl; [now left|].
  right. exists (Prisma.int rating), content, (Prisma.int itemId).
  apply negb_false_iff in Hu, Hi.
  repeat split; auto; now apply stored_rating_range.
Qed.

(** An update leaves the store as it was, or replaces one review by a
    row with the same id, author and item, whose rating is the one
    stored before or lies between 1 and 5. *)
Lemma update_review_effect (now : Z) (req : Request) (user : User.t) (db : Db) :
  snd (update_review now req user db) = db
  \/ exists id old new,
       find (fun r => Review.id r =? id) (reviews db) = Some old
       /\ Review.id new = Review.id old
       /\ Review.userId new = Review.userId old
       /\ Review.itemId new = Review.itemId old
       /\ (Review.rating new = Review.rating old \/ 1 <= Review.rating new <= 5)
       /\ snd (update_review now req user db)
          = with_reviews db
              (map (fun x => if Review.id x =? id then new else x) (reviews db))
              (nextReviewId db).
Proof.
  unfold update_review.
  destruct (Js.parseInt (params_id req)) as [id|]; [|now left]. run_task.
  destruct (updateReviewSchema (body req)) as [e|[rating content]] eqn:Hbody;
    simpl; [now left|].
  destruct (find _ (reviews db)) as [old|] eqn:Hfind; simpl;
    [|destruct (Prisma.int32 id); now left].
  destruct (negb _); simpl; [now left|].
  unfold Prisma.review.update. rewrite Hfind. simpl. right.
  eexists id, old, _. split; [exact Hfind|].
  split; [|split; [|split; [|split; [|reflexivity]]]]; try reflexivity.
  simpl. destruct rating as [q|].
  - right. apply stored_rating_range. now apply updateReviewSchema_range in Hbody.
  - left. now apply int_integer.
Qed.

Lemma delete_review_effect (req : Request) (user : User.t) (db : Db) :
  snd (delete_review req user db) = db
  \/ exists id,
       snd (delete_review req user db)
       = with_reviews_comments db
           (filter (fun r => negb (Review.id r =? id)) (reviews db))
           (filter (fun c => negb (Comment.reviewId c =? id)) (comments db)).
Proof.
  unfold delete_review.
  destruct (Js.parseInt (params_id req)) as [id|]; [|now left]. run_task. simpl.
  destruct (find _ (reviews db)) as [old|] eqn:Hfind; simpl;
    [|destruct (Prisma.int32 id); now left].
  destruct (negb _); simpl; [now left|].
  unfold Prisma.review.delete. rewrite Hfind. simpl. right. now exists id.
Qed.

Lemma create_comment_effect (commentId now : Z) (req : Request) (user : User.t) (db : Db) :
  snd (create_comment commentId now req user db) = db
  \/ exists content reviewId,
       existsb (fun u => User.id u =? User.id user) (users db) = true
       /\ existsb (fun r => Review.id r =? reviewId) (reviews db) = true
       /\ existsb (fun c => Comment.id c =? commentId) (comments db) = false
       /\ snd (create_comment commentId now req user db)
          = with_comments db
              (comments db ++ [created_comment commentId content (User.id user)
                                 reviewId now]).
Proof.
  unfold create_comment, catch_zod_reply. run_task.
  destruct (createCommentSchema (body req)) as [e|[reviewId content]];
    simpl; [destruct e; now left|].
  destruct (find _ (reviews db)); simpl;
    [|destruct (Prisma.int32 (Prisma.int reviewId)); now left].
  unfold prisma_comment_create.
  destruct (negb (existsb _ (users db))) eqn:Hu; simpl; [now left|].
  destruct (negb (existsb _ (reviews db))) eqn:Hr; simpl; [now left|].
  destruct (existsb _ (comments db)) eqn:Hc; simpl; [now left|].
  right. exists content, (Prisma.int reviewId). apply negb_false_iff in Hu, Hr. auto.
Qed.

Lemma update_comment_effect (now : Z) (req : Request) (user : User.t) (db : Db) :
  snd (update_comment now req user db) = db
  \/ exists id old content,
       find (fun c => Comment.id c =? id) (comments db) = Some old
       /\ snd (update_comment now req user db)
          = with_comments db
              (map (fun x => if Comment.id x =? id
                             then updated_comment old content now else x)
                 (comments db)).
Proof.
  unfold update_comment.
  destruct (Js.parseInt (params_id req)) as [id|]; [|now left]. run_task.
  destruct (updateCommentSchema (body req)) as [e|content]; simpl; [now left|].
  destruct (find _ (comments db)) as [old|] eqn:Hfind; simpl;
    [|destruct (Prisma.int32 id); now left].
  destruct (negb _); simpl; [now left|].
  unfold Prisma.comment.update. rewrite Hfind. simpl.
  right. exists id, old, content. auto.
Qed.

Lemma delete_comment_effect (req : Request) (user : User.t) (db : Db) :
  snd (delete_comment req user db) = db
  \/ exists id,
       snd (delete_comment req user db)
       = with_comments db
           (filter (fun c => negb (Comment.id c =? id)) (comments db)).
Proof.
  unfold delete_comment.
  destruct (Js.parseInt (params_id req)) as [id|]; [|now left]. run_task. simpl.
  destruct (find _ (comments db)) as [old|] eqn:Hfind; simpl;
    [|destruct (Prisma.int32 id); now left].
  destruct (negb _); simpl; [now left|].
  unfold Prisma.comment.delete. rewrite Hfind. simpl. right. now exists id.
Qed.

(** *** The keys and the unique constraints are kept *)

Lemma users_unique_append (db : Db) (username email password : string) (now : Z) :
  users_unique db ->
  existsb (fun u => String.eqb (User.email u) email
                    || String.eqb (User.username u) username) (users db) = false ->
  users_unique
    (with_users db
       (users db ++ [created_user (nextUserId db) username email password now])
       (nextUserId db + 1)).
Proof.
  intros (He & Hn & Hi & Hb) Hex. unfold users_unique. simpl.
  assert (Hfresh : forall u, In u (users db) ->
            User.email u <> email /\ User.username u <> username).
  { intros u Hu. split; intros Heq;
      assert (existsb (fun u => String.eqb (User.email u) email
                                || String.eqb (User.username u) username)
                (users db) = true)
        by (apply existsb_exists; exists u; split; [exact Hu|];
            rewrite Heq, String.eqb_refl; auto using orb_true_r);
      congruence. }
  repeat split.
  - apply NoDup_map_snoc; [exact He|]. simpl. intros Hin.
    apply in_map_iff in Hin as (u & Hu & Hin).
    destruct (Hfresh u Hin); congruence.
  - apply NoDup_map_snoc; [exact Hn|]. simpl. intros Hin.
    apply in_map_iff in Hin as (u & Hu & Hin).
    destruct (Hfresh u Hin); congruence.
  - apply NoDup_map_snoc; [exact Hi|]. simpl. now apply below_not_in.
  - apply Forall_app. split.
    + eapply Forall_impl; [|exact Hb]. intros u Hu. simpl in Hu. lia.
    + repeat constructor. simpl. lia.
Qed.

Lemma review_keys_append (db : Db) (rating : Z) (content : string) (userId itemId now : Z) :
  review_keys_fresh db ->
  review_keys_fresh
    (with_reviews db
       (reviews db ++ [created_review (nextReviewId db) rating content userId itemId now])
       (nextReviewId db + 1)).
Proof.
  intros [Hi Hb]. unfold review_keys_fresh. simpl. split.
  - apply NoDup_map_snoc; [exact Hi|]. simpl. now apply below_not_in.
  - apply Forall_app. split.
    + eapply Forall_impl; [|exact Hb]. intros r Hr. simpl in Hr. lia.
    + repeat constructor. simpl. lia.
Qed.

Lemma review_pairs_append (db : Db) (rating : Z) (content : string) (userId itemId now : Z) :
  one_review_per_pair (reviews db) ->
  existsb (fun r => (Review.userId r =? userId) && (Review.itemId r =? itemId))
    (reviews db) = false ->
  one_review_per_pair
    (reviews db ++ [created_review (nextReviewId db) rating content userId itemId now]).
Proof.
  intros Hp Hex. unfold one_review_per_pair.
  apply NoDup_map_snoc; [exact Hp|]. simpl. now apply pair_taken.
Qed.

Lemma users_unique_sequence (db : Db) :
  users_unique db -> users_unique (with_users db (users db) (nextUserId db + 1)).
Proof.
  intros (He & Hn & Hi & Hb). unfold users_unique. simpl. repeat split; auto.
  eapply Forall_impl; [|exact Hb]. intros u Hu. simpl in Hu. lia.
Qed.

Lemma review_update_keeps_columns (rs : list Review.t) (id : Z) (old new : Review.t) :
  NoDup (map Review.id rs) ->
  find (fun r => Review.id r =? id) rs = Some old ->
  Review.id new = Review.id old ->
  Review.userId new = Review.userId old ->
  Review.itemId new = Review.itemId old ->
  let rs' := map (fun x => if Review.id x =? id then new else x) rs in
  map Review.id rs' = map Review.id rs
  /\ map (fun r => (Review.userId r, Review.itemId r)) rs'
     = map (fun r => (Review.userId r, Review.itemId r)) rs.
Proof.
  intros Hnd Hfind Hi Hu Hit rs'. subst rs'. apply find_by_key in Hfind as [Hin Hid].
  rewrite !map_map. split; apply map_ext_in; intros x Hx;
    destruct (Review.id x =? id) eqn:Hxid; try reflexivity;
    apply Z.eqb_eq in Hxid;
    assert (x = old) by (apply (same_key_same_row Review.id rs); congruence);
    subst x; congruence.
Qed.

Lemma comment_update_keeps_ids (cs : list Comment.t) (id : Z) (old : Comment.t)
    (content : string) (now : Z) :
  find (fun c => Comment.id c =? id) cs = Some old ->
  map Comment.id
    (map (fun x => if Comment.id x =? id then updated_comment old content now else x) cs)
  = map Comment.id cs.
Proof.
  intros Hfind. apply find_by_key in Hfind as [_ Hid].
  rewrite map_map. apply map_ext. intros x.
  destruct (Comment.id x =? id) eqn:Hx; [|reflexivity].
  apply Z.eqb_eq in Hx. simpl. congruence.
Qed.

Lemma write_keeps_keys (w : Write) (now : Z) (req : Request) (db : Db) :
  keys_unique db -> keys_unique (write w now req db).
Proof.
  intros Hinv. pose proof Hinv as (Hu & Hk & Hp & Hc).
  destruct w as [salt| | | |commentId| |]; cbn [write].
  - destruct (register_effect salt now req db)
      as [->|[->|(username & email & password & _ & Hex & ->)]]; [exact Hinv| |].
    + split; [now apply users_unique_sequence|].
      split; [exact Hk|]. split; [exact Hp|exact Hc].
    + split; [now apply users_unique_append|].
      split; [exact Hk|]. split; [exact Hp|exact Hc].
  - destruct (authenticated_effect now req db (create_review now req))
      as [->|(user & _ & ->)]; [exact Hinv|].
    destruct (create_review_effect now req user db)
      as [->|(rating & content & itemId & _ & _ & _ & Hex & ->)]; [exact Hinv|].
    split; [exact Hu|]. split; [now apply review_keys_append|].
    split; [now apply review_pairs_append|exact Hc].
  - destruct (authenticated_effect now req db (update_review now req))
      as [->|(user & _ & ->)]; [exact Hinv|].
    destruct (update_review_effect now req user db)
      as [->|(id & old & new & Hfind & Hnid & Hnu & Hni & _ & ->)]; [exact Hinv|].
    destruct Hk as [Hi Hb].
    destruct (review_update_keeps_columns (reviews db) id old new
                Hi Hfind Hnid Hnu Hni) as [Hids Hpairs].
    split; [exact Hu|]. unfold review_keys_fresh, one_review_per_pair. simpl.
    rewrite Hids, Hpairs. repeat split; auto.
    apply Forall_forall. intros r Hr. apply in_map_iff in Hr as (x & <- & Hx).
    pose proof (proj1 (Forall_forall _ _) Hb) as Hb'.
    destruct (Review.id x =? id); [|now apply Hb'].
    rewrite Hnid. apply find_by_key in Hfind as [Hin _]. now apply Hb'.
  - destruct (authenticated_effect now req db (delete_review req))
      as [->|(user & _ & ->)]; [exact Hinv|].
    destruct (delete_review_effect req user db) as [->|(id & ->)]; [exact Hinv|].
    destruct Hk as [Hi Hb].
    split; [exact Hu|]. unfold review_keys_fresh, one_review_per_pair,
      comment_keys_unique. simpl.
    repeat split; try now apply filter_keeps_keys.
    apply Forall_forall. intros r Hr. apply filter_In in Hr as [Hr _].
    exact (proj1 (Forall_forall _ _) Hb r Hr).
  - destruct (behind_gate_effect now req db (create_comment commentId now req))
      as [->|(user & _ & ->)]; [exact Hinv|].
    destruct (create_comment_effect commentId now req user db)
      as [->|(content & reviewId & _ & _ & Hex & ->)]; [exact Hinv|].
    split; [exact Hu|]. split; [exact Hk|]. split; [exact Hp|].
    unfold comment_keys_unique. simpl.
    apply NoDup_map_snoc; [exact Hc|]. simpl. now apply not_in_map_of_existsb.
  - destruct (authenticated_effect now req db (update_comment now req))
      as [->|(user & _ & ->)]; [exact Hinv|].
    destruct (update_comment_effect now req user db)
      as [->|(id & old & content & Hfind & ->)]; [exact Hinv|].
    split; [exact Hu|]. split; [exact Hk|]. split; [exact Hp|].
    unfold comment_keys_unique. simpl.
    now rewrite (comment_update_keeps_ids _ _ _ _ _ Hfind).
  - destruct (authenticated_effect now req db (delete_comment req))
      as [->|(user & _ & ->)]; [exact Hinv|].
    destruct (delete_comment_effect req user db) as [->|(id & ->)]; [exact Hinv|].
    split; [exact Hu|]. split; [exact Hk|]. split; [exact Hp|].
    unfold comment_keys_unique. simpl. now apply filter_keeps_keys.
Qed.

(** Whatever requests are served, in whatever order, the store keeps
    its keys and unique constraints: user e-mails, usernames and ids,
    review ids below their sequence, one review per user and item,
    comment ids. *)
Theorem replay_keeps_keys (calls : list (Write * Z * Request)) (db : Db) :
  keys_unique db -> keys_unique (replay calls db).
Proof.
  revert db. induction calls as [|[[w now] req] calls IH]; intros db Hinv;
    [exact Hinv|].
  cbn [replay]. apply IH. now apply write_keeps_keys.
Qed.

(** *** The ratings stay in range and the relations hold *)

Lemma write_keeps_ratings (w : Write) (now : Z) (req : Request) (db : Db) :
  ratings_in_range (reviews db) -> ratings_in_range (reviews (write w now req db)).
Proof.
  intros Hinv. pose proof (proj1 (Forall_forall _ _) Hinv) as Hall.
  destruct w as [salt| | | |commentId| |]; cbn [write].
  - destruct (register_effect salt now req db)
      as [->|[->|(username & email & password & _ & _ & ->)]]; exact Hinv.
  - destruct (authenticated_effect now req db (create_review now req))
      as [->|(user & _ & ->)]; [exact Hinv|].
    destruct (create_review_effect now req user db)
      as [->|(rating & content & itemId & Hr & _ & _ & _ & ->)]; [exact Hinv|].
    simpl. apply Forall_app. split; [exact Hinv|]. now repeat constructor.
  - destruct (authenticated_effect now req db (update_review now req))
      as [->|(user & _ & ->)]; [exact Hinv|].
    destruct (update_review_effect now req user db)
      as [->|(id & old & new & Hfind & _ & _ & _ & Hr & ->)]; [exact Hinv|].
    simpl. apply Forall_forall. intros r Hin.
    apply in_map_iff in Hin as (x & <- & Hx).
    destruct (Review.id x =? id); [|now apply Hall].
    destruct Hr as [->|Hr]; [|exact Hr].
    apply find_by_key in Hfind as [Hin _]. now apply Hall.
  - destruct (authenticated_effect now req db (delete_review req))
      as [->|(user & _ & ->)]; [exact Hinv|].
    destruct (delete_review_effect req user db) as [->|(id & ->)]; [exact Hinv|].
    simpl. apply Forall_forall. intros r Hr. apply filter_In in Hr as [Hr _].
    now apply Hall.
  - destruct (behind_gate_effect now req db (create_comment commentId now req))
      as [->|(user & _ & ->)]; [exact Hinv|].
    destruct (create_comment_effect commentId now req user db)
      as [->|(content & reviewId & _ & _ & _ & ->)]; exact Hinv.
  - destruct (authenticated_effect now req db (update_comment now req))
      as [->|(user & _ & ->)]; [exact Hinv|].
    destruct (update_comment_effect now req user db)
      as [->|(id & old & content & _ & ->)]; exact Hinv.
  - destruct (authenticated_effect now req db (delete_comment req))
      as [->|(user & _ & ->)]; [exact Hinv|].
    destruct (delete_comment_effect req user db) as [->|(id & ->)]; exact Hinv.
Qed.

(** Whatever requests are served, every stored rating stays between 1
    and 5. *)
Theorem replay_keeps_ratings (calls : list (Write * Z * Request)) (db : Db) :
  ratings_in_range (reviews db) -> ratings_in_range (reviews (replay calls db)).
Proof.
  revert db. induction calls as [|[[w now] req] calls IH]; intros db Hinv;
    [exact Hinv|].
  cbn [replay]. apply IH. now apply write_keeps_ratings.
Qed.

Lemma existsb_snoc {A : Type} (p : A -> bool) (l : list A) (x : A) :
  existsb p l = true -> existsb p (l ++ [x]) = true.
Proof. intros H. rewrite existsb_app, H. reflexivity. Qed.

Lemma existsb_map_same {A : Type} (p : A -> bool) (g : A -> A) (l : list A) :
  (forall x, In x l -> p (g x) = p x) -> existsb p (map g l) = existsb p l.
Proof.
  induction l as [|x l IH]; intros H; simpl; [reflexivity|].
  rewrite H by now left. rewrite IH; [reflexivity|]. intros y Hy. apply H. now right.
Qed.

Lemma existsb_filter_other {A : Type} (key : A -> Z) (k id : Z) (l : list A) :
  k <> id ->
  existsb (fun x => key x =? k) l = true ->
  existsb (fun x => key x =? k) (filter (fun x => negb (key x =? id)) l) = true.
Proof.
  intros Hne Hex. apply existsb_exists in Hex as (x & Hx & Hk).
  apply existsb_exists. exists x. split; [|exact Hk].
  apply in_filter_other. split; [exact Hx|]. apply Z.eqb_eq in Hk. congruence.
Qed.

Lemma write_keeps_references (w : Write) (now : Z) (req : Request) (db : Db) :
  references_hold db -> references_hold (write w now req db).
Proof.
  intros Hinv. pose proof Hinv as [Hrev Hcom].
  destruct w as [salt| | | |commentId| |]; cbn [write].
  - destruct (register_effect salt now req db)
      as [->|[->|(username & email & password & _ & _ & ->)]];
      [exact Hinv|exact Hinv|].
    split; simpl.
    + intros r Hr. destruct (Hrev r Hr). split; [now apply existsb_snoc|assumption].
    + intros c Hc. destruct (Hcom c Hc). split; [now apply existsb_snoc|assumption].
  - destruct (authenticated_effect now req db (create_review now req))
      as [->|(user & _ & ->)]; [exact Hinv|].
    destruct (create_review_effect now req user db)
      as [->|(rating & content & itemId & _ & Hu & Hi & _ & ->)]; [exact Hinv|].
    split; simpl.
    + intros r Hr. apply in_app_or in Hr as [Hr|[<-|[]]]; [now apply Hrev|].
      simpl. now split.
    + intros c Hc. destruct (Hcom c Hc). split; [assumption|now apply existsb_snoc].
  - destruct (authenticated_effect now req db (update_review now req))
      as [->|(user & _ & ->)]; [exact Hinv|].
    destruct (update_review_effect now req user db)
      as [->|(id & old & new & Hfind & Hnid & Hnu & Hni & _ & ->)]; [exact Hinv|].
    apply find_by_key in Hfind as [Hold Hid].
    split; simpl.
    + intros r Hr. apply in_map_iff in Hr as (x & <- & Hx).
      destruct (Review.id x =? id); [|now apply Hrev].
      rewrite Hnu, Hni. now apply Hrev.
    + intros c Hc. destruct (Hcom c Hc) as [Hu Hr]. split; [exact Hu|].
      rewrite existsb_map_same; [exact Hr|]. intros x _.
      destruct (Review.id x =? id) eqn:Hx; [|reflexivity].
      apply Z.eqb_eq in Hx. now rewrite Hnid, Hid, Hx.
  - destruct (authenticated_effect now req db (delete_review req))
      as [->|(user & _ & ->)]; [exact Hinv|].
    destruct (delete_review_effect req user db) as [->|(id & ->)]; [exact Hinv|].
    split; simpl.
    + intros r Hr. apply filter_In in Hr as [Hr _]. now apply Hrev.
    + intros c Hc. apply (in_filter_other Comment.reviewId) in Hc as [Hc Hne].
      destruct (Hcom c Hc) as [Hu Hr]. split; [exact Hu|].
      now apply (existsb_filter_other Review.id).
  - destruct (behind_gate_effect now req db (create_comment commentId now req))
      as [->|(user & _ & ->)]; [exact Hinv|].
    destruct (create_comment_effect commentId now req user db)
      as [->|(content & reviewId & Hu & Hr & _ & ->)]; [exact Hinv|].
    split; simpl; [exact Hrev|].
    intros c Hc. apply in_app_or in Hc as [Hc|[<-|[]]]; [now apply Hcom|].
    simpl. now split.
  - destruct (authenticated_effect now req db (update_comment now req))
      as [->|(user & _ & ->)]; [exact Hinv|].
    destruct (update_comment_effect now req user db)
      as [->|(id & old & content & Hfind & ->)]; [exact Hinv|].
    apply find_by_key in Hfind as [Hold Hid].
    split; simpl; [exact Hrev|].
    intros c Hc. apply in_map_iff in Hc as (x & <- & Hx).
    destruct (Comment.id x =? id); [|now apply Hcom].
    simpl. now apply Hcom.
  - destruct (authenticated_effect now req db (delete_comment req))
      as [->|(user & _ & ->)]; [exact Hinv|].
    destruct (delete_comment_effect req user db) as [->|(id & ->)]; [exact Hinv|].
    split; simpl; [exact Hrev|].
    intros c Hc. apply filter_In in Hc as [Hc _]. now apply Hcom.
Qed.

(** Whatever requests are served, every stored review has its user and
    its item, and every stored comment has its user and its review:
    the cascade of DELETE /reviews/:id leaves no orphan. *)
Theorem replay_keeps_references (calls : list (Write * Z * Request)) (db : Db) :
  references_hold db -> references_hold (replay calls db).
Proof.
  revert db. induction calls as [|[[w now] req] calls IH]; intros db Hinv;
    [exact Hinv|].
  cbn [replay]. apply IH. now apply write_keeps_references.
Qed.

(** *** The listings *)



Lemma digits_number_nonneg (p : string) (v : option jval) (n : Z) :
  Zod.digits_number p v = inr n -> 0 <= n.
Proof.
  unfold Zod.digits_number, Zod.digits.
  destruct (Zod.string_ p v) as [e|s]; [discriminate|].
  destruct (Js.matchesDigits s) eqn:Hs; [|discriminate].
  intros H. injection H as <-. now apply parseInt_of_digits.
Qed.

Lemma getCommentsSchema_accepts (req : Request) (rid : string) (page limit : Z) :
  getCommentsSchema req = inr (rid, page, limit) ->
  query_property req "reviewId" = Some (JStr rid)
  /\ Js.parseInt rid = Some (Js.Number rid)
  /\ 0 <= Js.Number rid /\ 0 <= page /\ 0 <= limit.
Proof.
  unfold getCommentsSchema.
  destruct (Zod.digits "reviewId" _) as [e|r] eqn:Hr;
    [destruct (Zod.default _ _ "page" _), (Zod.default _ _ "limit" _); discriminate|].
  destruct (Zod.default _ _ "page" _) as [e|p] eqn:Hp;
    [destruct (Zod.default _ _ "limit" _); discriminate|].
  destruct (Zod.default _ _ "limit" _) as [e|l] eqn:Hl; [discriminate|].
  intros H. injection H as -> -> ->.
  assert (Hrid : query_property req "reviewId" = Some (JStr rid)
                 /\ Js.matchesDigits rid = true).
  { unfold Zod.digits, Zod.string_ in Hr.
    destruct (query_property req "reviewId") as [[]|]; try discriminate.
    destruct (Js.matchesDigits s) eqn:Hs; [|discriminate].
    injection Hr as ->. auto. }
  destruct Hrid as [Hq Hd]. apply parseInt_of_digits in Hd as [Hparse Hpos].
  repeat split; auto.
  - unfold Zod.default in Hp.
    destruct (query_property req "page"); now apply digits_number_nonneg in Hp.
  - unfold Zod.default in Hl.
    destruct (query_property req "limit"); now apply digits_number_nonneg in Hl.
Qed.


(** The comments GET /comments returns are stored comments of the
    review asked for, each with its author, at most [limit] of them,
    from the oldest to the newest. *)
Theorem get_comments_ascending (req : Request) (db db' : Db) (page limit : Z)
    (listed : list (Comment.t * option UserRef)) :
  get_comments req db = (Return (json (CommentsPage page limit listed)), db') ->
  db' = db
  /\ (List.length listed <= Z.to_nat limit)%nat
  /\ ascending Comment.createdAt (map fst listed)
  /\ exists rid,
       query_property req "reviewId" = Some (JStr rid)
       /\ forall c author, In (c, author) listed ->
            In c (comments db)
            /\ Comment.reviewId c = Js.Number rid
            /\ author = user_ref db (Comment.userId c).
Proof.
  unfold get_comments. run_task.
  destruct (getCommentsSchema req) as [e|[[rid p] l]] eqn:Hq; simpl;
    [discriminate|].
  pose proof (getCommentsSchema_accepts req rid p l Hq) as (Hrid & Hparse & _).
  rewrite Hparse. simpl.
  destruct (find _ (reviews db)); simpl;
    [|destruct (Prisma.int32 _); discriminate].
  unfold Prisma.comment.findMany_reviewId.
  destruct ((p - 1) * l <? 0); simpl; [discriminate|].
  intros H. injection H as -> -> <- <-.
  split; [reflexivity|]. split; [|split].
  - rewrite length_map. apply page_of_length.
  - rewrite map_map. simpl. rewrite map_id.
    apply page_of_sorted, sort_by_ascending.
  - exists rid. split; [exact Hrid|]. intros c author Hin.
    apply in_map_iff in Hin as (x & Hx & Hin). injection Hx as -> <-.
    apply in_page_of, sort_by_In, filter_In in Hin as [Hin Hr].
    apply Z.eqb_eq in Hr. auto.
Qed.


(** GET /reviews/:id answers 400 "Invalid review ID" when [parseInt]
    reads the path parameter as [NaN] and 500 "Internal server error"
    for every number, stored or not: its query reads the identifier
    [id], which is bound nowhere in the module. GET /reviews/user/me
    answers 500 for every caller for the same reason. Neither writes. *)
Theorem review_reads_end_in_catch (req : Request) (user : User.t) (db : Db) :
  get_review req db
  = (Return (reply (if Js.isNaN (Js.parseInt (params_id req)) then 400 else 500)
               (Plain (Error (if Js.isNaN (Js.parseInt (params_id req))
                              then "Invalid review ID"
                              else "Internal server error")))),
     db)
  /\ get_own_reviews user db
     = (Return (reply 500 (Plain (Error "Internal server error"))), db).
Proof.
  split; [|reflexivity].
  unfold get_review. destruct (Js.parseInt (params_id req)); reflexivity.
Qed.

(** GET /comments/user/me answers 200 with exactly the stored comments
    of the caller, each once and with its review, from the newest to
    the oldest, and writes nothing. *)
Theorem get_own_comments_complete (user : User.t) (db : Db) :
  exists listed,
    get_own_comments user db = (Return (reply 200 (OwnComments listed)), db)
    /\ Permutation (map fst listed)
         (filter (fun c => Comment.userId c =? User.id user) (comments db))
    /\ descending Comment.createdAt (map fst listed)
    /\ forall c about, In (c, about) listed ->
         about = review_ref db (Comment.reviewId c).
Proof.
  eexists. split; [reflexivity|].
  rewrite map_map. simpl. rewrite map_id. split; [|split].
  - apply sort_by_permutation.
  - apply sort_by_desc_descending.
  - intros c about Hin. apply in_map_iff in Hin as (x & Hx & _).
    now injection Hx as -> <-.
Qed.

(** *** Creating a comment *)

(** POST /comments with a body its schema accepts. The review asked
    for is the one whose id is [reviewId] without its fraction. When no
    review has that id the answer is 404 "Review not found." if the id
    is in the range of the key and 500 if it is not, and nothing is
    stored. When the review is stored and the sequence hands out an id
    no comment has, the answer is 201 and the comment is stored after
    the others as the caller's comment on that review. *)
Theorem create_comment_outcomes (commentId now : Z) (req : Request) (db : Db)
    (user : User.t) (reviewId : Q) (content : string) (id : Z) :
  authenticateToken now req db = (Return (Next user), db) ->
  createCommentSchema (body req) = inr (reviewId, content) ->
  truncated reviewId id = true ->
  (find (fun r => Review.id r =? id) (reviews db) = None ->
   (- 2147483648 <= id <= 2147483647 ->
    behind_gate now req (create_comment commentId now req) db
    = (Return (reply 404 (Plain (Error "Review not found."))), db))
   /\ (~ - 2147483648 <= id <= 2147483647 ->
       behind_gate now req (create_comment commentId now req) db
       = (Return (reply 500 (Plain (Error "Internal server error"))), db)))
  /\ (forall r, find (fun r => Review.id r =? id) (reviews db) = Some r ->
        existsb (fun c => Comment.id c =? commentId) (comments db) = false ->
        let c := created_comment commentId content (User.id user) id now in
        behind_gate now req (create_comment commentId now req) db
        = (Return (reply 201 (CommentCreated c (user_ref db (User.id user))
                                (review_ref db id))),
           with_comments db (comments db ++ [c]))).
Proof.
  intros Hauth Hbody Hid. apply int_truncated in Hid.
  assert (Hgate : behind_gate now req (create_comment commentId now req) db
                  = create_comment commentId now req user db)
    by (unfold behind_gate, bind; now rewrite Hauth).
  rewrite Hgate. apply gate_user_stored in Hauth as [_ Huser].
  unfold create_comment, catch_zod_reply. run_task. rewrite Hbody. simpl.
  rewrite Hid. split.
  - intros ->. split; intros Hrange.
    + apply int32_range in Hrange. now rewrite Hrange.
    + apply int32_out_of_range in Hrange. now rewrite Hrange.
  - intros r Hfind Hfresh. rewrite Hfind. simpl. unfold prisma_comment_create.
    assert (Hu : existsb (fun u => User.id u =? User.id user) (users db) = true).
    { apply existsb_exists. exists user. split; [exact Huser|apply Z.eqb_refl]. }
    assert (Hr : existsb (fun r => Review.id r =? id) (reviews db) = true).
    { apply find_some in Hfind. apply existsb_exists. eauto. }
    rewrite Hu, Hr, Hfresh. reflexivity.
Qed.

(** *** Routes that only read *)

Lemma get_items_store (req : Request) (db : Db) : snd (get_items req db) = db.
Proof.
  unfold get_items. run_task.
  destruct (querySchema req) as [e|[[[search category] page] limit]]; simpl;
    [reflexivity|].
  unfold item_findMany. destruct (_ <? 0); reflexivity.
Qed.

Lemma get_review_store (req : Request) (db : Db) : snd (get_review req db) = db.
Proof. unfold get_review. destruct (Js.parseInt (params_id req)); reflexivity. Qed.

(** The gate, the login and every GET route leave the store as they
    found it, whatever the request. *)
Theorem reads_leave_store (now : Z) (req : Request) (db : Db) :
  snd (authenticateToken now req db) = db
  /\ snd (login now req db) = db
  /\ snd (get_items req db) = db
  /\ snd (get_item req db) = db
  /\ snd (get_comments req db) = db
  /\ snd (get_reviews req db) = db
  /\ snd (get_review req db) = db
  /\ snd (behind_gate now req get_own_reviews db) = db
  /\ snd (behind_gate now req get_own_comments db) = db.
Proof.
  split; [apply authenticateToken_store|].
  split; [apply login_store|].
  split; [apply get_items_store|].
  split; [unfold get_item; destruct (Js.parseInt (params_id req)); reflexivity|].
  split.
  { unfold get_comments. run_task.
    destruct (getCommentsSchema req) as [e|[[rid p] l]]; simpl; [reflexivity|].
    destruct (Js.parseInt rid) as [id|]; simpl; [|reflexivity].
    destruct (find _ (reviews db)); simpl;
      [|destruct (Prisma.int32 id); reflexivity].
    unfold Prisma.comment.findMany_reviewId.
    destruct (_ <? 0); reflexivity. }
  split.
  { unfold get_reviews, catch_zod_reply. run_task.
    destruct (getAllReviewsSchema req) as [e|[[[i u] p] l]]; simpl;
      [destruct e; reflexivity|].
    unfold prisma_review_findMany.
    destruct (filter_refused _ || filter_refused _ || _); reflexivity. }
  split; [apply get_review_store|].
  split.
  - destruct (behind_gate_effect now req db get_own_reviews)
      as [H|(user & _ & ->)]; [exact H|reflexivity].
  - destruct (behind_gate_effect now req db get_own_comments)
      as [H|(user & _ & ->)]; [exact H|reflexivity].
Qed.

(** *** Behind the gate *)

(** A request the gate does not pass reaches no handler: whatever the
    route, the response is the gate's 401 or 403 and the store is the
    one it was. *)
Theorem rejected_request_reaches_no_handler (now : Z) (req : Request) (db : Db)
    (res : Response) (handler handler' : User.t -> Task Response) :
  fst (authenticateToken now req db) = Return (Rejected res) ->
  authenticated now req handler db = (Return res, db)
  /\ authenticated now req handler db = authenticated now req handler' db
  /\ (status res = 401 \/ status res = 403).
Proof.
  intros Hgate.
  assert (Heq : authenticateToken now req db = (Return (Rejected res), db)).
  { pose proof (authenticateToken_store now req db) as Hst.
    destruct (authenticateToken now req db) as [o db']. simpl in *. congruence. }
  rewrite (authenticated_rejected now req db res handler Heq),
    (authenticated_rejected now req db res handler' Heq).
  split; [reflexivity|]. split; [reflexivity|].
  revert Hgate. unfold authenticateToken, jwt_verify_id. run_task.
  destruct (Js.truthy (bearer_token (authorization req))); simpl.
  - destruct (jwt_verify now _) as [id|]; simpl.
    + destruct (find _ (users db)); simpl; [intros H; discriminate H|].
      destruct (Prisma.int32 id); simpl; intros H; injection H as <-; auto.
    + intros H; injection H as <-; auto.
  - intros H; injection H as <-; auto.
Qed.

(** The word before the token is not looked at: any header of two
    words separated by one space passes the gate as the stored user
    the second word verifies for. *)
Theorem any_scheme_passes (now : Z) (req : Request) (db : Db)
    (scheme token : string) (id : Z) (user : User.t) :
  authorization req = Some (scheme ++ String " " token)%string ->
  Js.split " " scheme = [scheme] -> scheme <> "" ->
  Js.split " " token = [token] -> token <> "" ->
  jwt_verify now token = Some id ->
  find (fun u => User.id u =? id) (users db) = Some user ->
  authenticateToken now req db = (Return (Next user), db).
Proof.
  intros Hh Hs Hsne Ht Htne Hv Hf.
  unfold authenticateToken, jwt_verify_id. run_task.
  rewrite Hh, (bearer_token_present scheme token Hs Hsne Ht).
  destruct token; [congruence|]. simpl. rewrite Hv. simpl. now rewrite Hf.
Qed.

(** *** Requests in sequence *)

Lemma create_review_fresh (now : Z) (req : Request) (db : Db) (user : User.t)
    (itemId rating : Q) (content : string) :
  createReviewSchema (body req) = inr (itemId, rating, content) ->
  In user (users db) ->
  existsb (fun it => Item.id it =? Prisma.int itemId) (items db) = true ->
  find (fun r => (Review.userId r =? User.id user)
                 && (Review.itemId r =? Prisma.int itemId))
    (reviews db) = None ->
  let r := created_review (nextReviewId db) (Prisma.int rating) content
             (User.id user) (Prisma.int itemId) now in
  create_review now req user db
  = (Return (status_json 201 (ReviewBody r (user_ref db (User.id user)))),
     with_reviews db (reviews db ++ [r]) (nextReviewId db + 1)).
Proof.
  intros Hbody Huser Hitem Hfind r. subst r.
  unfold create_review. run_task. rewrite Hbody. simpl. rewrite Hfind.
  unfold Prisma.review.create. run_task. unfold Prisma.review.insert.
  assert (Hu : existsb (fun u => User.id u =? User.id user) (users db) = true).
  { apply existsb_exists. exists user. split; [exact Huser|apply Z.eqb_refl]. }
  rewrite Hu, Hitem, (find_none_existsb _ _ Hfind). reflexivity.
Qed.

(** A first review of a stored item, with a body the schema accepts
    and an integer rating, is answered 201 and stored under the next
    id with the caller as its author; from then on every further POST
    /reviews of that caller for that item is answered 400 "You have
    already reviewed this item." and stores nothing. *)
Theorem create_review_once (now : Z) (req : Request) (db : Db) (user : User.t)
    (itemId rating : Q) (content : string) (i : Z) :
  authenticateToken now req db = (Return (Next user), db) ->
  createReviewSchema (body req) = inr (itemId, rating, content) ->
  (itemId == inject_Z i)%Q -> Zod.is_integer rating = true ->
  existsb (fun it => Item.id it =? i) (items db) = true ->
  find (fun r => (Review.userId r =? User.id user) && (Review.itemId r =? i))
    (reviews db) = None ->
  let r := created_review (nextReviewId db) (Qfloor rating) content
             (User.id user) i now in
  let db' := with_reviews db (reviews db ++ [r]) (nextReviewId db + 1) in
  authenticated now req (create_review now req) db
  = (Return (status_json 201 (ReviewBody r (user_ref db (User.id user)))), db')
  /\ forall now' req' itemId' rating' content',
       authenticateToken now' req' db' = (Return (Next user), db') ->
       createReviewSchema (body req') = inr (itemId', rating', content') ->
       (itemId' == inject_Z i)%Q ->
       authenticated now' req' (create_review now' req') db'
       = (Return (status_json 400 (Error "You have already reviewed this item.")),
          db').
Proof.
  intros Hauth Hbody Hid Hint Hitem Hfind r db'.
  rewrite (authenticated_next _ _ _ _ _ Hauth).
  pose proof (gate_user_stored _ _ _ _ _ Hauth) as [_ Huser].
  pose proof (int_integer itemId i Hid) as Hi.
  pose proof (int_is_integer rating Hint) as Hr.
  split.
  { subst r db'. rewrite <- Hi in Hitem, Hfind.
    rewrite (create_review_fresh now req db user itemId rating content
               Hbody Huser Hitem Hfind).
    now rewrite Hi, Hr. }
  intros now' req' itemId' rating' content' Hauth' Hbody' Hid'.
  rewrite (authenticated_next _ _ _ _ _ Hauth').
  apply (create_review_duplicate now' req' user db' itemId' rating' content' r);
    auto.
  subst db'. simpl. apply in_or_app. right. now left.
Qed.

Lemma register_fresh (salt : string) (now : Z) (req : Request) (db : Db)
    (username email password : string) :
  registerSchema (body req) = inr (username, email, password) ->
  existsb (fun u => String.eqb (User.email u) email
                    || String.eqb (User.username u) username) (users db) = false ->
  register salt now req db
  = (Return (status_json 201 (Registered (nextUserId db) username email now)),
     with_users db
       (users db ++ [created_user (nextUserId db) username email
                       (bcrypt_hash salt password) now])
       (nextUserId db + 1)).
Proof.
  intros Hbody Hex. unfold register. run_task. rewrite Hbody. simpl.
  assert (Hfind : find (fun u => String.eqb (User.email u) email) (users db) = None).
  { destruct (find _ (users db)) as [u|] eqn:Hf; [|reflexivity].
    apply find_some in Hf as [Hin He].
    assert (existsb (fun u => String.eqb (User.email u) email
                              || String.eqb (User.username u) username)
              (users db) = true)
      by (apply existsb_exists; exists u; split; [exact Hin|now rewrite He]).
    congruence. }
  rewrite Hfind. simpl. unfold Prisma.user.create. now rewrite Hex.
Qed.

Lemma find_appended {A : Type} (p : A -> bool) (l : list A) (x : A) :
  (forall y, In y l -> p y = false) -> p x = true -> find p (l ++ [x]) = Some x.
Proof.
  intros Hl Hx. induction l as [|y l IH]; simpl; [now rewrite Hx|].
  rewrite Hl by now left. apply IH. intros z Hz. apply Hl. now right.
Qed.

(** Registering with a body the schema accepts, an e-mail and a
    username no stored user has, is answered 201 with the new id; the
    store gains the user with the hash of the password, not the
    password. After it, logging in with the same e-mail and password
    returns the token signed for the new id, when [bcrypt.compare]
    accepts the password against its hash; and registering the same
    e-mail again, under any username, is answered 400 "Email already in
    use" and stores nothing. *)
Theorem register_then_login (salt : string) (now : Z) (req : Request) (db : Db)
    (username email password : string) :
  registerSchema (body req) = inr (username, email, password) ->
  existsb (fun u => String.eqb (User.email u) email
                    || String.eqb (User.username u) username) (users db) = false ->
  bcrypt_compare password (bcrypt_hash salt password) = true ->
  let user := created_user (nextUserId db) username email
                (bcrypt_hash salt password) now in
  let db' := with_users db (users db ++ [user]) (nextUserId db + 1) in
  register salt now req db
  = (Return (status_json 201 (Registered (nextUserId db) username email now)), db')
  /\ (forall now' req',
        loginSchema (body req') = inr (email, password) ->
        login now' req' db'
        = (Return (json (Token (jwt_sign now' (nextUserId db)))), db'))
  /\ (forall salt' now' req' username' password',
        registerSchema (body req') = inr (username', email, password') ->
        register salt' now' req' db'
        = (Return (status_json 400 (Error "Email already in use")), db')).
Proof.
  intros Hbody Hex Hcompare user db'.
  split; [now apply register_fresh|].
  assert (Hfind : find (fun u => String.eqb (User.email u) email)
                    (users db ++ [user]) = Some user).
  { apply find_appended; [|apply String.eqb_refl].
    intros y Hy. apply not_true_is_false. intros He.
    assert (existsb (fun u => String.eqb (User.email u) email
                              || String.eqb (User.username u) username)
              (users db) = true)
      by (apply existsb_exists; exists y; split; [exact Hy|now rewrite He]).
    congruence. }
  split.
  - intros now' req' Hlogin. unfold login. run_task. rewrite Hlogin. simpl.
    rewrite Hfind. simpl. now rewrite Hcompare.
  - intros salt' now' req' username' password' Hbody'.
    apply (register_taken_email salt' now' req' db' username' email password' user);
      auto.
    apply find_some in Hfind. tauto.
Qed.

(** The token a login returns passes the gate as the user who logged
    in, at any time at which [jwt.verify] still accepts it, when user
    ids are unique in the store. *)
Theorem login_token_passes_gate (now now' : Z) (req req' : Request) (db : Db)
    (email password : string) (user : User.t) :
  loginSchema (body req) = inr (email, password) ->
  find (fun u => String.eqb (User.email u) email) (users db) = Some user ->
  bcrypt_compare password (User.password user) = true ->
  NoDup (map User.id (users db)) ->
  let token := jwt_sign now (User.id user) in
  Js.split " " token = [token] -> token <> "" ->
  jwt_verify now' token = Some (User.id user) ->
  authorization req' = Some ("Bearer" ++ String " " token)%string ->
  login now req db = (Return (json (Token token)), db)
  /\ authenticateToken now' req' db = (Return (Next user), db).
Proof.
  intros Hbody Hfind Hcompare Hids token Hsplit Hne Hverify Hheader.
  split.
  - unfold login. run_task. rewrite Hbody. simpl. rewrite Hfind. simpl.
    now rewrite Hcompare.
  - unfold authenticateToken, jwt_verify_id. run_task.
    rewrite Hheader, (bearer_token_present "Bearer" token eq_refl ltac:(discriminate) Hsplit).
    destruct token eqn:Ht; [congruence|]. simpl. rewrite Hverify. simpl.
    apply find_some in Hfind as [Hin _].
    destruct (find (fun u => User.id u =? User.id user) (users db)) as [u|] eqn:Hf.
    + apply find_by_key in Hf as [Hu Hk].
      now rewrite (same_key_same_row User.id (users db) u user Hids Hu Hin Hk).
    + apply (find_none _ _ Hf) in Hin. now rewrite Z.eqb_refl in Hin.
Qed.

(** *** Validation *)

(** A body its schema refuses is answered 400 with the issues before
    the store is consulted: whatever is stored, whoever calls, nothing
    is read or written. For the updates this holds once the path
    parameter is a number. *)
Theorem refused_body_is_400 (salt : string) (commentId now : Z) (req : Request)
    (user : User.t) (db : Db) (issues : list ZodIssue) :
  (registerSchema (body req) = inl issues ->
   register salt now req db = (Return (status_json 400 (Errors issues)), db))
  /\ (loginSchema (body req) = inl issues ->
      login now req db = (Return (status_json 400 (Errors issues)), db))
  /\ (createReviewSchema (body req) = inl issues ->
      create_review now req user db
      = (Return (status_json 400 (Errors issues)), db))
  /\ (createCommentSchema (body req) = inl issues ->
      create_comment commentId now req user db
      = (Return (reply 400 (Plain (Errors issues))), db))
  /\ (forall id, Js.parseInt (params_id req) = Some id ->
        updateReviewSchema (body req) = inl issues ->
        update_review now req user db
        = (Return (status_json 400 (Errors issues)), db))
  /\ (forall id, Js.parseInt (params_id req) = Some id ->
        updateCommentSchema (body req) = inl issues ->
        update_comment now req user db
        = (Return (status_json 400 (Errors issues)), db)).
Proof.
  repeat split.
  - intros H. unfold register. run_task. now rewrite H.
  - intros H. unfold login. run_task. now rewrite H.
  - intros H. unfold create_review. run_task. now rewrite H.
  - intros H. unfold create_comment, catch_zod_reply. run_task. now rewrite H.
  - intros id Hid H. unfold update_review. rewrite Hid. run_task. now rewrite H.
  - intros id Hid H. unfold update_comment. rewrite Hid. run_task. now rewrite H.
Qed.

(** The schemas ask for a rating between 1 and 5, not for an integer.
    The column is [Int] and the client drops the fraction: a first
    review of a stored item is answered 201 and an update of one's own
    review 200, both with the rating without its fraction, a number
    from 1 to 5, and that is the rating stored; 4.5 is stored as 4. *)
Theorem fractional_rating_is_truncated (now : Z) (req : Request) (db : Db)
    (user : User.t) (rating : Q) (stored : Z) :
  authenticateToken now req db = (Return (Next user), db) ->
  truncated rating stored = true ->
  (forall itemId content i,
     createReviewSchema (body req) = inr (itemId, rating, content) ->
     truncated itemId i = true ->
     existsb (fun it => Item.id it =? i) (items db) = true ->
     find (fun r => (Review.userId r =? User.id user) && (Review.itemId r =? i))
       (reviews db) = None ->
     let r := created_review (nextReviewId db) stored content (User.id user) i now in
     1 <= stored <= 5
     /\ authenticated now req (create_review now req) db
        = (Return (status_json 201 (ReviewBody r (user_ref db (User.id user)))),
           with_reviews db (reviews db ++ [r]) (nextReviewId db + 1)))
  /\ (forall id content old,
        Js.parseInt (params_id req) = Some id ->
        updateReviewSchema (body req) = inr (Some rating, content) ->
        find (fun r => Review.id r =? id) (reviews db) = Some old ->
        Review.userId old = User.id user ->
        let r := {| Review.id := Review.id old;
                    Review.rating := stored;
                    Review.content := match content with
                                      | Some c => c
                                      | None => Review.content old
                                      end;
                    Review.userId := Review.userId old;
                    Review.itemId := Review.itemId old;
                    Review.createdAt := Review.createdAt old;
                    Review.updatedAt := now |} in
        1 <= stored <= 5
        /\ fst (authenticated now req (update_review now req) db)
           = Return (json (ReviewBody r (user_ref db (Review.userId old))))
        /\ find (fun r => Review.id r =? id)
             (reviews (snd (authenticated now req (update_review now req) db)))
           = Some r).
Proof.
  intros Hauth Htrunc. rewrite !(authenticated_next _ _ _ _ _ Hauth).
  apply int_truncated in Htrunc.
  pose proof (gate_user_stored _ _ _ _ _ Hauth) as [_ Huser]. split.
  - intros itemId content i Hbody Hi Hitem Hfind r. subst r.
    apply int_truncated in Hi. rewrite <- Htrunc. split.
    + apply stored_rating_range. now apply createReviewSchema_range in Hbody.
    + rewrite <- Hi in Hitem, Hfind.
      rewrite (create_review_fresh now req db user itemId rating content
                 Hbody Huser Hitem Hfind).
      now rewrite Hi.
  - intros id content old Hid Hbody Hfind Hown r. subst r. rewrite <- Htrunc. split.
    + apply stored_rating_range. now apply updateReviewSchema_range in Hbody.
    + unfold update_review. rewrite Hid, Hbody. run_task. simpl. rewrite Hfind. simpl.
      assert (Heq : (Review.userId old =? User.id user) = true)
        by (apply Z.eqb_eq; exact Hown).
      rewrite Heq. simpl. unfold Prisma.review.update. rewrite Hfind. simpl.
      split; [reflexivity|].
      apply (find_replaced (reviews db) id _ old); [|exact Hfind].
      now apply find_id in Hfind.
Qed.

(** *** Pages *)

(** When no two comments of the review have one [createdAt], their
    arrangement from the oldest to the newest is one, and page [page] of
    GET /comments holds its rows from [(page - 1) * limit] on: the
    [k]-th comment of the page, for [k] below [limit], is the comment
    at that offset. *)
Theorem get_comments_page_rows (req : Request) (db db' : Db) (rid : string)
    (page limit : Z) (listed : list (Comment.t * option UserRef))
    (arranged : list Comment.t) (k : nat) :
  getCommentsSchema req = inr (rid, page, limit) ->
  get_comments req db = (Return (json (CommentsPage page limit listed)), db') ->
  NoDup (map Comment.createdAt arranged) ->
  Permutation arranged
    (filter (fun c => Comment.reviewId c =? Js.Number rid) (comments db)) ->
  ascending Comment.createdAt arranged ->
  1 <= page -> (k < Z.to_nat limit)%nat ->
  nth_error (map fst listed) k
  = nth_error arranged (Z.to_nat ((page - 1) * limit) + k).
Proof.
  intros Hq Hget Hdistinct Hperm Hasc Hpage Hk.
  pose proof (getCommentsSchema_accepts req rid page limit Hq)
    as (_ & Hparse & _ & _ & Hlimit).
  assert (Harr : arranged
                 = sort_by Comment.createdAt
                     (filter (fun c => Comment.reviewId c =? Js.Number rid)
                        (comments db))).
  { apply (ascending_unique Comment.createdAt); auto.
    - rewrite Hperm. symmetry. apply sort_by_permutation.
    - apply sort_by_ascending. }
  revert Hget. unfold get_comments. run_task. rewrite Hq. simpl. rewrite Hparse.
  simpl. destruct (find _ (reviews db)); simpl;
    [|destruct (Prisma.int32 _); discriminate].
  unfold Prisma.comment.findMany_reviewId.
  destruct ((page - 1) * limit <? 0); simpl; [discriminate|].
  intros H. injection H as <- _. rewrite map_map. simpl. rewrite map_id.
  rewrite Harr. now apply page_of_nth.
Qed.

End MoreProperties.

(* ================================================================== *)
(** ** The service on the seeded store *)

Module Seeded.

Import Fixture.

(** The tests' listing without parameters: page 1 of 10, the first
    item with the average 4.5 of its ratings 5 and 4, computed in
    binary64. *)
Example get_items_default :
  fst (get_items (ext := node) (request None "" [] (JObj [])) db)
  = Return (json (ItemsPage 1 10
                    [ {| summary_item := item1; summary_averageRating := Some (9 # 2)%Q |};
                      {| summary_item := item2; summary_averageRating := None |} ])).
Proof. vm_compute. reflexivity. Qed.

(** A mean that is a tie in decimal, 41/40 = 1.025: its binary64
    quotient lies below the tie and the route reports 1.02; with the
    exact quotient [toFixed] would report 1.03. Both are nearest
    hundredths of the mean. *)
Example averageRating_tie :
  averageRating (ext := node) (fun r => r) (2 :: repeat 1 39) = Some (51 # 50)%Q
  /\ averageRating (ext := ideal) (fun r => r) (2 :: repeat 1 39) = Some (103 # 100)%Q.
Proof. split; vm_compute; reflexivity. Qed.

(** Binary64 division meets [fdiv_accurate] on every pair of a
    numerator up to 500 and a denominator up to 100. *)
Example binary64_div_accurate_sample :
  forallb
    (fun ab =>
       Qle_bool
         (Qabs (Binary64.div (fst ab) (snd ab) - (fst ab # Z.to_pos (snd ab))))
         ((fst ab # Z.to_pos (snd ab)) * (1 # 2 ^ 53)))
    (list_prod (map Z.of_nat (seq 0 501)) (map Z.of_nat (seq 1 100)))
  = true.
Proof. vm_compute. reflexivity. Qed.

(** The exact quotient is accurate. *)
Lemma ideal_fdiv_accurate : fdiv_accurate (ext := ideal).
Proof.
  intros a b Ha Hb. cbn [fdiv ideal].
  rewrite Qred_correct.
  setoid_replace ((a # Z.to_pos b) - (a # Z.to_pos b))%Q with 0%Q by ring.
  apply Qmult_le_0_compat; [|discriminate].
  unfold Qle. cbn [Qnum Qden]. lia.
Qed.

(** The four answers of the gate: no header, a token that does not
    verify, the token of a user who is no longer stored, a stored user. *)
Example gate_on_seeded_store :
  authenticateToken (ext := node) 0 (request None "" [] (JObj [])) db
  = (Return (Rejected (status_json 401 (Error "Access token missing"))), db)
  /\ authenticateToken (ext := node) 0 (request (Some "Bearer forged") "" [] (JObj [])) db
     = (Return (Rejected (status_json 403 (Error "Invalid or expired token"))), db)
  /\ authenticateToken (ext := node) 0 (request (Some "Bearer tokenB") "" [] (JObj []))
       (with_users db [alice] 3)
     = (Return (Rejected (status_json 401 (Error "User not found"))),
        with_users db [alice] 3)
  /\ authenticateToken (ext := node) 0 (request (Some "Bearer tokenA") "" [] (JObj [])) db
     = (Return (Next alice), db).
Proof. repeat split; reflexivity. Qed.

(** C1, the sentence as worded fails: PUT /reviews/999 by an
    authenticated caller with the body [{ rating: 9 }], no review 999
    stored, is answered 400 by the validation that precedes the lookup. *)
Lemma update_of_missing_review_not_always_404 :
  ~ update_of_missing_review_always_404 (ext := node).
Proof.
  intros H.
  specialize (H 0 put_review_999_rating_9 db alice eq_refl).
  assert (Hmissing : forall r, In r (reviews db) ->
            Js.parseInt (params_id put_review_999_rating_9) <> Some (Review.id r)).
  { intros r [<-|[<-|[]]]; vm_compute; discriminate. }
  specialize (H Hmissing). vm_compute in H. discriminate H.
Qed.

(** The response of that request. *)
Example update_of_missing_review_bad_body :
  authenticated (ext := node) 0 put_review_999_rating_9
    (update_review 0 put_review_999_rating_9) db
  = (Return (status_json 400 (Errors [too_big "rating"])), db).
Proof. vm_compute. reflexivity. Qed.

(** The guard at work: the second user updating the review of the
    first is answered 403; the first user updating review 999, which
    is not stored, 404; and review 2147483648, one above the range of
    the key, 500. *)
Lemma ownership_guard_witness :
  authenticated (ext := node) 0 put_review_1_by_bob
    (update_review 0 put_review_1_by_bob) db
  = (Return (status_json 403
               (Error "You are not authorized to update this review.")), db)
  /\ authenticated (ext := node) 0 Requests.put_review_999
       (update_review 0 Requests.put_review_999) db
     = (Return (status_json 404 (Error "Review not found")), db)
  /\ authenticated (ext := node) 0 Requests.put_review_2147483648
       (update_review 0 Requests.put_review_2147483648) db
     = (Return (status_json 500 (Error "Internal server error")), db).
Proof.
  split; [|split].
  - destruct (ownership_guard (ext := node) 0 put_review_1_by_bob db bob 1
                eq_refl eq_refl) as (_ & Hforeign & _).
    destruct (Hforeign review1 eq_refl) as [Hupdate _]; [discriminate|].
    exact (Hupdate _ eq_refl).
  - destruct (ownership_guard (ext := node) 0 Requests.put_review_999 db alice 999
                eq_refl eq_refl) as (Hmissing & _).
    destruct (Hmissing eq_refl) as [Hin _].
    destruct Hin as [Hupdate _]; [lia|]. exact (Hupdate _ eq_refl).
  - destruct (ownership_guard (ext := node) 0 Requests.put_review_2147483648 db alice
                2147483648 eq_refl eq_refl) as (Hmissing & _).
    destruct (Hmissing eq_refl) as [_ Hout].
    destruct Hout as [Hupdate _]; [lia|]. exact (Hupdate _ eq_refl).
Defined.

(** The guard on the path parameter at work: PUT /reviews/abc. *)
Lemma invalid_id_is_400_witness :
  authenticated (ext := node) 0 put_review_abc (update_review 0 put_review_abc) db
  = (Return (status_json 400 (Error "Invalid review ID")), db).
Proof.
  exact (proj1 (invalid_id_is_400 (ext := node) 0 put_review_abc db alice
                  eq_refl eq_refl)).
Defined.

(** The first user reviewing the first item a second time. *)
Lemma one_review_per_user_and_item_witness :
  authenticated (ext := node) 0 post_review_item_1
    (create_review 0 post_review_item_1) db
  = (Return (status_json 400 (Error "You have already reviewed this item.")), db).
Proof.
  refine (proj1 (one_review_per_user_and_item (ext := node) 0 post_review_item_1
                   db alice 1%Q 3%Q "again" review1
                   eq_refl eq_refl (or_introl eq_refl) eq_refl _)).
  reflexivity.
Defined.


(** What the listing of the busier store reports. *)
Example get_items_busy :
  fst (get_items (ext := node) (request None "" [] (JObj [])) Requests.busy)
  = Return (json (ItemsPage 1 10
                    [ {| summary_item := item1;
                         summary_averageRating := Some (433 # 100)%Q |};
                      {| summary_item := item2; summary_averageRating := None |} ])).
Proof. vm_compute. reflexivity. Qed.

(** The header [Bearer tokenA] carries the token of the first user. *)
Lemma authenticateToken_outcomes_witness :
  fst (authenticateToken (ext := node) 0
         (request (Some "Bearer tokenA") "" [] (JObj [])) db)
  = Return (Next alice).
Proof.
  refine (proj2 (proj2
            (proj2 (proj2 (proj2
               (authenticateToken_outcomes (ext := node) 0
                  (request (Some "Bearer tokenA") "" [] (JObj [])) db)))
               "tokenA" _)) 1 alice eq_refl eq_refl).
  split; [|discriminate]. exists "Bearer", "". repeat split; auto.
Defined.


(** C8, the sentence as worded fails: an update of [content] alone at
    time 200 leaves the review with [updatedAt] 200 where 100 was stored. *)
Lemma update_changes_updatedAt :
  ~ update_leaves_other_fields (ext := node).
Proof.
  intros H.
  specialize (H 200 put_review_1_content db alice 1 None (Some "new") review1
                eq_refl eq_refl eq_refl eq_refl eq_refl).
  vm_compute in H. discriminate H.
Qed.

(** The first user updating the content of her review at time 200. *)
Lemma update_review_is_partial_witness :
  find (fun r => Review.id r =? 1)
    (reviews (snd (authenticated (ext := node) 200 put_review_1_content
                     (update_review 200 put_review_1_content) db)))
  = Some (updated_review review1 None (Some "new") 200).
Proof.
  refine (proj1 (proj2
            (update_review_is_partial (ext := node) 200 put_review_1_content db
               alice 1 None (Some "new") review1
               eq_refl eq_refl eq_refl eq_refl eq_refl _))).
  intros q Hq. discriminate Hq.
Defined.

(** C5 on the code: GET /items/1 with item 1 stored, and GET
    /items/999999 with no such item, both end in the handler's [catch]
    with 500 "Internal server error". *)
Theorem get_item_numeric_id_is_500 :
  find (fun i => Item.id i =? 1) (items db) = Some item1
  /\ get_item (ext := node) get_item_1 db
     = (Return (status_json 500 (Error "Internal server error")), db)
  /\ find (fun i => Item.id i =? 999999) (items db) = None
  /\ get_item (ext := node) get_item_999999 db
     = (Return (status_json 500 (Error "Internal server error")), db).
Proof. repeat split; reflexivity. Qed.

(** C6 on the code: registering a new e-mail with the username of a
    stored user is answered 500 "Internal server error". No user is
    stored; the sequence behind the ids of the users has handed out 3
    and stands at 4. *)
Theorem register_taken_username_is_500 :
  registerSchema (ext := node) (body post_register_alice_again)
  = inr ("alice", "carol@example.com", "secret1")
  /\ register (ext := node) "salt" 0 post_register_alice_again db
     = (Return (status_json 500 (Error "Internal server error")),
        with_users db (users db) 4).
Proof. split; reflexivity. Qed.

(** C9 on the code: GET /items?page=2&limit=10 is answered 400 with
    the two issues of the schema, which expects numbers. *)
Theorem get_items_page_2_is_400 :
  get_items (ext := node) get_items_page_2 db
  = (Return (status_json 400 (Errors [invalid_type "page"; invalid_type "limit"])), db).
Proof. reflexivity. Qed.

End Seeded.

(* ================================================================== *)
(** ** Further runs on the seeded store *)

Module Scenario.

Import Fixture Requests.

Lemma seeded_keys_unique : keys_unique db.
Proof.
  unfold keys_unique, users_unique, review_keys_fresh, one_review_per_pair,
    comment_keys_unique. cbn.
  repeat split;
    repeat (constructor; [cbn; intuition (discriminate || lia)|]);
    constructor.
Qed.

Lemma seeded_ratings_in_range : ratings_in_range (reviews db).
Proof. repeat constructor; discriminate. Qed.

Lemma seeded_references_hold : references_hold db.
Proof.
  split.
  - intros r [<-|[<-|[]]]; split; reflexivity.
  - intros c [<-|[]]; split; reflexivity.
Qed.

(** The first user deletes her review: its comment goes with it. *)
Lemma delete_review_cascades_witness :
  fst (authenticated (ext := node) 0 delete_review_1 (delete_review delete_review_1) db)
  = Return (json (Message "Review deleted successfully."))
  /\ comments (snd (authenticated (ext := node) 0 delete_review_1
                      (delete_review delete_review_1) db)) = [].
Proof.
  split; [|reflexivity].
  exact (proj1 (delete_review_cascades (ext := node) 0 delete_review_1 db alice 1
                  review1 eq_refl eq_refl eq_refl eq_refl)).
Defined.

(** The second user deletes his comment. *)
Lemma delete_comment_removes_one_witness :
  fst (authenticated (ext := node) 0 delete_comment_1 (delete_comment delete_comment_1) db)
  = Return (json (Message "Comment deleted successfully.")).
Proof.
  exact (proj1 (delete_comment_removes_one (ext := node) 0 delete_comment_1 db bob 1
                  comment1 eq_refl eq_refl eq_refl eq_refl)).
Defined.

(** The second user edits his comment at time 220. *)
Lemma update_comment_replaces_content_witness :
  find (fun c => Comment.id c =? 1)
    (comments (snd (authenticated (ext := node) 220 put_comment_1
                      (update_comment 220 put_comment_1) db)))
  = Some (updated_comment comment1 "edited" 220).
Proof.
  exact (proj1 (proj2
           (update_comment_replaces_content (ext := node) 220 put_comment_1 db bob 1
              "edited" comment1 eq_refl eq_refl eq_refl eq_refl eq_refl))).
Defined.

Lemma replay_keeps_keys_witness : keys_unique (replay (ext := node) day db).
Proof. exact (replay_keeps_keys (ext := node) day db seeded_keys_unique). Defined.

Lemma replay_keeps_ratings_witness :
  ratings_in_range (reviews (replay (ext := node) day db)).
Proof. exact (replay_keeps_ratings (ext := node) day db seeded_ratings_in_range). Defined.

Lemma replay_keeps_references_witness :
  references_hold (replay (ext := node) day db).
Proof. exact (replay_keeps_references (ext := node) day db seeded_references_hold). Defined.

(** What the day leaves: the second review and the new one, rated 4;
    the comment on the second review; three users, the third under the
    id 4, the refused registration having taken 3. *)
Example day_on_seeded_store :
  map Review.id (reviews (replay (ext := node) day db)) = [2; 3]
  /\ map Review.rating (reviews (replay (ext := node) day db)) = [4; 4]
  /\ map Comment.id (comments (replay (ext := node) day db)) = [2]
  /\ map Comment.reviewId (comments (replay (ext := node) day db)) = [2]
  /\ map User.username (users (replay (ext := node) day db)) = ["alice"; "bob"; "carol"]
  /\ map User.id (users (replay (ext := node) day db)) = [1; 2; 4]
  /\ nextUserId (replay (ext := node) day db) = 5.
Proof. repeat split; reflexivity. Qed.


Example get_comments_busy_page_2 :
  get_comments get_comments_review_1_page_2 busy
  = (Return (json (CommentsPage 2 2
                     [ (remark 3 3 1 130, Some {| ref_id := 3; ref_username := "carol" |});
                       (remark 5 2 1 140, Some {| ref_id := 2; ref_username := "bob" |}) ])),
     busy).
Proof. reflexivity. Qed.

Lemma get_comments_ascending_witness :
  ascending Comment.createdAt [remark 3 3 1 130; remark 5 2 1 140].
Proof.
  exact (proj1 (proj2 (proj2
           (get_comments_ascending get_comments_review_1_page_2 busy busy 2 2
              [ (remark 3 3 1 130, Some {| ref_id := 3; ref_username := "carol" |});
                (remark 5 2 1 140, Some {| ref_id := 2; ref_username := "bob" |}) ]
              eq_refl)))).
Defined.

(** The second comment of page 2 of 2 is the fourth of the five. *)
Lemma get_comments_page_rows_witness :
  nth_error [remark 3 3 1 130; remark 5 2 1 140] 1
  = nth_error [comment1; remark 6 3 1 125; remark 3 3 1 130; remark 5 2 1 140;
               remark 2 1 1 150] 3.
Proof.
  refine (get_comments_page_rows get_comments_review_1_page_2 busy busy "1" 2 2
            [ (remark 3 3 1 130, Some {| ref_id := 3; ref_username := "carol" |});
              (remark 5 2 1 140, Some {| ref_id := 2; ref_username := "bob" |}) ]
            [comment1; remark 6 3 1 125; remark 3 3 1 130; remark 5 2 1 140;
             remark 2 1 1 150] 1
            eq_refl eq_refl _ _ _ _ _).
  - repeat (constructor; [cbn; intuition discriminate|]). constructor.
  - exact (sort_by_permutation Comment.createdAt
             [comment1; remark 2 1 1 150; remark 3 3 1 130; remark 5 2 1 140;
              remark 6 3 1 125]).
  - exact (sort_by_ascending Comment.createdAt
             [comment1; remark 2 1 1 150; remark 3 3 1 130; remark 5 2 1 140;
              remark 6 3 1 125]).
  - discriminate.
  - cbv. lia.
Defined.


(** The first user comments on review 2.5: the comment is stored on
    the review of the second user, review 2. *)
Lemma create_comment_outcomes_witness :
  behind_gate (ext := node) 210 post_comment_review_2_half
    (create_comment 2 210 post_comment_review_2_half) db
  = (Return (reply 201
               (CommentCreated
                  (created_comment 2 "Thanks for the feedback!" 1 2 210)
                  (Some {| ref_id := 1; ref_username := "alice" |})
                  (Some {| review_ref_id := 2;
                           review_ref_content := "Very good, but could be improved." |}))),
     with_comments db
       (comments db ++ [created_comment 2 "Thanks for the feedback!" 1 2 210])).
Proof.
  exact (proj2 (create_comment_outcomes (ext := node) 2 210 post_comment_review_2_half
                  db alice 2.5%Q "Thanks for the feedback!" 2 eq_refl eq_refl eq_refl)
           review2 eq_refl eq_refl).
Defined.

(** No header: PUT /reviews/1 is answered by the gate. *)
Lemma rejected_request_reaches_no_handler_witness :
  authenticated (ext := node) 0 no_header (update_review 0 no_header) db
  = (Return (status_json 401 (Error "Access token missing")), db).
Proof.
  exact (proj1 (rejected_request_reaches_no_handler (ext := node) 0 no_header db
                  (status_json 401 (Error "Access token missing"))
                  (update_review 0 no_header) (delete_review no_header) eq_refl)).
Defined.

(** [Basic tokenA] passes as the first user. *)
Lemma any_scheme_passes_witness :
  authenticateToken (ext := node) 0 basic_tokenA db = (Return (Next alice), db).
Proof.
  refine (any_scheme_passes (ext := node) 0 basic_tokenA db "Basic" "tokenA" 1 alice
            eq_refl eq_refl _ eq_refl _ eq_refl eq_refl); discriminate.
Defined.

(** The first user reviews the second item. *)
Lemma create_review_once_witness :
  authenticated (ext := node) 200 post_review_item_2
    (create_review 200 post_review_item_2) db
  = (Return (status_json 201
               (ReviewBody (created_review 3 4 "fine" 1 2 200)
                  (Some {| ref_id := 1; ref_username := "alice" |}))),
     with_reviews db (reviews db ++ [created_review 3 4 "fine" 1 2 200]) 4).
Proof.
  refine (proj1 (create_review_once (ext := node) 200 post_review_item_2 db alice
                   2%Q 4%Q "fine" 2 eq_refl eq_refl _ eq_refl eq_refl eq_refl)).
  reflexivity.
Defined.

(** A third user registers. *)
Lemma register_then_login_witness :
  register (ext := node) "salt" 240 post_register_carol db
  = (Return (status_json 201 (Registered 3 "carol" "carol@example.com" 240)),
     with_users db
       (users db ++ [created_user 3 "carol" "carol@example.com" "$2b$10$secret1" 240])
       4).
Proof.
  exact (proj1 (register_then_login (ext := node) "salt" 240 post_register_carol db
                  "carol" "carol@example.com" "secret1" eq_refl eq_refl eq_refl)).
Defined.

(** The first user logs in and calls with the token. *)
Lemma login_token_passes_gate_witness :
  authenticateToken (ext := node) 1 bearer_tokenA db = (Return (Next alice), db).
Proof.
  refine (proj2 (login_token_passes_gate (ext := node) 0 1 post_login_alice
                   bearer_tokenA db "alice@example.com" "password123" alice
                   eq_refl eq_refl eq_refl _ eq_refl _ eq_refl eq_refl)).
  - repeat (constructor; [cbn; intuition discriminate|]). constructor.
  - discriminate.
Defined.

(** The first user rates the second item 4.5: the review is stored
    with the rating 4. *)
Lemma fractional_rating_is_truncated_witness :
  authenticated (ext := node) 200 post_review_item_2_half
    (create_review 200 post_review_item_2_half) db
  = (Return (status_json 201
               (ReviewBody (created_review 3 4 "fine" 1 2 200)
                  (Some {| ref_id := 1; ref_username := "alice" |}))),
     with_reviews db (reviews db ++ [created_review 3 4 "fine" 1 2 200]) 4).
Proof.
  exact (proj2 (proj1 (fractional_rating_is_truncated (ext := node) 200
                         post_review_item_2_half db alice 4.5%Q 4 eq_refl eq_refl)
                  2%Q "fine" 2 eq_refl eq_refl eq_refl eq_refl)).
Defined.

(** She then puts 4.5 on her first review. *)
Example put_review_1_half_stores_4 :
  option_map Review.rating
    (find (fun r => Review.id r =? 1)
       (reviews (snd (authenticated (ext := node) 225 put_review_1_half
                        (update_review 225 put_review_1_half) db))))
  = Some 4.
Proof. reflexivity. Qed.

End Scenario.
